(** * nkn-client-go: the multi-path client (multiclient.go, message.go)

    A shallow embedding of the MultiClient of the NKN Go SDK and the
    properties of its identifier codec, fan-in router, fan-out sender,
    session table and lifecycle, with the payload constructors and the
    box helpers of message.go and the write callback of a session.

    Conventions of the embedding.
    - Go [string] is [string]; [[]byte] is [list byte] (a nil slice and an
      empty one are both the empty list; where the code tests a slice
      against [nil] the argument is an [option]).
    - Go [int] is [Z]; pointers to external objects ([*Client],
      [*ncp.Session]) are opaque handles.
    - [map[K]V] is stdpp's [gmap]; a [range] over a map visits the keys in
      an order chosen by the runtime, which is an explicit argument here.
    - Calls into what lies outside multiclient.go and message.go (the
      subclient, the ncp session library, random bytes, mergo, the log) are
      answered by an environment that sees the whole history of earlier
      calls; every call is recorded in that history, so what the code did
      to the outside is observable.
    - A method of the MultiClient that changes it returns the new
      MultiClient next to its Go result. *)

From Stdlib Require Import ZArith Ascii String DecimalString Lia Bool.
From Stdlib Require DecimalZ.
From Stdlib.Strings Require Import Byte.
From stdpp Require Import gmap strings list fin_maps sorting.

Local Open Scope Z_scope.

(* ===================================================================== *)
(** * Regular expressions (the fragment used by [identifierRe])          *)
(* ===================================================================== *)

Module Regexp.

(** Abstract syntax of the patterns.  Anchors are not part of the syntax:
    a pattern wrapped in [^ ... $] is matched against the whole text, which
    is what [MatchString] below does. *)
Inductive regexp : Type :=
| Void
| Eps
| Class (p : ascii -> bool)
| Cat (r1 r2 : regexp)
| Alt (r1 r2 : regexp)
| Star (r : regexp).

Definition Lit (c : ascii) : regexp := Class (Ascii.eqb c).
Definition Plus (r : regexp) : regexp := Cat r (Star r).

(** [\d] of Go's RE2 syntax: the ASCII digits [0-9]. *)
Definition is_digit (c : ascii) : bool :=
  let n := N_of_ascii c in ((48 <=? n) && (n <=? 57))%N.

Definition Digit : regexp := Class is_digit.

Fixpoint nullable (r : regexp) : bool :=
  match r with
  | Void => false
  | Eps => true
  | Class _ => false
  | Cat r1 r2 => nullable r1 && nullable r2
  | Alt r1 r2 => nullable r1 || nullable r2
  | Star _ => true
  end.

(** Brzozowski derivative. *)
Fixpoint deriv (c : ascii) (r : regexp) : regexp :=
  match r with
  | Void => Void
  | Eps => Void
  | Class p => if p c then Eps else Void
  | Cat r1 r2 =>
      if nullable r1
      then Alt (Cat (deriv c r1) r2) (deriv c r2)
      else Cat (deriv c r1) r2
  | Alt r1 r2 => Alt (deriv c r1) (deriv c r2)
  | Star r1 => Cat (deriv c r1) (Star r1)
  end.

(** [regexp.MatchString] for an anchored pattern. *)
Fixpoint MatchString (r : regexp) (s : string) : bool :=
  match s with
  | EmptyString => nullable r
  | String c s' => MatchString (deriv c r) s'
  end.

(** The language of a pattern, as a relation. *)
Inductive Lang : regexp -> string -> Prop :=
| LEps : Lang Eps EmptyString
| LClass p c : p c = true -> Lang (Class p) (String c EmptyString)
| LCat r1 r2 s1 s2 : Lang r1 s1 -> Lang r2 s2 -> Lang (Cat r1 r2) (s1 +:+ s2)
| LAltL r1 r2 s : Lang r1 s -> Lang (Alt r1 r2) s
| LAltR r1 r2 s : Lang r2 s -> Lang (Alt r1 r2) s
| LStarNil r : Lang (Star r) EmptyString
| LStarApp r s1 s2 : Lang r s1 -> Lang (Star r) s2 -> Lang (Star r) (s1 +:+ s2).

End Regexp.

(* ===================================================================== *)
(** * Identifier codec                                                    *)
(* ===================================================================== *)

Import Regexp.

(** [identifierRe = "^__\\d+__$"] (multiclient.go, line 24). *)
Definition identifierRe : regexp :=
  Cat (Lit "_") (Cat (Lit "_") (Cat (Plus Digit) (Cat (Lit "_") (Lit "_")))).

(** [strconv.Itoa]: decimal digits, with a leading [-] below zero. *)
Definition Itoa (n : Z) : string := NilZero.string_of_int (Z.to_int n).

(** [strings.SplitN(s, ".", 2)]: the text before the first ['.'] and the
    text after it, or [None] when [s] has no ['.']. *)
Fixpoint splitFirstDot (s : string) : option (string * string) :=
  match s with
  | EmptyString => None
  | String c s' =>
      if Ascii.eqb c "."
      then Some (EmptyString, s')
      else match splitFirstDot s' with
           | Some (seg, rest) => Some (String c seg, rest)
           | None => None
           end
  end.

(** Modelled from the spec: [addIdentifier] is called by multiclient.go
    but defined in a file that is not part of the sources at hand.  The
    specification (4.A, [addTag]) gives it as: returns [base] when
    [n == -1], else ["__n__." + base]. *)
Definition addIdentifier (base : string) (n : Z) : string :=
  if n =? -1 then base
  else "__" +:+ Itoa n +:+ "__." +:+ base.

(** Modelled from the spec: [removeIdentifier] is called by multiclient.go
    but defined in a file that is not part of the sources at hand.  The
    specification (4.A, [stripTag]) gives it as: split on the first ['.'];
    if the leading segment matches [identifierRe], return (remainder,
    matched segment), else return (addr, "").  A text without ['.'] has
    nothing to split off and is returned whole. *)
Definition removeIdentifier (addr : string) : string * string :=
  match splitFirstDot addr with
  | Some (seg, rest) =>
      if MatchString identifierRe seg then (rest, seg) else (addr, EmptyString)
  | None => (addr, EmptyString)
  end.

(** An address begins with a subclient tag when its leading dot-separated
    component matches [identifierRe]. *)
Definition hasTagPrefix (addr : string) : bool :=
  match splitFirstDot addr with
  | Some (seg, _) => MatchString identifierRe seg
  | None => false
  end.

(** Every character of [s] is a decimal digit. *)
Fixpoint all_digits (s : string) : bool :=
  match s with
  | EmptyString => true
  | String c s' => is_digit c && all_digits s'
  end.

(** No character of [s] is a dot. *)
Fixpoint no_dot (s : string) : bool :=
  match s with
  | EmptyString => true
  | String c s' => negb (Ascii.eqb c ".") && no_dot s'
  end.

(* ===================================================================== *)
(** * Data                                                                *)
(* ===================================================================== *)

Definition bytes : Type := list Byte.byte.

#[global] Instance byte_eq_decision : EqDecision Byte.byte := Byte.byte_eq_dec.

(** Go [error] values.  [ncp.Closed] and [ncp.SessionClosed] are the
    sentinels of the session library; [ErrorsNew] is an error made with
    [errors.New] in this package; [ExternalError] is any other error
    returned by a call to the outside. *)
Inductive error : Type :=
| ErrorsNew (text : string)
| NcpClosed
| NcpSessionClosed
| ExternalError (code : Z).

Definition error_eqb (a b : error) : bool :=
  match a, b with
  | ErrorsNew s, ErrorsNew t => String.eqb s t
  | NcpClosed, NcpClosed => true
  | NcpSessionClosed, NcpSessionClosed => true
  | ExternalError x, ExternalError y => x =? y
  | _, _ => false
  end.

(** [payloads.Type]. *)
Inductive PayloadType : Type := BINARY | TEXT | ACK | SESSION.

(** [payloads.Payload] with the fields message.go fills.  multiclient.go
    names the identifier field [Pid] ([payload.Pid] in [Send]); message.go
    names it [MessageId]. *)
Record Payload : Type := mkPayload {
  Type_ : PayloadType;
  MessageId : bytes;
  Data_ : bytes;
  ReplyToId : bytes;
  NoReply : bool
}.

(** The closure stored in [Message.Reply]: the one function literal of
    multiclient.go, lines 159-174.  Its free variables are the message it
    is attached to and the MultiClient, both passed at the call
    ([invokeReply] below). *)
Inductive ReplyFn : Type := RouterReply.

(** [Message], with the fields multiclient.go reads and writes. *)
Record Message : Type := mkMessage {
  Src : string;
  Data : bytes;
  Encrypted : bool;
  Pid : bytes;
  IsSession : bool;
  Reply : option ReplyFn
}.

Definition setSrc (src : string) (msg : Message) : Message :=
  {| Src := src; Data := Data msg; Encrypted := Encrypted msg;
     Pid := Pid msg; IsSession := IsSession msg; Reply := Reply msg |}.

Definition setReply (f : ReplyFn) (msg : Message) : Message :=
  {| Src := Src msg; Data := Data msg; Encrypted := Encrypted msg;
     Pid := Pid msg; IsSession := IsSession msg; Reply := Some f |}.

(** Handles of external objects. *)
Definition Client : Type := Z.
Definition Session : Type := Z.

(** [SessionConfig] is opaque to this layer. *)
Definition SessionConfig : Type := list (string * Z).

(** [ClientConfig], with the fields multiclient.go reads. *)
Record ClientConfig : Type := mkClientConfig {
  MsgChanLen : Z;
  MsgCacheExpiration : Z;
  SessionConfig_ : SessionConfig
}.

(** [SessionIDSize] (multiclient.go, line 25), in bytes. *)
Definition SessionIDSize : Z := 8.

(* ===================================================================== *)
(** * The message cache (github.com/patrickmn/go-cache)                   *)
(* ===================================================================== *)

Module GoCache.

(** Times and durations are nanoseconds.  An item carries the time at
    which it expires, or [0] when it never does. *)
Record Cache : Type := mkCache {
  defaultExpiration : Z;
  items : gmap string Z
}.

(** [cache.New(defaultExpiration, cleanupInterval)]: a default of [0]
    stands for "no expiration" ([-1]). *)
Definition New (de cleanupInterval : Z) : Cache :=
  {| defaultExpiration := if de =? 0 then -1 else de; items := ∅ |}.

Definition expired (now e : Z) : bool := (0 <? e) && (e <? now).

(** [c.Get(k)]: found unless absent or expired. *)
Definition Get (now : Z) (k : string) (c : Cache) : bool :=
  match items c !! k with
  | None => false
  | Some e => negb (expired now e)
  end.

(** [c.Set(k, x, cache.DefaultExpiration)]. *)
Definition Set_ (now : Z) (k : string) (c : Cache) : Cache :=
  let d := defaultExpiration c in
  let e := if 0 <? d then now + d else 0 in
  {| defaultExpiration := d; items := <[k := e]> (items c) |}.

(** [c.DeleteExpired()], run by the janitor at the cleanup interval. *)
Definition DeleteExpired (now : Z) (c : Cache) : Cache :=
  {| defaultExpiration := defaultExpiration c;
     items := filter (λ kv, expired now kv.2 = false) (items c) |}.

End GoCache.

(* ===================================================================== *)
(** * Calls to the outside, and their history                             *)
(* ===================================================================== *)

(** What [log.Println] is given. *)
Inductive LogArg : Type :=
| LogText (text : string)
| LogError (e : error)
| LogHex (b : bytes).

(** Each constructor is one call to the outside, indexed by what it returns.
    [NewClient] carries the index of the goroutine that makes the call;
    [AwaitResponse] is the blocking [reflect.Select] over the response
    channels registered with the subclients: [None] when no response ever
    arrives, [Some None] when a channel is found closed. *)
Inductive Call : Type -> Type :=
| NewClient (i : Z) (identifier : string) : Call (error + Client)
| ClientSend (c : Client) (dests : list string) (payload : option Payload)
    (encrypted : bool) (maxHoldingSeconds : list Z) : Call (option error)
| ClientSetResponseChannel (c : Client) (pid : string) : Call unit
| ClientClose (c : Client) : Call unit
| AwaitResponse (pid : string) (slots : list (option Client))
    : Call (option (option Message))
| NcpNewSession (localAddr remoteAddr : string) (sessionID : bytes)
    (clientIDs : list string) (config : SessionConfig)
    : Call (error + Session)
| SessionReceiveWith (s : Session) (localClientID remoteClientID : string)
    (data : bytes) : Call (option error)
| SessionDial (s : Session) : Call (option error)
| SessionAccept (s : Session) : Call (option error)
| SessionClose (s : Session) : Call (option error)
| RandomBytes (n : Z) : Call (error + bytes)
| MergoMerge (dst src : SessionConfig) : Call (error + SessionConfig)
| LogPrintln (args : list LogArg) : Call unit.

Inductive Event : Type :=
| Ev {R : Type} (c : Call R) (r : R).

(** The history lists the events oldest first. *)
Definition History : Type := list Event.

(** The environment answers a call from the history so far. *)
Definition Env : Type := forall R : Type, History -> Call R -> R.

(** How a Go function call ends. *)
Inductive Result (A : Type) : Type :=
| Done (a : A)
| Panic (text : string)
| Blocked.

Arguments Done {A} a.
Arguments Panic {A} text.
Arguments Blocked {A}.

(** Computations: read and extend the history. *)
Definition M (A : Type) : Type := History -> Result A * History.

Definition ret {A} (a : A) : M A := fun h => (Done a, h).

Definition bind {A B} (x : M A) (f : A -> M B) : M B :=
  fun h =>
    match x h with
    | (Done a, h') => f a h'
    | (Panic t, h') => (Panic t, h')
    | (Blocked, h') => (Blocked, h')
    end.

Definition panic {A} (text : string) : M A := fun h => (Panic text, h).
Definition block {A} : M A := fun h => (Blocked, h).

Definition call (env : Env) {R} (c : Call R) : M R :=
  fun h => let r := env R h c in (Done r, h ++ [Ev c r]).

Declare Scope go_scope.
Delimit Scope go_scope with go.
Notation "x <- c1 ;; c2" := (bind c1 (fun x => c2))
  (at level 100, c1 at next level, right associativity) : go_scope.
Notation "c1 ;;; c2" := (bind c1 (fun _ => c2))
  (at level 100, right associativity) : go_scope.

Local Open Scope go_scope.

(* ===================================================================== *)
(** * The MultiClient                                                     *)
(* ===================================================================== *)

(** [MultiClient] (multiclient.go, lines 28-43).  [addr] and [Address]
    hold the same text and are one field here.  [OnMessage] lists the
    messages sent on the channel, oldest first: a full channel delays the
    router, it never loses a message, so the capacity plays no part.
    [acceptSession] is the content of the channel of capacity 128.
    [onClose] is [true] once the channel has been closed.  [msgCache] is
    the cache [c] that the router goroutine of [NewMultiClient] captures.
    [OnConnect] is left out: nothing below concerns connect readiness. *)
Record MultiClient : Type := mkMultiClient {
  config : ClientConfig;
  offset : Z;
  Clients : gmap Z Client;
  DefaultClient : option Client;
  Address : string;
  OnMessage : list Message;
  acceptSession : list Session;
  onClose : bool;
  sessions : gmap string Session;
  isClosed : bool;
  msgCache : GoCache.Cache
}.

Definition setSessions (v : gmap string Session) (m : MultiClient) : MultiClient :=
  {| config := config m; offset := offset m; Clients := Clients m;
     DefaultClient := DefaultClient m; Address := Address m;
     OnMessage := OnMessage m; acceptSession := acceptSession m;
     onClose := onClose m; sessions := v; isClosed := isClosed m;
     msgCache := msgCache m |}.

Definition setAcceptSession (v : list Session) (m : MultiClient) : MultiClient :=
  {| config := config m; offset := offset m; Clients := Clients m;
     DefaultClient := DefaultClient m; Address := Address m;
     OnMessage := OnMessage m; acceptSession := v;
     onClose := onClose m; sessions := sessions m; isClosed := isClosed m;
     msgCache := msgCache m |}.

Definition setOnMessage (v : list Message) (m : MultiClient) : MultiClient :=
  {| config := config m; offset := offset m; Clients := Clients m;
     DefaultClient := DefaultClient m; Address := Address m;
     OnMessage := v; acceptSession := acceptSession m;
     onClose := onClose m; sessions := sessions m; isClosed := isClosed m;
     msgCache := msgCache m |}.

Definition setMsgCache (v : GoCache.Cache) (m : MultiClient) : MultiClient :=
  {| config := config m; offset := offset m; Clients := Clients m;
     DefaultClient := DefaultClient m; Address := Address m;
     OnMessage := OnMessage m; acceptSession := acceptSession m;
     onClose := onClose m; sessions := sessions m; isClosed := isClosed m;
     msgCache := v |}.

(** [m.isClosed = true; close(m.onClose)] once the channel is known open. *)
Definition setClosed (m : MultiClient) : MultiClient :=
  {| config := config m; offset := offset m; Clients := Clients m;
     DefaultClient := DefaultClient m; Address := Address m;
     OnMessage := OnMessage m; acceptSession := acceptSession m;
     onClose := true; sessions := sessions m; isClosed := true;
     msgCache := msgCache m |}.

(** A [range] over a Go map visits every key once, in an order the
    runtime picks. *)
Definition RangeOrder {V} (m : gmap Z V) (order : list Z) : Prop :=
  order ≡ₚ (map_to_list m).*1.

Section MultiClient.

(** The environment, and the pure helpers that multiclient.go and
    message.go call but that are declared in files not at hand:
    [MergedClientConfig], [processDest], [sessionKey] and the constant
    [MessageIDSize] of this package, [MakeAddressString] of the nkn address
    utilities. *)
Variable env : Env.
Variable MergedClientConfig : list ClientConfig -> error + ClientConfig.
Variable MakeAddressString : bytes -> string -> string.
Variable processDest : list string -> Z -> list string.
Variable sessionKey : string -> bytes -> string.
Variable MessageIDSize : Z.

(* --------------------------------------------------------------------- *)
(** ** message.go                                                         *)
(* --------------------------------------------------------------------- *)

(** [newBinaryPayload] (message.go, lines 69-85). *)
Definition newBinaryPayload (data messageId replyToId : bytes) (noReply : bool)
  : M (error + Payload) :=
  r <- (if Nat.eqb (length messageId) 0 && Nat.eqb (length replyToId) 0
        then call env (RandomBytes MessageIDSize)
        else ret (inr messageId)) ;;
  match r with
  | inl err => ret (inl err)
  | inr messageId' =>
      ret (inr {| Type_ := BINARY; MessageId := messageId'; Data_ := data;
                  ReplyToId := replyToId; NoReply := noReply |})
  end.

(** [newAckPayload] (message.go, lines 110-115). *)
Definition newAckPayload (replyToId : bytes) : error + Payload :=
  inr {| Type_ := ACK; MessageId := []; Data_ := [];
         ReplyToId := replyToId; NoReply := false |}.

(** multiclient.go calls [newBinaryPayload(data, id)] with two arguments
    where message.go declares four.  The two-argument call is read the way
    message.go's own [newReplyPayload] (line 131) and [newMessagePayload]
    (line 120) make it: no message id is passed, the second argument is the
    id replied to, and [noReply] is false. *)
Definition newBinaryPayload_2 (data replyToId : bytes) : M (error + Payload) :=
  newBinaryPayload data [] replyToId false.

(* --------------------------------------------------------------------- *)
(** ** Construction                                                       *)
(* --------------------------------------------------------------------- *)

(** The goroutines of lines 63-77, joined by [wg.Wait()]: one per index,
    each writing its own key of [clients] under the lock.  [indices] is
    the order in which the scheduler lets them run. *)
Fixpoint createClients (baseIdentifier : string) (indices : list Z)
    (clients : gmap Z Client) (success : bool) : M (gmap Z Client * bool) :=
  match indices with
  | [] => ret (clients, success)
  | i :: rest =>
      r <- call env (NewClient i (addIdentifier baseIdentifier i)) ;;
      match r with
      | inl err =>
          call env (LogPrintln [LogError err]) ;;;
          createClients baseIdentifier rest clients success
      | inr client =>
          createClients baseIdentifier rest (<[i := client]> clients) true
      end
  end.

(** The indices of the loop [for i := -offset; i < numSubClients; i++]. *)
Definition clientIndices (numSubClients offset : Z) : list Z :=
  seqZ (- offset) (numSubClients + offset).

(** [NewMultiClient] (lines 45-182).  [account] is the encoded public key
    of the account; [schedule] is the order in which the goroutines that
    construct the subclients run, a permutation of [clientIndices]. *)
Definition NewMultiClient (schedule : list Z) (account : bytes)
    (baseIdentifier : string) (numSubClients : Z) (originalClient : bool)
    (configs : list ClientConfig) : M (error + MultiClient) :=
  match MergedClientConfig configs with
  | inl err => ret (inl err)
  | inr cfg =>
      let offset := if originalClient then 1 else 0 in
      cs <- createClients baseIdentifier schedule ∅ false ;;
      let clients := cs.1 in
      let success := cs.2 in
      if negb success
      then ret (inl (ErrorsNew "failed to create any client"))
      else
        let defaultClient :=
          if originalClient then clients !! (-1) else clients !! 0 in
        let addr := MakeAddressString account baseIdentifier in
        if MsgChanLen cfg <? 0
        then panic "makechan: size out of range"
        else
          ret (inr {| config := cfg; offset := offset; Clients := clients;
                      DefaultClient := defaultClient; Address := addr;
                      OnMessage := []; acceptSession := [];
                      onClose := false; sessions := ∅; isClosed := false;
                      msgCache := GoCache.New (MsgCacheExpiration cfg)
                                              (MsgCacheExpiration cfg) |})
  end.

(* --------------------------------------------------------------------- *)
(** ** Fan-out                                                            *)
(* --------------------------------------------------------------------- *)

(** [sendWithClient] (lines 201-204).  A missing key yields the nil
    client, whose [send] dereferences it. *)
Definition sendWithClient (clientID : Z) (dests : list string)
    (payload : option Payload) (encrypted : bool) (hold : list Z)
    (m : MultiClient) : M (option error) :=
  match Clients m !! clientID with
  | None => panic "invalid memory address or nil pointer dereference"
  | Some c =>
      call env (ClientSend c (processDest dests clientID) payload encrypted hold)
  end.

(** [send] (lines 234-241); [order] is the order of the [range]. *)
Fixpoint send (order : list Z) (dests : list string)
    (payload : option Payload) (encrypted : bool) (hold : list Z)
    (m : MultiClient) : M (option error) :=
  match order with
  | [] => ret None
  | clientID :: rest =>
      e <- sendWithClient clientID dests payload encrypted hold m ;;
      match e with
      | Some err => ret (Some err)
      | None => send rest dests payload encrypted hold m
      end
  end.

(** The loop of [Send] (lines 214-221).  [slots] is the slice
    [responseChannels]: a slot holds the subclient whose channel was
    stored there. *)
Fixpoint SendLoop (order : list Z) (dests : list string) (payload : Payload)
    (encrypted : bool) (hold : list Z) (m : MultiClient)
    (slots : list (option Client)) : M (error + list (option Client)) :=
  match order with
  | [] => ret (inr slots)
  | clientID :: rest =>
      let idx := clientID + offset m in
      if (idx <? 0) || (Z.of_nat (length slots) <=? idx)
      then panic "index out of range"
      else
        match Clients m !! clientID with
        | None => panic "invalid memory address or nil pointer dereference"
        | Some c =>
            let slots' := <[Z.to_nat idx := Some c]> slots in
            call env (ClientSetResponseChannel c
                        (string_of_list_byte (MessageId payload))) ;;;
            e <- sendWithClient clientID dests (Some payload) encrypted hold m ;;
            match e with
            | Some err => ret (inl err)
            | None => SendLoop rest dests payload encrypted hold m slots'
            end
        end
  end.

(** [Send] (lines 206-232). *)
Definition Send (order : list Z) (dests : list string) (data : bytes)
    (encrypted : bool) (hold : list Z) (m : MultiClient)
  : M (error + Message) :=
  r <- newBinaryPayload_2 data [] ;;
  match r with
  | inl err => ret (inl err)
  | inr payload =>
      let responseChannels := replicate (size (Clients m)) None in
      r <- SendLoop order dests payload encrypted hold m responseChannels ;;
      match r with
      | inl err => ret (inl err)
      | inr slots =>
          v <- call env (AwaitResponse
                           (string_of_list_byte (MessageId payload)) slots) ;;
          match v with
          | None => block
          | Some (Some msg) =>
              ret (inr (setSrc (removeIdentifier (Src msg)).1 msg))
          | Some None =>
              ret (inl (ErrorsNew "error reading response channel"))
          end
      end
  end.

(** [SendWithClient] (lines 184-199).  A receive from the one response
    channel, which nothing closes, yields a message or blocks. *)
Definition SendWithClient (clientID : Z) (dests : list string) (data : bytes)
    (encrypted : bool) (hold : list Z) (m : MultiClient)
  : M (error + Message) :=
  r <- newBinaryPayload_2 data [] ;;
  match r with
  | inl err => ret (inl err)
  | inr payload =>
      match Clients m !! clientID with
      | None => panic "invalid memory address or nil pointer dereference"
      | Some c =>
          call env (ClientSetResponseChannel c
                      (string_of_list_byte (MessageId payload))) ;;;
          e <- sendWithClient clientID dests (Some payload) encrypted hold m ;;
          match e with
          | Some err => ret (inl err)
          | None =>
              v <- call env (AwaitResponse
                               (string_of_list_byte (MessageId payload))
                               [Some c]) ;;
              match v with
              | Some (Some msg) =>
                  ret (inr (setSrc (removeIdentifier (Src msg)).1 msg))
              | _ => block
              end
          end
      end
  end.

(** The closure assigned to [msg.Reply] (lines 159-174), called on the
    message it was attached to.  [response] is [None] for a nil slice. *)
Definition invokeReply (order : list Z) (msg : Message)
    (response : option bytes) (m : MultiClient) : M unit :=
  let pid := Pid msg in
  r <- match response with
       | None => ret (newAckPayload pid)
       | Some resp => newBinaryPayload_2 resp pid
       end ;;
  payload <- match r with
             | inl _ =>
                 call env (LogPrintln
                   [LogText "Problem creating response to PID "; LogHex pid]) ;;;
                 ret None
             | inr p => ret (Some p)
             end ;;
  e <- send order [Src msg] payload (Encrypted msg) [] m ;;
  match e with
  | Some _ =>
      call env (LogPrintln
        [LogText "Problem sending response to PID "; LogHex pid])
  | None => ret tt
  end.

(* --------------------------------------------------------------------- *)
(** ** Sessions                                                           *)
(* --------------------------------------------------------------------- *)

(** [newSession] (lines 243-278): the local client ids, sorted, and the
    call of [ncp.NewSession].  The write callback handed to the session is
    run by the session library; it is [sessionWrite] below. *)
Definition newSession (remoteAddr : string) (sessionID : bytes)
    (cfg : SessionConfig) (m : MultiClient) : M (error + Session) :=
  let clientIDs :=
    merge_sort String.le
      ((λ id, addIdentifier "" id) <$> (map_to_list (Clients m)).*1) in
  call env (NcpNewSession (Address m) remoteAddr sessionID clientIDs cfg).

(** [handleSessionMsg] (lines 280-314). *)
Definition handleSessionMsg (localClientID src : string)
    (sessionID data : bytes) (m : MultiClient)
  : M (MultiClient * option error) :=
  let remoteAddr := (removeIdentifier src).1 in
  let remoteClientID := (removeIdentifier src).2 in
  let key := sessionKey remoteAddr sessionID in
  match sessions m !! key with
  | None =>
      r <- newSession remoteAddr sessionID (SessionConfig_ (config m)) m ;;
      match r with
      | inl err => ret (m, Some err)
      | inr session =>
          let m1 := setSessions (<[key := session]> (sessions m)) m in
          e <- call env (SessionReceiveWith session localClientID
                           remoteClientID data) ;;
          match e with
          | Some err => ret (m1, Some err)
          | None =>
              if (length (acceptSession m1) <? 128)%nat
              then ret (setAcceptSession (acceptSession m1 ++ [session]) m1, None)
              else
                call env (LogPrintln
                  [LogText "Accept session channel full, discard request..."]) ;;;
                ret (m1, None)
          end
      end
  | Some session =>
      e <- call env (SessionReceiveWith session localClientID
                       remoteClientID data) ;;
      ret (m, e)
  end.

(** [DialWithConfig] (lines 324-354); [cfg] is [None] for a nil pointer. *)
Definition DialWithConfig (remoteAddr : string) (cfg : option SessionConfig)
    (m : MultiClient) : M (MultiClient * (error + Session)) :=
  r <- match cfg with
       | Some c => call env (MergoMerge (SessionConfig_ (config m)) c)
       | None => ret (inr (SessionConfig_ (config m)))
       end ;;
  match r with
  | inl err => ret (m, inl err)
  | inr merged =>
      r <- call env (RandomBytes SessionIDSize) ;;
      match r with
      | inl err => ret (m, inl err)
      | inr sessionID =>
          let key := sessionKey remoteAddr sessionID in
          r <- newSession remoteAddr sessionID merged m ;;
          match r with
          | inl err => ret (m, inl err)
          | inr session =>
              let m1 := setSessions (<[key := session]> (sessions m)) m in
              e <- call env (SessionDial session) ;;
              match e with
              | Some err => ret (m1, inl err)
              | None => ret (m1, inr session)
              end
          end
      end
  end.

(** [Dial] (lines 320-322). *)
Definition Dial (remoteAddr : string) (m : MultiClient)
  : M (MultiClient * (error + Session)) :=
  DialWithConfig remoteAddr None m.

(** The loop of [AcceptSession] (lines 357-371) on the content [queue] of
    the accept channel.  When a session is queued and the shutdown channel
    is closed, both cases of the [select] are ready and the runtime picks
    one: [pick k] tells whether iteration [k] takes the queue.  Nothing is
    ever sent on [onClose], so its case is ready only once it is closed. *)
Fixpoint acceptLoop (pick : nat -> bool) (k : nat) (queue : list Session)
    (closed : bool) : M (list Session * (error + Session)) :=
  match queue with
  | [] => if closed then ret ([], inl NcpClosed) else block
  | session :: rest =>
      if closed && negb (pick k)
      then ret (queue, inl NcpClosed)
      else
        e <- call env (SessionAccept session) ;;
        match e with
        | Some err =>
            call env (LogPrintln [LogError err]) ;;;
            acceptLoop pick (S k) rest closed
        | None => ret (rest, inr session)
        end
  end.

(** [AcceptSession] (lines 356-372); [Accept] (lines 374-376) is the same
    function behind the [net.Conn] interface. *)
Definition AcceptSession (pick : nat -> bool) (m : MultiClient)
  : M (MultiClient * (error + Session)) :=
  r <- acceptLoop pick 0 (acceptSession m) (onClose m) ;;
  ret (setAcceptSession r.1 m, r.2).

Definition Accept (pick : nat -> bool) (m : MultiClient)
  : M (MultiClient * (error + Session)) :=
  AcceptSession pick m.

(* --------------------------------------------------------------------- *)
(** ** Close                                                              *)
(* --------------------------------------------------------------------- *)

Fixpoint closeSessions (ss : list Session) : M unit :=
  match ss with
  | [] => ret tt
  | session :: rest =>
      e <- call env (SessionClose session) ;;
      match e with
      | Some err =>
          call env (LogPrintln [LogError err]) ;;; closeSessions rest
      | None => closeSessions rest
      end
  end.

Fixpoint closeClients (cs : list Client) : M unit :=
  match cs with
  | [] => ret tt
  | client :: rest => call env (ClientClose client) ;;; closeClients rest
  end.

(** [Close] (lines 378-403), under the lock of the MultiClient;
    [sessionOrder] and [clientOrder] are the orders of the two [range]s. *)
Definition Close (sessionOrder : list string) (clientOrder : list Z)
    (m : MultiClient) : M (MultiClient * option error) :=
  if isClosed m
  then ret (m, None)
  else
    closeSessions (omap (λ k, sessions m !! k) sessionOrder) ;;;
    closeClients (omap (λ k, Clients m !! k) clientOrder) ;;;
    if onClose m
    then panic "close of closed channel"
    else ret (setClosed m, None).

(** [IsClosed] (lines 405-409). *)
Definition IsClosed (m : MultiClient) : bool := isClosed m.

(* --------------------------------------------------------------------- *)
(** ** Fan-in router                                                      *)
(* --------------------------------------------------------------------- *)

(** The body of the router loop once [reflect.Select] has delivered [msg]
    from case [i] (lines 142-176); [now] is the time read by the cache. *)
Definition routerHandle (now i : Z) (msg : Message) (m : MultiClient)
  : M MultiClient :=
  if IsSession msg
  then
    r <- handleSessionMsg (addIdentifier "" (i - offset m)) (Src msg)
           (Pid msg) (Data msg) m ;;
    match r.2 with
    | Some err =>
        (if error_eqb err NcpSessionClosed
         then ret tt
         else call env (LogPrintln [LogError err])) ;;;
        ret r.1
    | None => ret r.1
    end
  else
    let cacheKey := string_of_list_byte (Pid msg) in
    if GoCache.Get now cacheKey (msgCache m)
    then ret m
    else
      let c := GoCache.Set_ now cacheKey (msgCache m) in
      let msg1 := setSrc (removeIdentifier (Src msg)).1 msg in
      let msg2 := setReply RouterReply msg1 in
      ret (setOnMessage (OnMessage m ++ [msg2]) (setMsgCache c m)).

(** What happens while the router goroutine runs: [reflect.Select]
    delivers a message from case [i], or reports a closed channel, or the
    janitor of the cache runs between two iterations. *)
Inductive RouterEvent : Type :=
| Inbound (now i : Z) (msg : Message)
| ChannelClosed
| JanitorRun (now : Z).

Definition janitor (now : Z) (m : MultiClient) : MultiClient :=
  setMsgCache (GoCache.DeleteExpired now (msgCache m)) m.

(** The router goroutine (lines 124-179) over the events of a run: the
    shutdown check, then the receive. *)
Fixpoint router (events : list RouterEvent) (m : MultiClient) : M MultiClient :=
  match events with
  | [] => ret m
  | JanitorRun now :: rest => router rest (janitor now m)
  | ev :: rest =>
      if onClose m
      then ret m
      else
        match ev with
        | Inbound now i msg =>
            m' <- routerHandle now i msg m ;; router rest m'
        | _ => router rest m
        end
  end.

(* --------------------------------------------------------------------- *)
(** ** Operations on a MultiClient, as one step function                  *)
(* --------------------------------------------------------------------- *)

(** One operation on the MultiClient with what the runtime decides for it.
    [OpHandle] is a router iteration that passed its shutdown check before
    the MultiClient was closed and receives its message afterwards. *)
Inductive Op : Type :=
| OpRouter (events : list RouterEvent)
| OpHandle (now i : Z) (msg : Message)
| OpSend (order : list Z) (dests : list string) (data : bytes)
    (encrypted : bool) (hold : list Z)
| OpSendWithClient (clientID : Z) (dests : list string) (data : bytes)
    (encrypted : bool) (hold : list Z)
| OpReply (order : list Z) (msg : Message) (response : option bytes)
| OpDial (remoteAddr : string) (cfg : option SessionConfig)
| OpAccept (pick : nat -> bool)
| OpClose (sessionOrder : list string) (clientOrder : list Z)
| OpIsClosed.

(** The MultiClient an operation leaves behind.  An operation that
    panics or blocks leaves it as it found it, except that a blocked
    [Accept] has emptied the accept queue. *)
Definition stateOf {A} (fallback : MultiClient) (proj : A -> MultiClient)
    (r : Result A * History) : MultiClient * History :=
  match r.1 with
  | Done a => (proj a, r.2)
  | _ => (fallback, r.2)
  end.

Definition exec (op : Op) (st : MultiClient * History) : MultiClient * History :=
  let m := st.1 in
  let h := st.2 in
  match op with
  | OpRouter events => stateOf m id (router events m h)
  | OpHandle now i msg => stateOf m id (routerHandle now i msg m h)
  | OpSend order dests data encrypted hold =>
      stateOf m (λ _, m) (Send order dests data encrypted hold m h)
  | OpSendWithClient clientID dests data encrypted hold =>
      stateOf m (λ _, m) (SendWithClient clientID dests data encrypted hold m h)
  | OpReply order msg response =>
      stateOf m (λ _, m) (invokeReply order msg response m h)
  | OpDial remoteAddr cfg => stateOf m fst (DialWithConfig remoteAddr cfg m h)
  | OpAccept pick =>
      stateOf (setAcceptSession [] m) fst (AcceptSession pick m h)
  | OpClose sessionOrder clientOrder =>
      stateOf m fst (Close sessionOrder clientOrder m h)
  | OpIsClosed => (m, h)
  end.

Definition execs (ops : list Op) (st : MultiClient * History)
  : MultiClient * History :=
  foldl (λ s op, exec op s) st ops.

End MultiClient.

(* ===================================================================== *)
(** * Reading the history                                                 *)
(* ===================================================================== *)

(** The subclient construction recorded by an event: index and outcome. *)
Definition constructionOf (ev : Event) : option (Z * (error + Client)) :=
  match ev with
  | Ev c r =>
      match c in Call R return R -> option (Z * (error + Client)) with
      | NewClient i _ => fun r => Some (i, r)
      | _ => fun _ => None
      end r
  end.

Definition constructions (h : History) : list (Z * (error + Client)) :=
  omap constructionOf h.

(** Outcome of a recorded subclient construction. *)
Definition succeeded (x : Z * (error + Client)) : Prop := exists c, x.2 = inr c.
Definition failed (x : Z * (error + Client)) : Prop := exists e, x.2 = inl e.




(** The session handshake recorded by an event: session and outcome. *)
Definition dialOf (ev : Event) : option (Session * option error) :=
  match ev with
  | Ev c r =>
      match c in Call R return R -> option (Session * option error) with
      | SessionDial s => fun r => Some (s, r)
      | _ => fun _ => None
      end r
  end.

(** The response received by an event. *)
Definition responseOf (ev : Event) : option Message :=
  match ev with
  | Ev c r =>
      match c in Call R return R -> option Message with
      | AwaitResponse _ _ => fun r => r ≫= id
      | _ => fun _ => None
      end r
  end.

(** The session closed by an event. *)
Definition closedSessionOf (ev : Event) : option Session :=
  match ev with
  | Ev c _ =>
      match c with
      | SessionClose s => Some s
      | _ => None
      end
  end.

(** The source the application sees for a message received with source
    [raw]. *)
Definition observedSrc (raw : string) : string := (removeIdentifier raw).1.

(** The call of subclient [clientID]'s [send] made by [sendWithClient],
    with its outcome [r]; nothing for a missing subclient. *)
Definition sendEvent (processDest : list string -> Z -> list string)
    (m : MultiClient) (dests : list string) (payload : option Payload)
    (encrypted : bool) (hold : list Z) (clientID : Z) (r : option error)
  : list Event :=
  match Clients m !! clientID with
  | Some c =>
      [Ev (ClientSend c (processDest dests clientID) payload encrypted hold) r]
  | None => []
  end.


(* ===================================================================== *)
(** * A concrete environment                                              *)
(* ===================================================================== *)

Module Sample.

(** Subclient [i] gets the handle [100 + i] unless [failNew i]; a send via
    subclient [c] fails when [failSend c]; a new session gets the length of
    the history as its handle; the handshake fails when [failDial]; a
    session accepts unless it was closed before. *)
Definition env (failNew : Z -> bool) (failSend : Client -> bool)
    (failDial : bool) : Env :=
  fun R h c =>
    match c in Call R return R with
    | NewClient i _ =>
        if failNew i then inl (ExternalError i) else inr (100 + i)
    | ClientSend cl _ _ _ _ =>
        if failSend cl then Some (ExternalError cl) else None
    | ClientSetResponseChannel _ _ => tt
    | ClientClose _ => tt
    | AwaitResponse _ slots =>
        match omap id slots with
        | cl :: _ =>
            Some (Some {| Src := addIdentifier "bob.pk" (cl - 100);
                          Data := []; Encrypted := true; Pid := [];
                          IsSession := false; Reply := None |})
        | [] => None
        end
    | NcpNewSession _ _ _ _ _ => inr (Z.of_nat (length h))
    | SessionReceiveWith _ _ _ _ => None
    | SessionDial _ => if failDial then Some (ExternalError 7) else None
    | SessionAccept s =>
        if bool_decide (s ∈ omap closedSessionOf h) then Some NcpClosed else None
    | SessionClose _ => None
    | RandomBytes n => inr (replicate (Z.to_nat n) Byte.x2a)
    | MergoMerge dst src => inr (src ++ dst)
    | LogPrintln _ => tt
    end.

Definition clientConfig : ClientConfig :=
  {| MsgChanLen := 1024; MsgCacheExpiration := 300; SessionConfig_ := [] |}.

Definition MergedClientConfig (configs : list ClientConfig)
  : error + ClientConfig := inr clientConfig.

Definition MakeAddressString (account : bytes) (identifier : string) : string :=
  identifier +:+ ".pk".

Definition processDest (dests : list string) (clientID : Z) : list string :=
  (λ d, addIdentifier d clientID) <$> dests.

Definition sessionKey (remoteAddr : string) (sessionID : bytes) : string :=
  remoteAddr +:+ ":" +:+ string_of_list_byte sessionID.

(** A MultiClient with the original client and subclients 0 and 1. *)
Definition multiclient : MultiClient :=
  {| config := clientConfig; offset := 1;
     Clients := {[ -1 := 99; 0 := 100; 1 := 101 ]};
     DefaultClient := Some 99; Address := "alice.pk";
     OnMessage := []; acceptSession := []; onClose := false;
     sessions := ∅; isClosed := false;
     msgCache := GoCache.New 300 300 |}.

(** An application message from subclient 0 of a peer. *)
Definition message : Message :=
  {| Src := "__0__.bob.pk"; Data := []; Encrypted := true;
     Pid := [Byte.x01]; IsSession := false; Reply := None |}.

(** The environment in which nothing fails. *)
Definition quietEnv : Env := env (λ _, false) (λ _, false) false.

(** The first session segment of a peer. *)
Definition segment : Message :=
  {| Src := "__0__.bob.pk"; Data := [Byte.x00]; Encrypted := true;
     Pid := [Byte.x07]; IsSession := true; Reply := None |}.

(** [multiclient] is closed while its router waits for a message; the
    router then handles [segment]. *)
Definition closedThenSegment : MultiClient * History :=
  execs quietEnv processDest sessionKey 8
    [OpClose [] [-1; 1; 0]; OpHandle 10 1 segment] (multiclient, []).

End Sample.

(** [m'] differs from [m] in nothing the application channel, the cache
    or the shutdown depend on. *)
Definition sameFrame (m m' : MultiClient) : Prop :=
  OnMessage m' = OnMessage m /\ msgCache m' = msgCache m
  /\ onClose m' = onClose m /\ isClosed m' = isClosed m.

(** What the router sends on [OnMessage] for an inbound [msg] (lines
    158-175): the source without its tag, the reply closure attached. *)
Definition published (msg : Message) : Message :=
  setReply RouterReply (setSrc (removeIdentifier (Src msg)).1 msg).

(** [ev] delivers an application (non-session) message with identifier
    [p]. *)
Definition arrivalOf (p : bytes) (ev : RouterEvent) : Prop :=
  match ev with
  | Inbound _ _ msg => IsSession msg = false /\ Pid msg = p
  | _ => False
  end.

(** [now] is within the time to live [d] of an entry set at [t0]; a
    cache whose default expiration is not positive keeps entries for
    ever. *)
Definition withinTTL (d t0 now : Z) : Prop := d <= 0 \/ now <= t0 + d.

(** The deliveries of [p] and the janitor runs of [ev] happen within the
    time to live of an entry set at [t0]. *)
Definition eventWithinTTL (d t0 : Z) (p : bytes) (ev : RouterEvent) : Prop :=
  match ev with
  | Inbound now _ msg =>
      IsSession msg = false -> Pid msg = p -> withinTTL d t0 now
  | ChannelClosed => True
  | JanitorRun now => withinTTL d t0 now
  end.


(** The router state as far as the identifier [p] is concerned: running,
    with default expiration [d], and the cache entry of [p] is [o]. *)
Definition tracks (p : bytes) (d : Z) (o : option Z) (m : MultiClient) : Prop :=
  onClose m = false
  /\ GoCache.items (msgCache m) !! string_of_list_byte p = o
  /\ GoCache.defaultExpiration (msgCache m) = d.

(** [ev] does not publish [p] in a state where the entry of [p] is [o],
    and does not remove that entry. *)
Definition quiet (p : bytes) (o : option Z) (ev : RouterEvent) : Prop :=
  match ev with
  | Inbound now _ msg =>
      IsSession msg = false -> Pid msg = p ->
      exists e, o = Some e /\ GoCache.expired now e = false
  | ChannelClosed => True
  | JanitorRun now => forall e, o = Some e -> GoCache.expired now e = false
  end.

(* ===================================================================== *)
(** * More of the history                                                 *)
(* ===================================================================== *)

(** The passive handshake recorded by an event: session and outcome. *)
Definition acceptOf (ev : Event) : option (Session * option error) :=
  match ev with
  | Ev c r =>
      match c in Call R return R -> option (Session * option error) with
      | SessionAccept s => fun r => Some (s, r)
      | _ => fun _ => None
      end r
  end.

(** The subclient closed by an event. *)
Definition closedClientOf (ev : Event) : option Client :=
  match ev with
  | Ev c _ =>
      match c with
      | ClientClose cl => Some cl
      | _ => None
      end
  end.

(** The session constructed by an event: the client ids and the
    configuration given to [ncp.NewSession]. *)
Definition newSessionOf (ev : Event) : option (list string * SessionConfig) :=
  match ev with
  | Ev c _ =>
      match c with
      | NcpNewSession _ _ _ clientIDs cfg => Some (clientIDs, cfg)
      | _ => None
      end
  end.

(** An operation other than [Close]. *)
Definition notClose (op : Op) : Prop :=
  match op with
  | OpClose _ _ => False
  | _ => True
  end.

(** Every subclient of the range [-offset .. n-1] was constructed. *)
Definition fullyConstructed (m : MultiClient) : Prop :=
  exists n, forall k, is_Some (Clients m !! k) <-> - offset m <= k < n.

(* ===================================================================== *)
(** * message.go, the other payload constructors                          *)
(* ===================================================================== *)

(** The [interface{}] argument of [newMessagePayload] and
    [newReplyPayload], by the cases of their type switches: a byte slice, a
    string, the nil interface, a value of any other type. *)
Inductive PayloadData : Type :=
| DataBytes (v : bytes)
| DataString (v : string)
| DataNil
| DataOther.

Section MessageGo.

(** [protoMarshalText] is [proto.Marshal(&payloads.TextData{Text: text})];
    [ErrInvalidPayloadType] is declared in a file not at hand. *)
Variable env : Env.
Variable MessageIDSize : Z.
Variable protoMarshalText : string -> error + bytes.
Variable ErrInvalidPayloadType : error.

(** [newTextPayload] (message.go, lines 87-108). *)
Definition newTextPayload (text : string) (messageId replyToId : bytes)
    (noReply : bool) : M (error + Payload) :=
  r <- (if Nat.eqb (length messageId) 0 && Nat.eqb (length replyToId) 0
        then call env (RandomBytes MessageIDSize)
        else ret (inr messageId)) ;;
  match r with
  | inl err => ret (inl err)
  | inr messageId' =>
      match protoMarshalText text with
      | inl err => ret (inl err)
      | inr data =>
          ret (inr {| Type_ := TEXT; MessageId := messageId'; Data_ := data;
                      ReplyToId := replyToId; NoReply := noReply |})
      end
  end.

(** [newMessagePayload] (message.go, lines 117-126). *)
Definition newMessagePayload (data : PayloadData) (messageId : bytes)
    (noReply : bool) : M (error + Payload) :=
  match data with
  | DataBytes v => newBinaryPayload env MessageIDSize v messageId [] noReply
  | DataString v => newTextPayload v messageId [] noReply
  | _ => ret (inl ErrInvalidPayloadType)
  end.

(** [newReplyPayload] (message.go, lines 128-139). *)
Definition newReplyPayload (data : PayloadData) (replyToId : bytes)
  : M (error + Payload) :=
  match data with
  | DataBytes v => newBinaryPayload env MessageIDSize v [] replyToId false
  | DataString v => newTextPayload v [] replyToId false
  | DataNil => ret (newAckPayload replyToId)
  | DataOther => ret (inl ErrInvalidPayloadType)
  end.

End MessageGo.

(* ===================================================================== *)
(** * message.go, encrypt and decrypt                                     *)
(* ===================================================================== *)

(** [nonceSize] and [sharedKeySize] (message.go, lines 12-15). *)
Definition nonceSize : Z := 24.
Definition sharedKeySize : Z := 32.

(** [make([]byte, n)]: [n] zero bytes; a negative length panics. *)
Definition makeBytes (n : Z) : Result bytes :=
  if n <? 0
  then Panic "makeslice: len out of range"
  else Done (replicate (Z.to_nat n) Byte.x00).

(** What a slice [buf] holds after [append(buf[:0], data...)]: the append
    writes into the array of [buf] when [data] fits its capacity, and into
    a new array, leaving [buf] as it was, when it does not. *)
Definition appendInPlace (buf data : bytes) : bytes :=
  if (length data <=? length buf)%nat
  then data ++ drop (length data) buf
  else buf.

Section Box.

(** The NaCl box, golang.org/x/crypto/nacl/box: [Overhead] is
    [box.Overhead]; [seal message nonce key] is what
    [SealAfterPrecomputation] appends to its [out] argument; [open box
    nonce key] is what [OpenAfterPrecomputation] appends, or [None] when
    the box does not authenticate. *)
Variable Overhead : Z.
Variable seal : bytes -> bytes -> bytes -> bytes.
Variable open : bytes -> bytes -> bytes -> option bytes.

(** [encrypt] (message.go, lines 49-57).  [readNonce] is the outcome of
    [rand.Read(nonce[:])]: an error, or the [nonceSize] bytes it left in
    the array. *)
Definition encrypt (readNonce : error + bytes) (message sharedKey : bytes)
  : Result (error + bytes * bytes) :=
  match makeBytes (Z.of_nat (length message) + Overhead) with
  | Done encrypted =>
      match readNonce with
      | inl err => Done (inl err)
      | inr nonce =>
          Done (inr (appendInPlace encrypted (seal message nonce sharedKey),
                     nonce))
      end
  | Panic t => Panic t
  | Blocked => Blocked
  end.

(** [decrypt] (message.go, lines 59-67). *)
Definition decrypt (message nonce sharedKey : bytes) : Result (error + bytes) :=
  match makeBytes (Z.of_nat (length message) - Overhead) with
  | Done decrypted =>
      match open message nonce sharedKey with
      | None => Done (inl (ErrorsNew "decrypt message failed"))
      | Some plain => Done (inr (appendInPlace decrypted plain))
      end
  | Panic t => Panic t
  | Blocked => Blocked
  end.

End Box.

(* ===================================================================== *)
(** * The write callback of a session                                     *)
(* ===================================================================== *)

(** [payloads.Payload] as the write callback fills it (multiclient.go,
    lines 253-258). *)
Record SegmentPayload : Type := mkSegmentPayload {
  segType : PayloadType;
  segPid : bytes;
  segData : bytes;
  segIsSession : bool
}.

(** The calls the write callback makes on a subclient.  The deadline is
    [None] for [zeroTime]. *)
Inductive WriteCall : Type :=
| SetWriteDeadline (c : Client) (deadline : option Z)
| SendSegment (c : Client) (dests : list string) (payload : SegmentPayload)
    (encrypted : bool) (maxHoldingSeconds : Z).

(** The calls made so far, oldest first, each with the error it returned. *)
Definition WriteHistory : Type := list (WriteCall * option error).
Definition WriteEnv : Type := WriteHistory -> WriteCall -> option error.

Definition writeCall (wenv : WriteEnv) (c : WriteCall) (wh : WriteHistory)
  : option error * WriteHistory :=
  (wenv wh c, wh ++ [(c, wenv wh c)]).

Section SessionWrite.

(** [addIdentifierPrefix] is declared in a file not at hand; [clients],
    [remoteAddr] and [sessionID] are the variables of [newSession] the
    closure captures; [now] is [time.Now()]. *)
Variable wenv : WriteEnv.
Variable addIdentifierPrefix : string -> string -> string.
Variable clients : gmap string Client.
Variable remoteAddr : string.
Variable sessionID : bytes.

(** The function literal given to [ncp.NewSession] (multiclient.go, lines
    252-277).  A client id that is no key of [clients] yields the nil
    client, whose methods dereference it. *)
Definition sessionWrite (now : Z) (localClientID remoteClientID : string)
    (buf : bytes) (writeTimeout : Z) (wh : WriteHistory)
  : Result (option error) * WriteHistory :=
  let payload := {| segType := BINARY; segPid := sessionID; segData := buf;
                    segIsSession := true |} in
  match clients !! localClientID with
  | None => (Panic "invalid memory address or nil pointer dereference", wh)
  | Some c =>
      let afterSet :=
        if 0 <? writeTimeout
        then writeCall wenv (SetWriteDeadline c (Some (now + writeTimeout))) wh
        else (None, wh) in
      match afterSet with
      | (Some err, wh1) => (Done (Some err), wh1)
      | (None, wh1) =>
          match writeCall wenv
                  (SendSegment c
                     [addIdentifierPrefix remoteAddr remoteClientID]
                     payload true 0) wh1
          with
          | (Some err, wh2) => (Done (Some err), wh2)
          | (None, wh2) =>
              if 0 <? writeTimeout
              then
                match writeCall wenv (SetWriteDeadline c None) wh2 with
                | (Some err, wh3) => (Done (Some err), wh3)
                | (None, wh3) => (Done None, wh3)
                end
              else (Done None, wh2)
          end
      end
  end.

End SessionWrite.

(** The map [clients] that [newSession] builds for the write callback
    (multiclient.go, lines 245-250), the keys of [m.Clients] being visited
    in [order]. *)
Definition sessionClients (order : list Z) (m : MultiClient)
  : gmap string Client :=
  foldl (λ acc id,
           match Clients m !! id with
           | Some client => <[addIdentifier "" id := client]> acc
           | None => acc
           end) ∅ order.

(** The subclient a call of the write callback is made on. *)
Definition writeClient (c : WriteCall) : Client :=
  match c with
  | SetWriteDeadline cl _ => cl
  | SendSegment cl _ _ _ _ => cl
  end.

(* ===================================================================== *)
(** * More concrete environments                                          *)
(* ===================================================================== *)

Module Scenario.



End Scenario.

(** An operation other than a dial. *)
Definition notDial (op : Op) : Prop :=
  match op with
  | OpDial _ _ => False
  | _ => True
  end.

(** [m'] has the fields of [m] that are set at construction. *)
Definition sameFixed (m m' : MultiClient) : Prop :=
  config m' = config m /\ offset m' = offset m /\ Clients m' = Clients m
  /\ DefaultClient m' = DefaultClient m /\ Address m' = Address m.

(** What every operation keeps: the fields set at construction, the
    entries of the session table (a dial may replace one), the bound of
    the accept queue. *)
Definition keeps (dial : bool) (m m' : MultiClient) : Prop :=
  sameFixed m m'
  /\ dom (sessions m) ⊆ dom (sessions m')
  /\ (dial = false -> sessions m ⊆ sessions m')
  /\ ((length (acceptSession m) <= 128)%nat ->
      (length (acceptSession m') <= 128)%nat).

(** Whether an operation is a dial. *)
Definition isDial (op : Op) : bool :=
  match op with
  | OpDial _ _ => true
  | _ => false
  end.

(** What one round of the loop of [Send] (lines 215-218) calls for
    subclient [clientID]: the response channel is stored with the
    subclient under the identifier of the payload, then the payload is
    sent through it, with outcome [r]; nothing for a missing subclient. *)
Definition SendEvents (processDest : list string -> Z -> list string)
    (m : MultiClient) (dests : list string) (payload : Payload)
    (encrypted : bool) (hold : list Z) (clientID : Z) (r : option error)
  : list Event :=
  match Clients m !! clientID with
  | Some c =>
      [Ev (ClientSetResponseChannel c
             (string_of_list_byte (MessageId payload))) ();
       Ev (ClientSend c (processDest dests clientID) (Some payload)
             encrypted hold) r]
  | None => []
  end.

(* ===================================================================== *)
(** * Properties                                                          *)
(* ===================================================================== *)

(* --------------------------------------------------------------------- *)
(** ** The matcher decides the language                                   *)
(* --------------------------------------------------------------------- *)

Module RegexpFacts.
Import Regexp.

Lemma append_empty_inv (s1 s2 : string) :
  s1 +:+ s2 = EmptyString -> s1 = EmptyString /\ s2 = EmptyString.
Proof. destruct s1; simpl; [tauto | discriminate]. Qed.

Lemma nullable_Lang (r : regexp) : nullable r = true -> Lang r EmptyString.
Proof.
  induction r as [ | | p | r1 IH1 r2 IH2 | r1 IH1 r2 IH2 | r IH]; simpl; intros H;
    try discriminate.
  - constructor.
  - apply andb_true_iff in H as [H1 H2].
    change EmptyString with (EmptyString +:+ EmptyString).
    constructor; auto.
  - apply orb_true_iff in H as [H | H]; [apply LAltL | apply LAltR]; auto.
  - constructor.
Qed.

Lemma Lang_nullable (r : regexp) (s : string) :
  Lang r s -> s = EmptyString -> nullable r = true.
Proof.
  induction 1 as [ | p c Hp | r1 r2 s1 s2 _ IH1 _ IH2 | r1 r2 s _ IH
                 | r1 r2 s _ IH | r | r s1 s2 _ IH1 _ IH2]; intros E; simpl; auto.
  - discriminate.
  - apply append_empty_inv in E as [E1 E2]. rewrite IH1, IH2; auto.
  - rewrite IH; auto.
  - rewrite IH; auto using orb_true_r.
Qed.

Lemma deriv_Lang (r : regexp) :
  forall c s, Lang (deriv c r) s -> Lang r (String c s).
Proof.
  induction r as [ | | p | r1 IH1 r2 IH2 | r1 IH1 r2 IH2 | r IH];
    simpl; intros c s H.
  - inversion H.
  - inversion H.
  - destruct (p c) eqn:Hp; inversion H; subst. now constructor.
  - destruct (nullable r1) eqn:Hn.
    + inversion H as [ | | | ? ? ? H1 | ? ? ? H2 | | ]; subst.
      * inversion H1 as [ | | ? ? s1 s2 Ha Hb | | | | ]; subst.
        change (String c (s1 +:+ s2)) with (String c s1 +:+ s2).
        constructor; auto.
      * change (String c s) with (EmptyString +:+ String c s).
        constructor; auto using nullable_Lang.
    + inversion H as [ | | ? ? s1 s2 Ha Hb | | | | ]; subst.
      change (String c (s1 +:+ s2)) with (String c s1 +:+ s2).
      constructor; auto.
  - inversion H; subst; [apply LAltL | apply LAltR]; auto.
  - inversion H as [ | | ? ? s1 s2 Ha Hb | | | | ]; subst.
    change (String c (s1 +:+ s2)) with (String c s1 +:+ s2).
    constructor; auto.
Qed.

Lemma Lang_deriv (r : regexp) (w : string) :
  Lang r w -> forall c s, w = String c s -> Lang (deriv c r) s.
Proof.
  induction 1 as [ | p c' Hp | r1 r2 s1 s2 H1 IH1 H2 IH2 | r1 r2 s' _ IH
                 | r1 r2 s' _ IH | r | r s1 s2 H1 IH1 H2 IH2];
    intros c s E; simpl.
  - discriminate.
  - inversion E; subst. rewrite Hp. constructor.
  - destruct s1 as [ | c1 s1'].
    + simpl in E. rewrite (Lang_nullable _ _ H1 eq_refl).
      apply LAltR. eauto.
    + simpl in E. inversion E; subst.
      destruct (nullable r1); [apply LAltL | ]; constructor; eauto.
  - apply LAltL; eauto.
  - apply LAltR; eauto.
  - discriminate.
  - destruct s1 as [ | c1 s1'].
    + simpl in E. apply (IH2 c s E).
    + simpl in E. inversion E; subst. constructor; eauto.
Qed.

Lemma MatchString_Lang (r : regexp) (s : string) :
  MatchString r s = true <-> Lang r s.
Proof.
  revert r. induction s as [ | c s IH]; intros r; simpl.
  - split; [apply nullable_Lang | intros H; eapply Lang_nullable; eauto].
  - rewrite IH. split; [apply deriv_Lang | intros H; eapply Lang_deriv; eauto].
Qed.

End RegexpFacts.

(* --------------------------------------------------------------------- *)
(** ** Identifier codec                                                   *)
(* --------------------------------------------------------------------- *)

Module Codec.
Import Regexp RegexpFacts.

Lemma all_digits_uint (d : Decimal.uint) :
  all_digits (NilEmpty.string_of_uint d) = true.
Proof. induction d; simpl; auto. Qed.

Lemma Itoa_digits (n : Z) :
  0 <= n -> all_digits (Itoa n) = true /\ Itoa n <> EmptyString.
Proof.
  intros Hn. unfold Itoa. destruct n as [ | p | p]; [ | | lia].
  - split; [reflexivity | discriminate].
  - simpl. pose proof (all_digits_uint (Pos.to_uint p)) as H.
    unfold NilZero.string_of_uint.
    destruct (Pos.to_uint p); simpl in *; split; auto; discriminate.
Qed.

Lemma digit_not_dot (c : ascii) : is_digit c = true -> Ascii.eqb c "." = false.
Proof.
  intros H. destruct (Ascii.eqb_spec c "."); [subst; discriminate | reflexivity].
Qed.

Lemma all_digits_no_dot (s : string) : all_digits s = true -> no_dot s = true.
Proof.
  induction s as [ | c s IH]; simpl; [reflexivity | ].
  intros H. apply andb_true_iff in H as [Hc Hs].
  rewrite (digit_not_dot c Hc). simpl. auto.
Qed.

Lemma no_dot_append (s t : string) :
  no_dot (s +:+ t) = no_dot s && no_dot t.
Proof.
  induction s as [ | c s IH]; simpl; [reflexivity | ].
  rewrite IH. apply andb_assoc.
Qed.

Lemma splitFirstDot_append (seg rest : string) :
  no_dot seg = true ->
  splitFirstDot (seg +:+ String "." rest) = Some (seg, rest).
Proof.
  induction seg as [ | c seg IH]; simpl; [reflexivity | ].
  intros H. apply andb_true_iff in H as [Hc Hs].
  apply negb_true_iff in Hc. rewrite Hc, (IH Hs). reflexivity.
Qed.

Lemma Lang_digits (ds : string) :
  all_digits ds = true -> ds <> EmptyString -> Lang (Plus Digit) ds.
Proof.
  assert (Hstar : forall t, all_digits t = true -> Lang (Star Digit) t).
  { induction t as [ | c t IH]; simpl; intros H; [constructor | ].
    apply andb_true_iff in H as [Hc Ht].
    change (String c t) with (String c EmptyString +:+ t).
    constructor; [constructor; exact Hc | auto]. }
  destruct ds as [ | c t]; [congruence | ].
  simpl. intros H _. apply andb_true_iff in H as [Hc Ht].
  change (String c t) with (String c EmptyString +:+ t).
  constructor; [constructor; exact Hc | auto].
Qed.

(** A tag [__ds__] with [ds] a non-empty string of digits matches
    [identifierRe]. *)
Lemma tag_matches (ds : string) :
  all_digits ds = true -> ds <> EmptyString ->
  MatchString identifierRe ("__" +:+ ds +:+ "__") = true.
Proof.
  intros Hd Hne. apply MatchString_Lang. unfold identifierRe.
  change ("__" +:+ ds +:+ "__") with ("_" +:+ "_" +:+ (ds +:+ "_" +:+ "_")).
  constructor; [constructor; reflexivity | ].
  constructor; [constructor; reflexivity | ].
  constructor; [apply Lang_digits; assumption | ].
  constructor; constructor; reflexivity.
Qed.

Lemma append_assoc (a b c : string) : (a +:+ b) +:+ c = a +:+ (b +:+ c).
Proof.
  induction a as [ | x a IH]; [reflexivity | ].
  change (String x ((a +:+ b) +:+ c) = String x (a +:+ (b +:+ c))).
  f_equal. exact IH.
Qed.

Lemma removeIdentifier_tagged (ds base : string) :
  all_digits ds = true -> ds <> EmptyString ->
  removeIdentifier ("__" +:+ ds +:+ "__." +:+ base)
  = (base, "__" +:+ ds +:+ "__").
Proof.
  intros Hd Hne. unfold removeIdentifier.
  assert (E : "__" +:+ ds +:+ "__." +:+ base
              = ("__" +:+ ds +:+ "__") +:+ String "." base).
  { rewrite !append_assoc. reflexivity. }
  rewrite E, splitFirstDot_append.
  - rewrite tag_matches by assumption. reflexivity.
  - rewrite !no_dot_append, (all_digits_no_dot _ Hd). reflexivity.
Qed.

Lemma removeIdentifier_untagged (a : string) :
  hasTagPrefix a = false -> removeIdentifier a = (a, EmptyString).
Proof.
  unfold hasTagPrefix, removeIdentifier.
  destruct (splitFirstDot a) as [[seg rest] | ]; [ | reflexivity].
  intros ->. reflexivity.
Qed.

End Codec.

(** C2, as stated, fails for the original client ([n = -1]) on an address
    that itself begins with a tag: [addIdentifier] returns it unchanged
    and [removeIdentifier] then removes that tag. *)
Lemma removeIdentifier_addIdentifier_original_tagged :
  addIdentifier "__0__.x" (-1) = "__0__.x" /\
  removeIdentifier (addIdentifier "__0__.x" (-1)) = ("x", "__0__") /\
  removeIdentifier (addIdentifier "__0__.x" (-1)) <> ("__0__.x", EmptyString).
Proof. repeat split. discriminate. Qed.

(** C2 (amended): for every address [a] and every [n >= 0],
    [removeIdentifier (addIdentifier a n) = (a, "__n__")]; for [n = -1],
    [addIdentifier] returns [a] unchanged and
    [removeIdentifier (addIdentifier a (-1)) = (a, "")] provided [a] does
    not itself begin with a tag. *)
Theorem removeIdentifier_addIdentifier (a : string) (n : Z) :
  -1 <= n ->
  (n = -1 -> hasTagPrefix a = false) ->
  removeIdentifier (addIdentifier a n)
  = (a, if n =? -1 then EmptyString else "__" +:+ Itoa n +:+ "__")
  /\ addIdentifier a (-1) = a.
Proof.
  intros Hn Ha. split; [ | reflexivity].
  unfold addIdentifier. destruct (Z.eqb_spec n (-1)) as [-> | Hne].
  - apply Codec.removeIdentifier_untagged. auto.
  - destruct (Codec.Itoa_digits n) as [Hd Hnz]; [lia | ].
    apply Codec.removeIdentifier_tagged; assumption.
Qed.

Lemma removeIdentifier_addIdentifier_witness :
  removeIdentifier (addIdentifier "abc.pk" 12) = ("abc.pk", "__12__")
  /\ removeIdentifier (addIdentifier "abc.pk" (-1)) = ("abc.pk", EmptyString).
Proof.
  split.
  - apply (removeIdentifier_addIdentifier "abc.pk" 12); [lia | discriminate].
  - apply (removeIdentifier_addIdentifier "abc.pk" (-1)); [lia | reflexivity].
Defined.

(* --------------------------------------------------------------------- *)
(** ** The message cache                                                  *)
(* --------------------------------------------------------------------- *)

Module CacheFacts.
Import GoCache.

Lemma key_inj (a b : bytes) :
  string_of_list_byte a = string_of_list_byte b -> a = b.
Proof.
  intros E. rewrite <- (list_byte_of_string_of_list_byte a),
    <- (list_byte_of_string_of_list_byte b). now rewrite E.
Qed.

Lemma Get_None now k c : items c !! k = None -> Get now k c = false.
Proof. unfold Get. now intros ->. Qed.

Lemma Get_Some now k c e :
  items c !! k = Some e -> Get now k c = negb (expired now e).
Proof. unfold Get. now intros ->. Qed.

Lemma items_Set_same now k c :
  items (Set_ now k c) !! k
  = Some (if 0 <? defaultExpiration c then now + defaultExpiration c else 0).
Proof. unfold Set_; simpl. apply lookup_insert_eq. Qed.

Lemma items_Set_other now k k' c :
  k <> k' -> items (Set_ now k' c) !! k = items c !! k.
Proof. intros Hne. unfold Set_; simpl. apply lookup_insert_ne. congruence. Qed.

(** An entry is found at the instant it is set. *)
Lemma Get_Set now k c : Get now k (Set_ now k c) = true.
Proof.
  rewrite (Get_Some _ _ _ _ (items_Set_same now k c)). unfold expired.
  destruct (Z.ltb_spec 0 (defaultExpiration c)).
  - apply negb_true_iff, andb_false_iff. right. apply Z.ltb_ge. lia.
  - reflexivity.
Qed.

Lemma items_DeleteExpired now k c o :
  items c !! k = o ->
  (forall e, o = Some e -> expired now e = false) ->
  items (DeleteExpired now c) !! k = o.
Proof.
  intros Hk He. unfold DeleteExpired; simpl.
  destruct o as [e | ].
  - apply map_lookup_filter_Some. split; [exact Hk | simpl; auto].
  - apply map_lookup_filter_None. left. exact Hk.
Qed.

(** Within the time to live, the entry set at [t0] has not expired. *)
Lemma withinTTL_not_expired d t0 now :
  withinTTL d t0 now ->
  expired now (if 0 <? d then t0 + d else 0) = false.
Proof.
  unfold withinTTL, expired. intros H.
  destruct (Z.ltb_spec 0 d); [ | reflexivity].
  apply andb_false_iff. right. apply Z.ltb_ge. lia.
Qed.

End CacheFacts.

(* --------------------------------------------------------------------- *)
(** ** Fan-in router                                                      *)
(* --------------------------------------------------------------------- *)

Section RouterFacts.

Variable env : Env.
Variable sessionKey : string -> bytes -> string.


(** Handling a session segment returns, and touches neither the
    application channel, nor the cache, nor the closed state. *)
Lemma handleSessionMsg_frame localID src sid data m h :
  exists m' e h',
    handleSessionMsg env sessionKey localID src sid data m h = (Done (m', e), h')
    /\ sameFrame m m'.
Proof.
  unfold handleSessionMsg, newSession, bind, call, ret, sameFrame.
  destruct (sessions m !! _); simpl.
  - eauto 10.
  - destruct (env _ h _) as [err | session]; simpl; [eauto 10 | ].
    destruct (env _ _ (SessionReceiveWith _ _ _ _)) as [err | ]; simpl;
      [eauto 10 | ].
    destruct (_ <? _)%nat; simpl; eauto 10.
Qed.

Lemma routerHandle_session now i msg m h :
  IsSession msg = true ->
  exists m' h', routerHandle env sessionKey now i msg m h = (Done m', h') /\ sameFrame m m'.
Proof.
  intros Hs. unfold routerHandle. rewrite Hs.
  destruct (handleSessionMsg_frame (addIdentifier "" (i - offset m)) (Src msg)
              (Pid msg) (Data msg) m h) as (m' & e & h' & E & F).
  unfold bind at 1. rewrite E. simpl.
  destruct e as [err | ]; [ | unfold ret; eauto].
  unfold bind, call, ret.
  destruct (error_eqb err NcpSessionClosed); simpl; eauto.
Qed.

(** An application message is dropped when the cache has its identifier,
    and otherwise recorded and sent on [OnMessage]. *)
Lemma routerHandle_app now i msg m h :
  IsSession msg = false ->
  routerHandle env sessionKey now i msg m h
  = (Done (if GoCache.Get now (string_of_list_byte (Pid msg)) (msgCache m)
           then m
           else setOnMessage (OnMessage m ++ [published msg])
                  (setMsgCache
                     (GoCache.Set_ now (string_of_list_byte (Pid msg))
                        (msgCache m)) m)), h).
Proof.
  intros Hs. unfold routerHandle. rewrite Hs.
  destruct (GoCache.Get _ _ _); reflexivity.
Qed.

Section OneIdentifier.

Variable p : bytes.
Variable d : Z.

Lemma router_quiet_step o ev m h :
  tracks p d o m -> quiet p o ev ->
  exists m1 h1 out,
    (forall rest, router env sessionKey (ev :: rest) m h = router env sessionKey rest m1 h1)
    /\ tracks p d o m1
    /\ OnMessage m1 = OnMessage m ++ out
    /\ filter (λ x, Pid x = p) out = [].
Proof.
  intros (Hc & Hk & Hd) Hq. destruct ev as [now i msg | | now]; simpl in *.
  - rewrite Hc. destruct (IsSession msg) eqn:Hs.
    + destruct (routerHandle_session now i msg m h Hs)
        as (m1 & h1 & E & F1 & F2 & F3 & F4).
      exists m1, h1, []. repeat split.
      * intros rest. unfold bind. now rewrite E.
      * congruence.
      * congruence.
      * congruence.
      * rewrite F1, app_nil_r. reflexivity.
    + pose proof (routerHandle_app now i msg m h Hs) as E.
      destruct (decide (Pid msg = p)) as [Hp | Hp].
      * destruct (Hq eq_refl Hp) as (e & -> & He).
        rewrite Hp, (CacheFacts.Get_Some _ _ _ _ Hk), He in E. simpl in E.
        exists m, h, []. repeat split; auto.
        -- intros rest. unfold bind. now rewrite E.
        -- now rewrite app_nil_r.
      * assert (Hne : string_of_list_byte p <> string_of_list_byte (Pid msg)).
        { intros C. apply CacheFacts.key_inj in C. congruence. }
        destruct (GoCache.Get now (string_of_list_byte (Pid msg)) (msgCache m)).
        -- exists m, h, []. repeat split; auto.
           ++ intros rest. unfold bind. now rewrite E.
           ++ now rewrite app_nil_r.
        -- eexists _, h, [published msg]. repeat split.
           ++ intros rest. unfold bind. rewrite E. reflexivity.
           ++ exact Hc.
           ++ simpl. rewrite lookup_insert_ne by congruence. exact Hk.
           ++ exact Hd.
           ++ reflexivity.
           ++ rewrite filter_cons_False by exact Hp. reflexivity.
  - exists m, h, []. repeat split; auto.
    + intros rest. now rewrite Hc.
    + now rewrite app_nil_r.
  - exists (janitor now m), h, []. repeat split; auto.
    + simpl. apply CacheFacts.items_DeleteExpired; assumption.
    + simpl. now rewrite app_nil_r.
Qed.

Lemma router_quiet o events tail :
  forall m h,
    tracks p d o m -> Forall (quiet p o) events ->
    exists m' h' out,
      router env sessionKey (events ++ tail) m h
      = router env sessionKey tail m' h'
      /\ tracks p d o m'
      /\ OnMessage m' = OnMessage m ++ out
      /\ filter (λ x, Pid x = p) out = [].
Proof.
  induction events as [ | ev rest IH]; intros m h Ht Hq.
  - exists m, h, []. simpl. rewrite app_nil_r. auto.
  - apply Forall_cons in Hq as [Hev Hrest].
    destruct (router_quiet_step o ev m h Ht Hev)
      as (m1 & h1 & out1 & E & Ht1 & Ho1 & Hf1).
    destruct (IH m1 h1 Ht1 Hrest) as (m' & h' & out & E' & Ht' & Ho & Hf).
    exists m', h', (out1 ++ out). repeat split; try apply Ht'.
    + rewrite <- app_comm_cons, E. exact E'.
    + rewrite Ho, Ho1, app_assoc. reflexivity.
    + rewrite filter_app, Hf1, Hf. reflexivity.
Qed.

End OneIdentifier.

End RouterFacts.

(** C1: an inbound application message is dropped when the cache has its
    identifier and is otherwise recorded in the cache and sent on
    [OnMessage]; hence, when a message with identifier [p] first arrives at
    [t0] and its later copies (on any subclient) arrive within the time to
    live of the cache, the router returns and has sent exactly one message
    with identifier [p] on [OnMessage]: the first copy. *)
Theorem router_delivers_once (env : Env) (sessionKey : string -> bytes -> string)
    (p : bytes) (pre post : list RouterEvent) (t0 i0 : Z) (msg0 : Message)
    (m : MultiClient) (h : History) :
  onClose m = false ->
  GoCache.items (msgCache m) !! string_of_list_byte p = None ->
  IsSession msg0 = false ->
  Pid msg0 = p ->
  Forall (λ ev, ~ arrivalOf p ev) pre ->
  Forall (eventWithinTTL (GoCache.defaultExpiration (msgCache m)) t0 p) post ->
  (forall now i msg m1 h1,
      IsSession msg = false ->
      let key := string_of_list_byte (Pid msg) in
      (GoCache.Get now key (msgCache m1) = true ->
       routerHandle env sessionKey now i msg m1 h1 = (Done m1, h1))
      /\ (GoCache.Get now key (msgCache m1) = false ->
          exists m2,
            routerHandle env sessionKey now i msg m1 h1 = (Done m2, h1)
            /\ OnMessage m2 = OnMessage m1 ++ [published msg]
            /\ GoCache.Get now key (msgCache m2) = true))
  /\ exists m' h' out,
      router env sessionKey (pre ++ Inbound t0 i0 msg0 :: post) m h
      = (Done m', h')
      /\ OnMessage m' = OnMessage m ++ out
      /\ filter (λ x, Pid x = p) out = [published msg0].
Proof.
  intros Hc Hk Hs Hp Hpre Hpost. split.
  - intros now i msg m1 h1 Hs1 key.
    pose proof (routerHandle_app env sessionKey now i msg m1 h1 Hs1) as E.
    fold key in E. split; intros HG; rewrite HG in E; [exact E | ].
    eexists. split; [exact E | ]. split; [reflexivity | ].
    simpl. apply CacheFacts.Get_Set.
  - set (d := GoCache.defaultExpiration (msgCache m)) in *.
    set (e := if 0 <? d then t0 + d else 0).
    assert (Hq1 : Forall (quiet p None) pre).
    { eapply Forall_impl; [exact Hpre | ]. intros [now i msg | | now] Hn; simpl.
      - intros A B. exfalso. apply Hn. simpl. auto.
      - exact I.
      - discriminate. }
    assert (Hq2 : Forall (quiet p (Some e)) post).
    { eapply Forall_impl; [exact Hpost | ]. intros [now i msg | | now] Hw; simpl.
      - intros A B. exists e. split; [reflexivity | ].
        apply CacheFacts.withinTTL_not_expired. auto.
      - exact I.
      - intros e' [= <-]. apply CacheFacts.withinTTL_not_expired. exact Hw. }
    destruct (router_quiet env sessionKey p d None pre
                (Inbound t0 i0 msg0 :: post) m h)
      as (m1 & h1 & out1 & E1 & (Hc1 & Hk1 & Hd1) & Ho1 & Hf1);
      [repeat split; auto | exact Hq1 | ].
    pose proof (routerHandle_app env sessionKey t0 i0 msg0 m1 h1 Hs) as E2.
    rewrite Hp, (CacheFacts.Get_None _ _ _ Hk1) in E2.
    set (m2 := setOnMessage _ _) in E2.
    destruct (router_quiet env sessionKey p d (Some e) post [] m2 h1)
      as (m3 & h3 & out3 & E3 & _ & Ho3 & Hf3); [ | exact Hq2 | ].
    { repeat split; [exact Hc1 | | exact Hd1].
      subst m2 e. simpl. rewrite lookup_insert_eq, Hd1. reflexivity. }
    exists m3, h3, (out1 ++ published msg0 :: out3). repeat split.
    + rewrite E1. simpl. rewrite Hc1. unfold bind at 1. rewrite E2.
      rewrite app_nil_r in E3. exact E3.
    + rewrite Ho3. subst m2. simpl. rewrite Ho1, <- !app_assoc. reflexivity.
    + rewrite filter_app, Hf1. simpl.
      rewrite filter_cons_True by exact Hp. rewrite Hf3. reflexivity.
Qed.

Lemma router_delivers_once_witness :
  exists m' h' out,
    router Sample.quietEnv Sample.sessionKey
      ([] ++ Inbound 10 1 Sample.message
          :: [Inbound 11 0 Sample.message; JanitorRun 12;
              Inbound 13 2 Sample.message; Inbound 310 1 Sample.message])
      Sample.multiclient []
    = (Done m', h')
    /\ OnMessage m' = OnMessage Sample.multiclient ++ out
    /\ filter (λ x, Pid x = [Byte.x01]) out = [published Sample.message].
Proof.
  apply (router_delivers_once Sample.quietEnv Sample.sessionKey
           [Byte.x01] [] _ 10 1 Sample.message Sample.multiclient []).
  - reflexivity.
  - reflexivity.
  - reflexivity.
  - reflexivity.
  - constructor.
  - repeat constructor; simpl; unfold withinTTL; simpl; intros; lia.
Defined.

(* --------------------------------------------------------------------- *)
(** ** Computations                                                       *)
(* --------------------------------------------------------------------- *)

Lemma bind_Done {A B} (x : M A) (f : A -> M B) h b h' :
  bind x f h = (Done b, h') ->
  exists a h1, x h = (Done a, h1) /\ f a h1 = (Done b, h').
Proof.
  unfold bind. destruct (x h) as [[a | t | ] h1]; intros E;
    [eauto | discriminate | discriminate].
Qed.

Lemma RangeOrder_present {V} (m : gmap Z V) (order : list Z) :
  RangeOrder m order -> Forall (λ k, is_Some (m !! k)) order.
Proof.
  intros HR. apply Forall_forall. intros k Hk.
  unfold RangeOrder in HR. rewrite HR in Hk.
  apply list_elem_of_fmap in Hk as ([k' v] & -> & Hin).
  apply elem_of_map_to_list in Hin. simpl. eauto.
Qed.

(* --------------------------------------------------------------------- *)
(** ** Fan-out                                                            *)
(* --------------------------------------------------------------------- *)

Section SendFacts.

Variable env : Env.
Variable processDest : list string -> Z -> list string.

Lemma sendWithClient_present clientID c dests payload encrypted hold m h :
  Clients m !! clientID = Some c ->
  exists r,
    sendWithClient env processDest clientID dests payload encrypted hold m h
    = (Done r, h ++ sendEvent processDest m dests payload encrypted hold
                      clientID r).
Proof.
  intros Hc. unfold sendWithClient, sendEvent, call. rewrite Hc. eauto.
Qed.

Lemma send_present order dests payload encrypted hold m :
  Forall (λ k, is_Some (Clients m !! k)) order ->
  forall h,
    send env processDest order dests payload encrypted hold m h
    = (Done None,
       h ++ (order ≫= λ k,
               sendEvent processDest m dests payload encrypted hold k None))
    \/ exists pre k post err,
        order = pre ++ k :: post
        /\ send env processDest order dests payload encrypted hold m h
           = (Done (Some err),
              h ++ (pre ≫= λ k',
                      sendEvent processDest m dests payload encrypted hold
                        k' None)
                ++ sendEvent processDest m dests payload encrypted hold k
                     (Some err)).
Proof.
  induction order as [ | k rest IH]; intros Hp h.
  - left. simpl. unfold ret. now rewrite app_nil_r.
  - apply Forall_cons in Hp as [[c Hc] Hrest].
    destruct (sendWithClient_present k c dests payload encrypted hold m h Hc)
      as (r & E).
    assert (Es : send env processDest (k :: rest) dests payload encrypted hold
                   m h
                 = match r with
                   | Some err =>
                       (Done (Some err),
                        h ++ sendEvent processDest m dests payload encrypted
                               hold k r)
                   | None =>
                       send env processDest rest dests payload encrypted hold m
                         (h ++ sendEvent processDest m dests payload encrypted
                                 hold k r)
                   end).
    { simpl. unfold bind. rewrite E. destruct r; reflexivity. }
    rewrite Es. clear Es E. destruct r as [err | ].
    + right. exists [], k, rest, err. split; [reflexivity | ]. reflexivity.
    + destruct (IH Hrest
                  (h ++ sendEvent processDest m dests payload encrypted hold
                          k None)) as [E' | (pre & k' & post & err & -> & E')].
      * left. rewrite E', bind_cons, app_assoc. reflexivity.
      * right. exists (k :: pre), k', post, err. split; [reflexivity | ].
        rewrite E', bind_cons, <- !app_assoc. reflexivity.
Qed.

End SendFacts.

(** C6: the internal broadcast [send] calls the send of the subclients one
    after the other in the order of its [range]; when all of them succeed
    every known subclient has been sent to and the result is [nil];
    otherwise the result is the error of the first send that fails, and no
    subclient after that one has been sent to. *)
Theorem send_first_error (env : Env)
    (processDest : list string -> Z -> list string)
    (order : list Z) (dests : list string) (payload : option Payload)
    (encrypted : bool) (hold : list Z) (m : MultiClient) (h : History) :
  RangeOrder (Clients m) order ->
  send env processDest order dests payload encrypted hold m h
  = (Done None,
     h ++ (order ≫= λ k,
             sendEvent processDest m dests payload encrypted hold k None))
  \/ exists pre k post err,
      order = pre ++ k :: post
      /\ send env processDest order dests payload encrypted hold m h
         = (Done (Some err),
            h ++ (pre ≫= λ k',
                    sendEvent processDest m dests payload encrypted hold
                      k' None)
              ++ sendEvent processDest m dests payload encrypted hold k
                   (Some err)).
Proof.
  intros HR. apply send_present. apply RangeOrder_present. exact HR.
Qed.

Lemma send_first_error_witness :
  RangeOrder (Clients Sample.multiclient) [-1; 1; 0]
  /\ exists pre k post err,
      [-1; 1; 0] = pre ++ k :: post
      /\ send (Sample.env (λ _, false) (λ c, c =? 101) false)
           Sample.processDest [-1; 1; 0] ["bob.pk"] None true []
           Sample.multiclient []
         = (Done (Some err),
            [] ++ (pre ≫= λ k',
                     sendEvent Sample.processDest Sample.multiclient
                       ["bob.pk"] None true [] k' None)
               ++ sendEvent Sample.processDest Sample.multiclient
                    ["bob.pk"] None true [] k (Some err)).
Proof.
  assert (HR : RangeOrder (Clients Sample.multiclient) [-1; 1; 0])
    by (vm_compute; reflexivity).
  split; [exact HR | ].
  destruct (send_first_error (Sample.env (λ _, false) (λ c, c =? 101) false)
              Sample.processDest [-1; 1; 0] ["bob.pk"] None true []
              Sample.multiclient [] HR) as [E | E].
  - vm_compute in E. discriminate E.
  - exact E.
Defined.

(* --------------------------------------------------------------------- *)
(** ** Reply                                                              *)
(* --------------------------------------------------------------------- *)

Section ReplyFacts.

Variable env : Env.
Variable processDest : list string -> Z -> list string.
Variable MessageIDSize : Z.



End ReplyFacts.




(* --------------------------------------------------------------------- *)
(** ** The source seen by the application                                 *)
(* --------------------------------------------------------------------- *)

Section SrcFacts.

Variable env : Env.
Variable processDest : list string -> Z -> list string.
Variable sessionKey : string -> bytes -> string.
Variable MessageIDSize : Z.

Lemma routerHandle_Src now i msg m h m' h' :
  routerHandle env sessionKey now i msg m h = (Done m', h') ->
  exists out,
    OnMessage m' = OnMessage m ++ out
    /\ Forall (λ x, Src x = observedSrc (Src msg)) out.
Proof.
  intros E. destruct (IsSession msg) eqn:Hs.
  - destruct (routerHandle_session env sessionKey now i msg m h Hs)
      as (m1 & h1 & E1 & F & _).
    rewrite E1 in E. injection E as <- <-.
    exists []. rewrite F, app_nil_r. auto.
  - rewrite (routerHandle_app env sessionKey now i msg m h Hs) in E.
    injection E as <- <-.
    destruct (GoCache.Get _ _ _).
    + exists []. rewrite app_nil_r. auto.
    + exists [published msg]. split; [reflexivity | ].
      constructor; [reflexivity | constructor].
Qed.

Lemma Send_Src order dests data encrypted hold m h msg' h' :
  Send env processDest MessageIDSize order dests data encrypted hold m h
  = (Done (inr msg'), h') ->
  exists raw,
    last h' ≫= responseOf = Some raw
    /\ msg' = setSrc (observedSrc (Src raw)) raw.
Proof.
  unfold Send, newBinaryPayload_2, newBinaryPayload, bind, call, ret. simpl.
  destruct (env _ h (RandomBytes MessageIDSize)) as [err | id];
    [discriminate | ].
  destruct (SendLoop _ _ _ _ _ _ _ _ _ _) as [[[err | slots] | t | ] h1];
    try discriminate.
  destruct (env _ h1 _) as [[raw | ] | ]; try discriminate.
  intros [= <- <-]. exists raw. rewrite last_snoc. auto.
Qed.

Lemma SendWithClient_Src clientID dests data encrypted hold m h msg' h' :
  SendWithClient env processDest MessageIDSize clientID dests data encrypted
    hold m h = (Done (inr msg'), h') ->
  exists raw,
    last h' ≫= responseOf = Some raw
    /\ msg' = setSrc (observedSrc (Src raw)) raw.
Proof.
  unfold SendWithClient, sendWithClient, newBinaryPayload_2, newBinaryPayload,
    bind, call, ret. simpl.
  destruct (env _ h (RandomBytes MessageIDSize)) as [err | id];
    [discriminate | ].
  destruct (Clients m !! clientID) as [c | ]; [ | discriminate].
  destruct (env unit _ _).
  destruct (env _ _ (ClientSend _ _ _ _ _)) as [err | ]; [discriminate | ].
  destruct (env _ _ (AwaitResponse _ _)) as [[raw | ] | ];
    try discriminate.
  intros [= <- <-]. exists raw. rewrite last_snoc. auto.
Qed.

End SrcFacts.

Lemma observedSrc_tagged (raw : string) :
  hasTagPrefix (observedSrc raw) = true ->
  exists seg,
    Regexp.MatchString identifierRe seg = true
    /\ splitFirstDot raw = Some (seg, observedSrc raw).
Proof.
  unfold observedSrc, removeIdentifier.
  destruct (splitFirstDot raw) as [[seg rest] | ] eqn:Es.
  - destruct (Regexp.MatchString identifierRe seg) eqn:Em; simpl.
    + eauto.
    + unfold hasTagPrefix. rewrite Es, Em. discriminate.
  - simpl. unfold hasTagPrefix. rewrite Es. discriminate.
Qed.

(** C3, as stated, fails: only the first tag of a source is removed.  A
    message whose source begins with two tags is published with a source
    that still begins with a tag. *)
Lemma published_Src_still_tagged :
  exists m',
    routerHandle Sample.quietEnv Sample.sessionKey 10 1
      {| Src := "__1__.__2__.alice.pk"; Data := []; Encrypted := true;
         Pid := [Byte.x01]; IsSession := false; Reply := None |}
      Sample.multiclient []
    = (Done m', [])
    /\ Src <$> OnMessage m' = ["__2__.alice.pk"]
    /\ hasTagPrefix "__2__.alice.pk" = true.
Proof. eexists. repeat split. Qed.

(** C3 (amended): every message sent on [OnMessage], and every message
    returned by [Send] or [SendWithClient], has had [removeIdentifier]
    applied once to its source.  The source seen by the application begins
    with a tag only when the source received began with two tags, of which
    the first was removed; a source [addIdentifier a n] of an address [a]
    that does not begin with a tag is seen as [a]. *)
Theorem observed_Src_stripped (env : Env)
    (processDest : list string -> Z -> list string)
    (sessionKey : string -> bytes -> string) (MessageIDSize : Z) :
  (forall now i msg m h m' h',
      routerHandle env sessionKey now i msg m h = (Done m', h') ->
      exists out,
        OnMessage m' = OnMessage m ++ out
        /\ Forall (λ x, Src x = observedSrc (Src msg)) out)
  /\ (forall order dests data encrypted hold m h msg' h',
        Send env processDest MessageIDSize order dests data encrypted hold m h
        = (Done (inr msg'), h') ->
        exists raw,
          last h' ≫= responseOf = Some raw
          /\ msg' = setSrc (observedSrc (Src raw)) raw)
  /\ (forall clientID dests data encrypted hold m h msg' h',
        SendWithClient env processDest MessageIDSize clientID dests data
          encrypted hold m h = (Done (inr msg'), h') ->
        exists raw,
          last h' ≫= responseOf = Some raw
          /\ msg' = setSrc (observedSrc (Src raw)) raw)
  /\ (forall raw,
        hasTagPrefix (observedSrc raw) = true ->
        exists seg,
          Regexp.MatchString identifierRe seg = true
          /\ splitFirstDot raw = Some (seg, observedSrc raw))
  /\ (forall a n,
        -1 <= n -> hasTagPrefix a = false ->
        observedSrc (addIdentifier a n) = a
        /\ hasTagPrefix (observedSrc (addIdentifier a n)) = false).
Proof.
  split; [apply routerHandle_Src | ].
  split; [apply Send_Src | ].
  split; [apply SendWithClient_Src | ].
  split; [apply observedSrc_tagged | ].
  intros a n Hn Ha. unfold observedSrc.
  assert (E : (removeIdentifier (addIdentifier a n)).1 = a).
  { unfold addIdentifier. destruct (Z.eqb_spec n (-1)) as [-> | Hne].
    - now rewrite Codec.removeIdentifier_untagged.
    - destruct (Codec.Itoa_digits n) as [Hd Hnz]; [lia | ].
      now rewrite Codec.removeIdentifier_tagged. }
  rewrite E. auto.
Qed.

Lemma observed_Src_stripped_witness :
  (-1 <= 1 /\ hasTagPrefix "alice.pk" = false)
  /\ observedSrc (addIdentifier "alice.pk" 1) = "alice.pk"
  /\ hasTagPrefix (observedSrc (addIdentifier "alice.pk" 1)) = false.
Proof.
  split; [split; [lia | reflexivity] | ].
  apply (observed_Src_stripped Sample.quietEnv Sample.processDest
           Sample.sessionKey 8); [lia | reflexivity].
Defined.

(* --------------------------------------------------------------------- *)
(** ** Construction                                                       *)
(* --------------------------------------------------------------------- *)

Lemma constructions_cons_new i identifier r (h : History) :
  constructions (Ev (NewClient i identifier) r :: h) = (i, r) :: constructions h.
Proof. reflexivity. Qed.

Lemma constructions_cons_log args u (h : History) :
  constructions (Ev (LogPrintln args) u :: h) = constructions h.
Proof. reflexivity. Qed.


Section ConstructionFacts.

Variable env : Env.

(** The constructions made by [createClients]: one per index, in order;
    the map gains exactly the clients constructed. *)
Lemma createClients_spec baseIdentifier indices :
  NoDup indices ->
  forall clients success h,
  exists clients' success' evs,
    createClients env baseIdentifier indices clients success h
    = (Done (clients', success'), h ++ evs)
    /\ (constructions evs).*1 = indices
    /\ (success' = true <->
        success = true \/ Exists succeeded (constructions evs))
    /\ (forall i c, (i, inr c) ∈ constructions evs -> clients' !! i = Some c)
    /\ (forall i, (forall c, (i, inr c) ∉ constructions evs) ->
                  clients' !! i = clients !! i).
Proof.
  induction indices as [ | i rest IH]; intros Hnd clients success h.
  - exists clients, success, []. simpl. unfold ret. rewrite app_nil_r.
    repeat split; auto.
    + intros [H | H]; [exact H | inversion H].
    + intros i c H. inversion H.
  - apply NoDup_cons in Hnd as [Hni Hnd]. simpl.
    unfold bind at 1, call at 1.
    destruct (env _ h (NewClient i (addIdentifier baseIdentifier i)))
      as [err | client] eqn:Er.
    + unfold bind at 1, call at 1. destruct (env unit _ _).
      destruct (IH Hnd clients success
                  ((h ++ [Ev (NewClient i (addIdentifier baseIdentifier i))
                             (inl err)])
                   ++ [Ev (LogPrintln [LogError err]) ()]))
        as (clients' & success' & evs & E & Hidx & Hs & Hin & Hout).
      exists clients', success',
        (Ev (NewClient i (addIdentifier baseIdentifier i)) (inl err)
           :: Ev (LogPrintln [LogError err]) () :: evs).
      rewrite E, <- !app_assoc. split; [reflexivity | ].
      rewrite constructions_cons_new, constructions_cons_log, fmap_cons, Hidx.
      split; [reflexivity | ]. split; [ | split].
      * rewrite Hs, Exists_cons. unfold succeeded at 2. simpl.
        split; [tauto | ]. intros [H | [[c H] | H]]; [auto | discriminate | auto].
      * intros j c Hj. apply elem_of_cons in Hj as [[= _ ?] | Hj]; auto.
      * intros j Hj. apply Hout. intros c Hc. apply (Hj c).
        apply elem_of_cons. auto.
    + destruct (IH Hnd (<[i := client]> clients) true
                  (h ++ [Ev (NewClient i (addIdentifier baseIdentifier i))
                            (inr client)]))
        as (clients' & success' & evs & E & Hidx & Hs & Hin & Hout).
      exists clients', success',
        (Ev (NewClient i (addIdentifier baseIdentifier i)) (inr client) :: evs).
      rewrite E, <- !app_assoc. split; [reflexivity | ].
      rewrite constructions_cons_new, fmap_cons, Hidx.
      split; [reflexivity | ]. split; [ | split].
      * rewrite Hs, Exists_cons. unfold succeeded at 2. simpl.
        split; [intros _; right; left; eauto | intros _; auto].
      * intros j c Hj. apply elem_of_cons in Hj as [[= -> ->] | Hj]; auto.
        rewrite Hout; [apply lookup_insert_eq | ].
        intros c Hc. apply Hni. rewrite <- Hidx.
        apply list_elem_of_fmap. exists (i, inr c). auto.
      * intros j Hj. rewrite Hout.
        -- apply lookup_insert_ne. intros ->. apply (Hj client).
           apply elem_of_cons. auto.
        -- intros c Hc. apply (Hj c). apply elem_of_cons. auto.
Qed.

End ConstructionFacts.



(** C5 fails on the code.  With three subclients and no original client,
    where the constructions of indices 0 and 2 fail and that of index 1
    succeeds, [NewMultiClient] returns a MultiClient whose [Clients] map
    holds index 1 only; [DefaultClient], read from index 0, is nil; [Send]
    sizes its slice of response channels by the number of subclients
    present (one) and indexes it with the client id (one): it panics.  The
    internal [send] visits the one subclient present and returns [nil]. *)
Lemma partial_construction_DefaultClient_nil_Send_panics :
  match NewMultiClient
          (Sample.env (λ i, (i =? 0) || (i =? 2)) (λ _, false) false)
          Sample.MergedClientConfig Sample.MakeAddressString [0; 1; 2] []
          "alice" 3 false [] []
  with
  | (Done (inr m), h) =>
      map_to_list (Clients m) = [(1, 101)]
      /\ DefaultClient m = None
      /\ (Send (Sample.env (λ i, (i =? 0) || (i =? 2)) (λ _, false) false)
            Sample.processDest 8 [1] ["bob.pk"] [Byte.x68; Byte.x69] true []
            m h).1
         = Panic "index out of range"
      /\ (send (Sample.env (λ i, (i =? 0) || (i =? 2)) (λ _, false) false)
            Sample.processDest [1] ["bob.pk"] None true [] m h).1
         = Done None
  | _ => False
  end.
Proof. vm_compute. repeat split. Qed.

(* --------------------------------------------------------------------- *)
(** ** Close                                                              *)
(* --------------------------------------------------------------------- *)

Section CloseFacts.

Variable env : Env.

Lemma closeSessions_total ss :
  forall h, exists evs, closeSessions env ss h = (Done tt, h ++ evs).
Proof.
  induction ss as [ | s rest IH]; intros h; simpl.
  - exists []. unfold ret. now rewrite app_nil_r.
  - unfold bind at 1, call at 1.
    destruct (env _ h (SessionClose s)) as [err | ].
    + unfold bind at 1, call at 1. destruct (env unit _ _).
      destruct (IH ((h ++ [Ev (SessionClose s) (Some err)])
                    ++ [Ev (LogPrintln [LogError err]) ()])) as (evs & E).
      rewrite E. eexists. rewrite <- !app_assoc. reflexivity.
    + destruct (IH (h ++ [Ev (SessionClose s) None])) as (evs & E).
      rewrite E. eexists. rewrite <- !app_assoc. reflexivity.
Qed.

Lemma closeClients_total cs :
  forall h, exists evs, closeClients env cs h = (Done tt, h ++ evs).
Proof.
  induction cs as [ | c rest IH]; intros h; simpl.
  - exists []. unfold ret. now rewrite app_nil_r.
  - unfold bind at 1, call at 1. destruct (env unit _ _).
    destruct (IH (h ++ [Ev (ClientClose c) ()])) as (evs & E).
    rewrite E. eexists. rewrite <- !app_assoc. reflexivity.
Qed.

(** A [Close] that returns leaves the MultiClient closed. *)
Lemma Close_closed sessionOrder clientOrder m h m1 r h1 :
  Close env sessionOrder clientOrder m h = (Done (m1, r), h1) ->
  r = None /\ isClosed m1 = true /\ (isClosed m = onClose m -> onClose m1 = true).
Proof.
  unfold Close. destruct (isClosed m) eqn:Hc.
  - unfold ret. intros [= <- <- <-]. split; [reflexivity | ].
    split; [exact Hc | congruence].
  - unfold bind.
    destruct (closeSessions_total (omap (λ k, sessions m !! k) sessionOrder) h)
      as (evs1 & ->).
    destruct (closeClients_total (omap (λ k, Clients m !! k) clientOrder)
                (h ++ evs1)) as (evs2 & ->).
    destruct (onClose m); [discriminate | ].
    unfold ret. intros [= <- <- <-]. auto.
Qed.

Lemma Close_again sessionOrder clientOrder m h :
  isClosed m = true ->
  Close env sessionOrder clientOrder m h = (Done (m, None), h).
Proof. intros Hc. unfold Close. rewrite Hc. reflexivity. Qed.

End CloseFacts.

(* --------------------------------------------------------------------- *)
(** ** After Close                                                        *)
(* --------------------------------------------------------------------- *)

Section LifecycleFacts.

Variable env : Env.
Variable processDest : list string -> Z -> list string.
Variable sessionKey : string -> bytes -> string.
Variable MessageIDSize : Z.

Lemma routerHandle_flags now i msg m h m' h' :
  routerHandle env sessionKey now i msg m h = (Done m', h') ->
  isClosed m' = isClosed m /\ onClose m' = onClose m.
Proof.
  intros E. destruct (IsSession msg) eqn:Hs.
  - destruct (routerHandle_session env sessionKey now i msg m h Hs)
      as (m1 & h1 & E1 & _ & _ & F3 & F4).
    rewrite E1 in E. injection E as <- <-. auto.
  - rewrite (routerHandle_app env sessionKey now i msg m h Hs) in E.
    injection E as <- <-. destruct (GoCache.Get _ _ _); auto.
Qed.

Lemma router_flags events :
  forall m h m' h',
    router env sessionKey events m h = (Done m', h') ->
    isClosed m' = isClosed m /\ onClose m' = onClose m.
Proof.
  induction events as [ | ev rest IH]; intros m h m' h' E.
  - injection E as <- <-. auto.
  - destruct ev as [now i msg | | now]; simpl in E.
    + destruct (onClose m) eqn:Hc; [injection E as <- <-; auto | ].
      apply bind_Done in E as (m1 & h1 & E1 & E2).
      apply routerHandle_flags in E1 as [F1 F2].
      apply IH in E2 as [G1 G2]. split; congruence.
    + destruct (onClose m) eqn:Hc; [injection E as <- <-; auto | ].
      apply IH in E as [G1 G2]. split; congruence.
    + apply IH in E. exact E.
Qed.

Lemma DialWithConfig_flags remoteAddr cfg m h m' r h' :
  DialWithConfig env sessionKey remoteAddr cfg m h = (Done (m', r), h') ->
  isClosed m' = isClosed m /\ onClose m' = onClose m.
Proof.
  unfold DialWithConfig, newSession, bind, call, ret.
  destruct cfg as [c | ];
    [destruct (env _ h (MergoMerge _ _)) as [err | merged] | ];
    simpl;
    try (intros [= <- <- <-]; auto; fail);
    (destruct (env _ _ (RandomBytes SessionIDSize)) as [err | sid]; simpl;
     [intros [= <- <- <-]; auto | ]);
    (destruct (env _ _ (NcpNewSession _ _ _ _ _)) as [err | s]; simpl;
     [intros [= <- <- <-]; auto | ]);
    (destruct (env _ _ (SessionDial _)) as [err | ]; simpl;
     intros [= <- <- <-]; auto).
Qed.

(** With the shutdown channel closed, [AcceptSession] never blocks: it
    returns the closed sentinel or a session that was queued. *)
Lemma acceptLoop_closed pick queue :
  forall k h,
  exists q res h',
    acceptLoop env pick k queue true h = (Done (q, res), h')
    /\ (res = inl NcpClosed \/ exists s, res = inr s /\ s ∈ queue)
    /\ (queue = [] -> res = inl NcpClosed)
    /\ ((forall j, pick j = false) -> res = inl NcpClosed).
Proof.
  induction queue as [ | s rest IH]; intros k h; simpl.
  - exists [], (inl NcpClosed), h. unfold ret. auto.
  - destruct (pick k) eqn:Hp; simpl.
    + unfold bind at 1, call at 1.
      destruct (env _ h (SessionAccept s)) as [err | ].
      * unfold bind at 1, call at 1. destruct (env unit _ _).
        destruct (IH (S k) ((h ++ [Ev (SessionAccept s) (Some err)])
                            ++ [Ev (LogPrintln [LogError err]) ()]))
          as (q & res & h' & E & Hres & _ & Hnever).
        exists q, res, h'. split; [exact E | ]. split; [ | split].
        -- destruct Hres as [-> | (s' & -> & Hs')]; [auto | ].
           right. exists s'. split; [reflexivity | ].
           apply elem_of_cons. auto.
        -- discriminate.
        -- exact Hnever.
      * exists rest, (inr s), (h ++ [Ev (SessionAccept s) None]).
        unfold ret. split; [reflexivity | ]. split; [ | split].
        -- right. exists s. split; [reflexivity | ]. apply elem_of_cons. auto.
        -- discriminate.
        -- intros Hnever. rewrite Hnever in Hp. discriminate.
    + exists (s :: rest), (inl NcpClosed), h. unfold ret. auto.
Qed.

(** An operation leaves the closed flag and the shutdown channel as they
    are, unless it is the [Close] that closes the MultiClient. *)
Lemma exec_flags op m h :
  (isClosed (exec env processDest sessionKey MessageIDSize op (m, h)).1
   = isClosed m
   /\ onClose (exec env processDest sessionKey MessageIDSize op (m, h)).1
      = onClose m)
  \/ (isClosed m = false
      /\ onClose m = false
      /\ isClosed (exec env processDest sessionKey MessageIDSize op (m, h)).1
         = true
      /\ onClose (exec env processDest sessionKey MessageIDSize op (m, h)).1
         = true).
Proof.
  destruct op as [events | now i msg | order dests data enc hold
                 | clientID dests data enc hold | order msg response
                 | remoteAddr cfg | pick | sessionOrder clientOrder | ];
    unfold exec, stateOf; simpl.
  - left. destruct (router _ _ _ _ _) as [[m' | t | ] h'] eqn:E; simpl; auto.
    apply router_flags in E. exact E.
  - left.
    destruct (routerHandle _ _ _ _ _ _ _) as [[m' | t | ] h'] eqn:E; simpl;
      auto.
    apply routerHandle_flags in E. exact E.
  - left. destruct (Send _ _ _ _ _ _ _ _ _ _) as [[a | t | ] h']; simpl; auto.
  - left.
    destruct (SendWithClient _ _ _ _ _ _ _ _ _ _) as [[a | t | ] h']; simpl;
      auto.
  - left.
    destruct (invokeReply _ _ _ _ _ _ _ _) as [[a | t | ] h']; simpl; auto.
  - left.
    destruct (DialWithConfig _ _ _ _ _ _) as [[[m' r] | t | ] h'] eqn:E;
      simpl; auto.
    apply DialWithConfig_flags in E. exact E.
  - left. unfold AcceptSession, bind.
    destruct (acceptLoop _ _ _ _ _ _) as [[[q r] | t | ] h']; simpl; auto.
  - destruct (isClosed m) eqn:Hc.
    + left. rewrite (Close_again env sessionOrder clientOrder m h Hc).
      simpl. auto.
    + destruct (Close _ _ _ _ _) as [[[m' r] | t | ] h'] eqn:E; simpl; auto.
      destruct (onClose m) eqn:Ho.
      * left. unfold Close in E. rewrite Hc in E. unfold bind in E.
        destruct (closeSessions_total env
                    (omap (λ k, sessions m !! k) sessionOrder) h)
          as (evs1 & E1).
        rewrite E1 in E.
        destruct (closeClients_total env
                    (omap (λ k, Clients m !! k) clientOrder) (h ++ evs1))
          as (evs2 & E2).
        rewrite E2, Ho in E. discriminate E.
      * right. apply Close_closed in E as (_ & Hc' & Ho').
        rewrite Hc', Ho' by congruence. auto.
  - left. auto.
Qed.

Lemma exec_isClosed op m h :
  isClosed m = true ->
  isClosed (exec env processDest sessionKey MessageIDSize op (m, h)).1 = true.
Proof.
  intros Hc. destruct (exec_flags op m h) as [[F _] | (F & _)]; congruence.
Qed.

Lemma exec_closed op m h :
  isClosed m = true /\ onClose m = true ->
  isClosed (exec env processDest sessionKey MessageIDSize op (m, h)).1 = true
  /\ onClose (exec env processDest sessionKey MessageIDSize op (m, h)).1 = true.
Proof.
  intros [Hc Ho].
  destruct (exec_flags op m h) as [[F G] | (F & _)]; [split | ]; congruence.
Qed.

(** The closed flag and the shutdown channel agree from construction on. *)
Lemma exec_flags_agree op m h :
  isClosed m = onClose m ->
  isClosed (exec env processDest sessionKey MessageIDSize op (m, h)).1
  = onClose (exec env processDest sessionKey MessageIDSize op (m, h)).1.
Proof.
  intros Hinv.
  destruct (exec_flags op m h) as [[F G] | (_ & _ & F & G)]; congruence.
Qed.

Lemma execs_isClosed ops :
  forall m h,
    isClosed m = true ->
    isClosed (execs env processDest sessionKey MessageIDSize ops (m, h)).1
    = true.
Proof.
  induction ops as [ | op rest IH]; intros m h Hc; simpl; [exact Hc | ].
  unfold execs in *. simpl.
  destruct (exec env processDest sessionKey MessageIDSize op (m, h))
    as [m1 h1] eqn:E.
  apply IH. pose proof (exec_isClosed op m h Hc) as H. rewrite E in H. exact H.
Qed.

Lemma execs_closed ops :
  forall m h,
    isClosed m = true /\ onClose m = true ->
    isClosed (execs env processDest sessionKey MessageIDSize ops (m, h)).1 = true
    /\ onClose (execs env processDest sessionKey MessageIDSize ops (m, h)).1
       = true.
Proof.
  induction ops as [ | op rest IH]; intros m h Hc; simpl; [exact Hc | ].
  unfold execs in *. simpl.
  destruct (exec env processDest sessionKey MessageIDSize op (m, h))
    as [m1 h1] eqn:E.
  apply IH. pose proof (exec_closed op m h Hc) as H. rewrite E in H. exact H.
Qed.

Lemma NewMultiClient_flags_agree MergedClientConfig MakeAddressString schedule
    account baseIdentifier numSubClients originalClient configs h m h' :
  NewMultiClient env MergedClientConfig MakeAddressString schedule account
    baseIdentifier numSubClients originalClient configs h
  = (Done (inr m), h') ->
  isClosed m = false /\ onClose m = false.
Proof.
  unfold NewMultiClient.
  destruct (MergedClientConfig configs) as [err | cfg]; [discriminate | ].
  intros E. apply bind_Done in E as ([clients success] & h1 & _ & E).
  simpl in E. destruct success; simpl in E; [ | discriminate].
  destruct (MsgChanLen cfg <? 0); [discriminate | ].
  injection E as <- <-. auto.
Qed.

End LifecycleFacts.

(** C9: [Close] is idempotent.  After a [Close] that returned, and
    whatever operations followed, a further [Close] returns [nil], leaves
    the MultiClient as it is and makes no call: no session and no
    subclient is closed again, and the shutdown channel is not closed
    again. *)
Theorem Close_idempotent (env : Env)
    (processDest : list string -> Z -> list string)
    (sessionKey : string -> bytes -> string) (MessageIDSize : Z)
    (sessionOrder : list string) (clientOrder : list Z)
    (m : MultiClient) (h : History)
    (m1 : MultiClient) (r : option error) (h1 : History)
    (ops : list Op) (sessionOrder' : list string) (clientOrder' : list Z) :
  Close env sessionOrder clientOrder m h = (Done (m1, r), h1) ->
  let st := execs env processDest sessionKey MessageIDSize ops (m1, h1) in
  r = None
  /\ Close env sessionOrder' clientOrder' st.1 st.2 = (Done (st.1, None), st.2).
Proof.
  intros E st. destruct (Close_closed env _ _ _ _ _ _ _ E) as (Hr & Hc & _).
  split; [exact Hr | ]. apply Close_again.
  apply execs_isClosed. exact Hc.
Qed.

Lemma Close_idempotent_witness :
  Close Sample.quietEnv [] [-1; 1; 0] Sample.multiclient []
  = (Done (setClosed Sample.multiclient, None),
     [Ev (ClientClose 99) (); Ev (ClientClose 101) (); Ev (ClientClose 100) ()])
  /\ Close Sample.quietEnv [] [-1; 1; 0] Sample.closedThenSegment.1
       Sample.closedThenSegment.2
     = (Done (Sample.closedThenSegment.1, None), Sample.closedThenSegment.2).
Proof.
  assert (E : Close Sample.quietEnv [] [-1; 1; 0] Sample.multiclient []
              = (Done (setClosed Sample.multiclient, None),
                 [Ev (ClientClose 99) (); Ev (ClientClose 101) ();
                  Ev (ClientClose 100) ()])) by reflexivity.
  split; [exact E | ].
  apply (Close_idempotent Sample.quietEnv Sample.processDest Sample.sessionKey
           8 [] [-1; 1; 0] Sample.multiclient [] _ _ _
           [OpHandle 10 1 Sample.segment] [] [-1; 1; 0] E).
Defined.

(** C8, as stated, fails for [Accept]: with the shutdown channel closed
    and a session queued, both cases of the [select] are ready and the
    runtime may take the queue.  Here the MultiClient is closed while the
    router, past its shutdown check, waits for a message; the router then
    handles a session segment of a new peer, which queues a new session;
    a later [AcceptSession] whose [select] takes the queue returns that
    session and no error. *)
Lemma AcceptSession_after_Close_returns_session :
  IsClosed Sample.closedThenSegment.1 = true
  /\ (AcceptSession Sample.quietEnv (λ _, true) Sample.closedThenSegment.1
        Sample.closedThenSegment.2).1
     = Done (setAcceptSession [] Sample.closedThenSegment.1, inr 3)
  /\ (AcceptSession Sample.quietEnv (λ _, true) Sample.closedThenSegment.1
        Sample.closedThenSegment.2).1
     <> Done (Sample.closedThenSegment.1, inl NcpClosed).
Proof. vm_compute. repeat split. discriminate. Qed.

(** C8 (amended): after a [Close] that returned, whatever operations
    follow, [IsClosed] returns true, and [AcceptSession] returns without
    blocking: with the closed sentinel [ncp.Closed] when no session is
    queued or when its [select] takes the shutdown case, and otherwise
    with the closed sentinel or a session that was queued. *)
Theorem after_Close (env : Env)
    (processDest : list string -> Z -> list string)
    (sessionKey : string -> bytes -> string) (MessageIDSize : Z)
    (sessionOrder : list string) (clientOrder : list Z)
    (m : MultiClient) (h : History)
    (m1 : MultiClient) (r : option error) (h1 : History) (ops : list Op) :
  isClosed m = onClose m ->
  Close env sessionOrder clientOrder m h = (Done (m1, r), h1) ->
  let st := execs env processDest sessionKey MessageIDSize ops (m1, h1) in
  IsClosed st.1 = true
  /\ forall pick,
     exists q res h2,
       AcceptSession env pick st.1 st.2
       = (Done (setAcceptSession q st.1, res), h2)
       /\ (res = inl NcpClosed
           \/ exists s, res = inr s /\ s ∈ acceptSession st.1)
       /\ (acceptSession st.1 = [] -> res = inl NcpClosed)
       /\ ((forall j, pick j = false) -> res = inl NcpClosed).
Proof.
  intros Hinv E st.
  destruct (Close_closed env _ _ _ _ _ _ _ E) as (_ & Hc & Ho).
  destruct (execs_closed env processDest sessionKey MessageIDSize ops m1 h1
              (conj Hc (Ho Hinv))) as [Hc' Ho'].
  fold st in Hc', Ho'. split; [exact Hc' | ].
  intros pick. unfold AcceptSession, bind. rewrite Ho'.
  destruct (acceptLoop_closed env pick (acceptSession st.1) 0%nat st.2)
    as (q & res & h2 & E2 & H1 & H2 & H3).
  rewrite E2. exists q, res, h2. unfold ret. simpl. auto.
Qed.

Lemma after_Close_witness :
  (isClosed Sample.multiclient = onClose Sample.multiclient
   /\ Close Sample.quietEnv [] [-1; 1; 0] Sample.multiclient []
      = (Done (setClosed Sample.multiclient, None),
         [Ev (ClientClose 99) (); Ev (ClientClose 101) ();
          Ev (ClientClose 100) ()]))
  /\ IsClosed
       (execs Sample.quietEnv Sample.processDest Sample.sessionKey 8
          [OpHandle 10 1 Sample.message; OpAccept (λ _, true); OpIsClosed]
          (setClosed Sample.multiclient,
           [Ev (ClientClose 99) (); Ev (ClientClose 101) ();
            Ev (ClientClose 100) ()])).1 = true.
Proof.
  assert (E : Close Sample.quietEnv [] [-1; 1; 0] Sample.multiclient []
              = (Done (setClosed Sample.multiclient, None),
                 [Ev (ClientClose 99) (); Ev (ClientClose 101) ();
                  Ev (ClientClose 100) ()])) by reflexivity.
  split; [split; [reflexivity | exact E] | ].
  apply (after_Close Sample.quietEnv Sample.processDest Sample.sessionKey 8
           [] [-1; 1; 0] Sample.multiclient [] _ _ _
           [OpHandle 10 1 Sample.message; OpAccept (λ _, true); OpIsClosed]
           eq_refl E).
Defined.

(* --------------------------------------------------------------------- *)
(** ** Dial                                                               *)
(* --------------------------------------------------------------------- *)

(** C10: when the handshake [session.Dial()] of [DialWithConfig] fails,
    [DialWithConfig] returns that error, and the session it created is in
    the session table under the key of the remote address and the new
    session id: the insertion is not undone. *)
Theorem DialWithConfig_failed_handshake (env : Env)
    (sessionKey : string -> bytes -> string)
    (remoteAddr : string) (cfg : option SessionConfig)
    (m : MultiClient) (h : History)
    (m' : MultiClient) (res : error + Session) (h' : History)
    (s : Session) (err : error) :
  DialWithConfig env sessionKey remoteAddr cfg m h = (Done (m', res), h') ->
  last h' ≫= dialOf = Some (s, Some err) ->
  res = inl err
  /\ exists sessionID,
      sessions m' = <[sessionKey remoteAddr sessionID := s]> (sessions m)
      /\ sessions m' !! sessionKey remoteAddr sessionID = Some s.
Proof.
  unfold DialWithConfig, newSession, bind, call, ret.
  destruct cfg as [c | ];
    [destruct (env _ h (MergoMerge _ _)) as [e | merged] | ];
    simpl;
    try (intros [= <- <- <-]; rewrite last_snoc; discriminate);
    (destruct (env _ _ (RandomBytes SessionIDSize)) as [e | sid]; simpl;
     [intros [= <- <- <-]; rewrite last_snoc; discriminate | ]);
    (destruct (env _ _ (NcpNewSession _ _ _ _ _)) as [e | s']; simpl;
     [intros [= <- <- <-]; rewrite last_snoc; discriminate | ]);
    (destruct (env _ _ (SessionDial _)) as [e | ]; simpl;
     intros [= <- <- <-]; rewrite last_snoc; simpl; intros [= <- <-];
     split; [reflexivity | ];
     exists sid; simpl; split; [reflexivity | apply lookup_insert_eq]).
Qed.

Lemma DialWithConfig_failed_handshake_witness :
  last (DialWithConfig (Sample.env (λ _, false) (λ _, false) true)
          Sample.sessionKey "bob.pk" None Sample.multiclient []).2 ≫= dialOf
  = Some (1, Some (ExternalError 7))
  /\ match (DialWithConfig (Sample.env (λ _, false) (λ _, false) true)
              Sample.sessionKey "bob.pk" None Sample.multiclient []).1
     with
     | Done (m', res) =>
         res = inl (ExternalError 7)
         /\ exists sessionID,
             sessions m'
             = <[Sample.sessionKey "bob.pk" sessionID := 1]>
                 (sessions Sample.multiclient)
             /\ sessions m' !! Sample.sessionKey "bob.pk" sessionID = Some 1
     | _ => False
     end.
Proof.
  split; [reflexivity | ].
  destruct (DialWithConfig (Sample.env (λ _, false) (λ _, false) true)
              Sample.sessionKey "bob.pk" None Sample.multiclient [])
    as [[[m' res] | t | ] h'] eqn:E; simpl.
  - apply (DialWithConfig_failed_handshake _ _ _ _ _ _ _ _ _ _ _ E).
    vm_compute in E. injection E as _ _ <-. reflexivity.
  - vm_compute in E. discriminate E.
  - vm_compute in E. discriminate E.
Defined.

(* ===================================================================== *)
(** * Further properties                                                  *)
(* ===================================================================== *)

(* --------------------------------------------------------------------- *)
(** ** Inbound session segments                                           *)
(* --------------------------------------------------------------------- *)

Section SegmentFacts.

Variable env : Env.
Variable sessionKey : string -> bytes -> string.

(** A segment of a session of the table is fed to that session; the
    MultiClient is left as it is. *)
Lemma handleSessionMsg_known localID src sid data m h s :
  sessions m !! sessionKey (removeIdentifier src).1 sid = Some s ->
  exists e,
    handleSessionMsg env sessionKey localID src sid data m h
    = (Done (m, e),
       h ++ [Ev (SessionReceiveWith s localID (removeIdentifier src).2 data) e]).
Proof.
  intros Hk. unfold handleSessionMsg. rewrite Hk.
  unfold bind, call, ret. eauto.
Qed.

(** A segment of an unknown session: what becomes of the table and of the
    accept queue. *)
Lemma handleSessionMsg_unknown localID src sid data m h m1 e h1 :
  sessions m !! sessionKey (removeIdentifier src).1 sid = None ->
  handleSessionMsg env sessionKey localID src sid data m h = (Done (m1, e), h1) ->
  (m1 = m /\ is_Some e /\ omap newSessionOf (drop (length h) h1) <> []
   /\ omap acceptOf (drop (length h) h1) = [])
  \/ exists s,
      sessions m1 = <[sessionKey (removeIdentifier src).1 sid := s]> (sessions m)
      /\ ((is_Some e /\ acceptSession m1 = acceptSession m)
          \/ (e = None /\ (length (acceptSession m) < 128)%nat
              /\ acceptSession m1 = acceptSession m ++ [s])
          \/ (e = None /\ (128 <= length (acceptSession m))%nat
              /\ acceptSession m1 = acceptSession m)).
Proof.
  intros Hk. unfold handleSessionMsg, newSession. rewrite Hk.
  unfold bind, call, ret.
  destruct (env _ h (NcpNewSession _ _ _ _ _)) as [err | s]; simpl.
  - intros [= <- <- <-]. left. rewrite drop_app_length. simpl.
    repeat split; eauto; discriminate.
  - destruct (env _ _ (SessionReceiveWith _ _ _ _)) as [err | ]; simpl.
    + intros [= <- <- <-]. right. exists s. split; [reflexivity | ].
      left. split; [eauto | reflexivity].
    + destruct (Nat.ltb_spec (length (acceptSession m)) 128); simpl.
      * intros [= <- <- <-]. right. exists s. split; [reflexivity | ].
        right. left. auto.
      * destruct (env unit _ _). intros [= <- <- <-]. right. exists s.
        split; [reflexivity | ]. right. right. auto.
Qed.

End SegmentFacts.



(** X2: once a segment has been handled without error, its session is in
    the table, and every later segment with the same session id from the
    same peer address, through whatever subclients, is fed to that
    session and changes nothing in the MultiClient: the session is not
    made again and not queued again. *)
Theorem later_segments_reach_the_session (env : Env)
    (sessionKey : string -> bytes -> string)
    (localID src : string) (sid data : bytes)
    (m : MultiClient) (h : History) (m1 : MultiClient) (h1 : History) :
  handleSessionMsg env sessionKey localID src sid data m h
  = (Done (m1, None), h1) ->
  exists s,
    sessions m1 !! sessionKey (removeIdentifier src).1 sid = Some s
    /\ forall localID' src' data' h',
        (removeIdentifier src').1 = (removeIdentifier src).1 ->
        exists e',
          handleSessionMsg env sessionKey localID' src' sid data' m1 h'
          = (Done (m1, e'),
             h' ++ [Ev (SessionReceiveWith s localID'
                          (removeIdentifier src').2 data') e']).
Proof.
  intros E.
  assert (Hs : exists s,
             sessions m1 !! sessionKey (removeIdentifier src).1 sid = Some s).
  { destruct (sessions m !! sessionKey (removeIdentifier src).1 sid)
      as [s | ] eqn:Hk.
    - destruct (handleSessionMsg_known env sessionKey localID src sid data
                  m h s Hk) as (e & E').
      rewrite E' in E. injection E as <- _ _. eauto.
    - destruct (handleSessionMsg_unknown env sessionKey _ _ _ _ _ _ _ _ _ Hk E)
        as [(_ & [x Hx] & _) | (s & Hins & _)]; [discriminate | ].
      exists s. rewrite Hins. apply lookup_insert_eq. }
  destruct Hs as (s & Hs). exists s. split; [exact Hs | ].
  intros localID' src' data' h' Hsame.
  apply handleSessionMsg_known. rewrite Hsame. exact Hs.
Qed.

Lemma later_segments_reach_the_session_witness :
  exists s,
    sessions Sample.closedThenSegment.1
      !! Sample.sessionKey (removeIdentifier "__0__.bob.pk").1 [Byte.x07]
    = Some s.
Proof.
  destruct (later_segments_reach_the_session Sample.quietEnv Sample.sessionKey
              "__0__." "__0__.bob.pk" [Byte.x07] [Byte.x00]
              (setClosed Sample.multiclient)
              [Ev (ClientClose 99) (); Ev (ClientClose 101) ();
               Ev (ClientClose 100) ()]
              Sample.closedThenSegment.1 Sample.closedThenSegment.2 eq_refl)
    as (s & Hs & _).
  exists s. exact Hs.
Defined.

(* --------------------------------------------------------------------- *)
(** ** Dial                                                               *)
(* --------------------------------------------------------------------- *)

Section DialFacts.

Variable env : Env.
Variable sessionKey : string -> bytes -> string.


End DialFacts.





(* --------------------------------------------------------------------- *)
(** ** What the operations keep                                           *)
(* --------------------------------------------------------------------- *)

Section KeepFacts.

Variable env : Env.
Variable processDest : list string -> Z -> list string.
Variable sessionKey : string -> bytes -> string.
Variable MessageIDSize : Z.

Lemma keeps_intro dial m m' :
  sameFixed m m' ->
  dom (sessions m) ⊆ dom (sessions m') ->
  (dial = false -> sessions m ⊆ sessions m') ->
  ((length (acceptSession m) <= 128)%nat ->
   (length (acceptSession m') <= 128)%nat) ->
  keeps dial m m'.
Proof. unfold keeps. auto. Qed.

(** A change of the queue, the channel, the cache or the flags only. *)
Lemma keeps_same_table dial m m' :
  sameFixed m m' ->
  sessions m' = sessions m ->
  (length (acceptSession m') <= length (acceptSession m))%nat ->
  keeps dial m m'.
Proof.
  intros HF Hs Hq. apply keeps_intro; [exact HF | | | lia].
  - rewrite Hs. reflexivity.
  - intros _. rewrite Hs. reflexivity.
Qed.

Lemma sameFixed_refl m : sameFixed m m.
Proof. unfold sameFixed. auto. Qed.

Ltac same_fixed := unfold sameFixed; simpl; auto 10.

Lemma keeps_refl dial m : keeps dial m m.
Proof.
  apply keeps_same_table; [same_fixed | reflexivity | lia].
Qed.

Lemma keeps_trans dial m1 m2 m3 :
  keeps dial m1 m2 -> keeps dial m2 m3 -> keeps dial m1 m3.
Proof.
  unfold keeps, sameFixed.
  intros ((A1 & A2 & A3 & A4 & A5) & B & C & D)
         ((A1' & A2' & A3' & A4' & A5') & B' & C' & D').
  split; [repeat split; congruence | ].
  split; [transitivity (dom (sessions m2)); assumption | ].
  split; [intros Hd; transitivity (sessions m2); auto | auto].
Qed.

Lemma keeps_insert dial m k s :
  (dial = false -> sessions m !! k = None) ->
  keeps dial m (setSessions (<[k := s]> (sessions m)) m).
Proof.
  intros Hk. apply keeps_intro; [same_fixed | | | auto].
  - simpl. rewrite dom_insert. set_solver.
  - intros Hd. simpl. apply insert_subseteq. auto.
Qed.

Lemma handleSessionMsg_keeps localID src sid data m h m1 e h1 :
  handleSessionMsg env sessionKey localID src sid data m h = (Done (m1, e), h1) ->
  keeps false m m1.
Proof.
  unfold handleSessionMsg, newSession, bind, call, ret.
  destruct (sessions m !! _) as [s | ] eqn:Hk; simpl.
  - intros [= <- <- <-]. apply keeps_refl.
  - destruct (env _ h (NcpNewSession _ _ _ _ _)) as [err | s]; simpl;
      [intros [= <- <- <-]; apply keeps_refl | ].
    destruct (env _ _ (SessionReceiveWith _ _ _ _)) as [err | ]; simpl;
      [intros [= <- <- <-]; apply keeps_insert; auto | ].
    destruct (Nat.ltb_spec (length (acceptSession m)) 128); simpl.
    + intros [= <- <- <-].
      apply keeps_intro; [same_fixed | | | ].
      * simpl. rewrite dom_insert. set_solver.
      * intros _. simpl. apply insert_subseteq. exact Hk.
      * simpl. rewrite length_app. simpl. lia.
    + destruct (env unit _ _). intros [= <- <- <-]. apply keeps_insert; auto.
Qed.

Lemma routerHandle_keeps now i msg m h m' h' :
  routerHandle env sessionKey now i msg m h = (Done m', h') -> keeps false m m'.
Proof.
  destruct (IsSession msg) eqn:Hs.
  - unfold routerHandle. rewrite Hs. intros E.
    apply bind_Done in E as ([m1 e] & h1 & E1 & E2).
    apply handleSessionMsg_keeps in E1. simpl in E2.
    destruct e as [err | ].
    + apply bind_Done in E2 as (u & h2 & _ & E2). injection E2 as <- _.
      exact E1.
    + injection E2 as <- _. exact E1.
  - rewrite (routerHandle_app env sessionKey now i msg m h Hs).
    intros [= <- <-]. destruct (GoCache.Get _ _ _); [apply keeps_refl | ].
    apply keeps_same_table; [same_fixed | reflexivity | simpl; lia].
Qed.

Lemma router_keeps events :
  forall m h m' h',
    router env sessionKey events m h = (Done m', h') -> keeps false m m'.
Proof.
  induction events as [ | ev rest IH]; intros m h m' h' E.
  - injection E as <- <-. apply keeps_refl.
  - destruct ev as [now i msg | | now]; simpl in E.
    + destruct (onClose m); [injection E as <- <-; apply keeps_refl | ].
      apply bind_Done in E as (m1 & h1 & E1 & E2).
      apply routerHandle_keeps in E1. apply IH in E2.
      eapply keeps_trans; eauto.
    + destruct (onClose m); [injection E as <- <-; apply keeps_refl | ].
      apply IH in E. exact E.
    + apply IH in E. eapply keeps_trans; [ | exact E].
      apply keeps_same_table; [same_fixed | reflexivity | simpl; lia].
Qed.

Lemma DialWithConfig_keeps remoteAddr cfg m h m1 res h1 :
  DialWithConfig env sessionKey remoteAddr cfg m h = (Done (m1, res), h1) ->
  keeps true m m1.
Proof.
  unfold DialWithConfig, newSession, bind, call, ret.
  destruct cfg as [c | ];
    [destruct (env _ h (MergoMerge _ _)) as [e | merged] | ];
    simpl.
  all: try (intros [= <- <- <-]; apply keeps_refl).
  all: destruct (env _ _ (RandomBytes SessionIDSize)) as [e | sid]; simpl.
  all: try (intros [= <- <- <-]; apply keeps_refl).
  all: destruct (env _ _ (NcpNewSession _ _ _ _ _)) as [e | s]; simpl.
  all: try (intros [= <- <- <-]; apply keeps_refl).
  all: destruct (env _ _ (SessionDial _)) as [e | ]; simpl.
  all: intros [= <- <- <-]; apply keeps_insert; discriminate.
Qed.

(** [AcceptSession] leaves in the queue a tail of what it found there. *)
Lemma acceptLoop_suffix pick queue closed :
  forall k h q r h',
    acceptLoop env pick k queue closed h = (Done (q, r), h') ->
    exists taken, queue = taken ++ q.
Proof.
  induction queue as [ | s rest IH]; intros k h q r h'; simpl.
  - destruct closed; [ | discriminate]. intros [= <- <- <-]. exists []. auto.
  - destruct (closed && negb (pick k)).
    + intros [= <- <- <-]. exists []. auto.
    + unfold bind at 1, call at 1.
      destruct (env _ h (SessionAccept s)) as [err | ].
      * unfold bind at 1, call at 1. destruct (env unit _ _).
        intros E. apply IH in E as (taken & ->). exists (s :: taken). auto.
      * intros [= <- <- <-]. exists [s]. auto.
Qed.

Lemma AcceptSession_keeps pick m h m1 r h1 :
  AcceptSession env pick m h = (Done (m1, r), h1) -> keeps false m m1.
Proof.
  unfold AcceptSession. intros E.
  apply bind_Done in E as ([q r'] & h2 & E1 & E2). injection E2 as <- _ _.
  apply acceptLoop_suffix in E1 as (taken & Hq).
  apply keeps_same_table; [same_fixed | reflexivity | ].
  simpl. rewrite Hq, length_app. lia.
Qed.

Lemma Close_keeps sessionOrder clientOrder m h m1 r h1 :
  Close env sessionOrder clientOrder m h = (Done (m1, r), h1) ->
  keeps false m m1.
Proof.
  unfold Close. destruct (isClosed m).
  - intros [= <- <- <-]. apply keeps_refl.
  - intros E. apply bind_Done in E as (u1 & h2 & _ & E).
    apply bind_Done in E as (u2 & h3 & _ & E).
    destruct (onClose m); [discriminate | ]. injection E as <- _ _.
    apply keeps_same_table; [same_fixed | reflexivity | simpl; lia].
Qed.

Lemma exec_keeps op m h :
  keeps (isDial op) m
    (exec env processDest sessionKey MessageIDSize op (m, h)).1.
Proof.
  destruct op as [events | now i msg | order dests data enc hold
                 | clientID dests data enc hold | order msg response
                 | remoteAddr cfg | pick | sessionOrder clientOrder | ];
    unfold exec, stateOf; simpl.
  - destruct (router _ _ _ _ _) as [[m' | t | ] h'] eqn:E; simpl;
      try apply keeps_refl.
    apply router_keeps in E. exact E.
  - destruct (routerHandle _ _ _ _ _ _ _) as [[m' | t | ] h'] eqn:E; simpl;
      try apply keeps_refl.
    apply routerHandle_keeps in E. exact E.
  - destruct (Send _ _ _ _ _ _ _ _ _ _) as [[a | t | ] h']; simpl;
      apply keeps_refl.
  - destruct (SendWithClient _ _ _ _ _ _ _ _ _ _) as [[a | t | ] h']; simpl;
      apply keeps_refl.
  - destruct (invokeReply _ _ _ _ _ _ _ _) as [[a | t | ] h']; simpl;
      apply keeps_refl.
  - destruct (DialWithConfig _ _ _ _ _ _) as [[[m' r] | t | ] h'] eqn:E;
      simpl; try apply keeps_refl.
    apply DialWithConfig_keeps in E. exact E.
  - destruct (AcceptSession _ _ _ _) as [[[m' r] | t | ] h'] eqn:E; simpl.
    + apply AcceptSession_keeps in E. exact E.
    + apply keeps_same_table;
        [same_fixed | reflexivity | simpl; lia].
    + apply keeps_same_table;
        [same_fixed | reflexivity | simpl; lia].
  - destruct (Close _ _ _ _ _) as [[[m' r] | t | ] h'] eqn:E; simpl;
      try apply keeps_refl.
    apply Close_keeps in E. exact E.
  - apply keeps_refl.
Qed.

(** A property of the MultiClient that every operation of a kind
    preserves holds after any run of operations of that kind. *)
Lemma execs_preserves (allowed : Op -> Prop) (P : MultiClient -> Prop) :
  (forall op m h,
      allowed op -> P m ->
      P (exec env processDest sessionKey MessageIDSize op (m, h)).1) ->
  forall ops m h,
    Forall allowed ops -> P m ->
    P (execs env processDest sessionKey MessageIDSize ops (m, h)).1.
Proof.
  intros Hstep. induction ops as [ | op rest IH]; intros m h Hall HP;
    [exact HP | ].
  apply Forall_cons in Hall as [Hop Hrest]. unfold execs in *. simpl.
  destruct (exec env processDest sessionKey MessageIDSize op (m, h))
    as [m1 h1] eqn:E.
  apply IH; [exact Hrest | ].
  pose proof (Hstep op m h Hop HP) as H. rewrite E in H. exact H.
Qed.

(** An operation other than [Close] leaves the closed flag and the
    shutdown channel as they are. *)
Lemma exec_notClose_flags op m h :
  notClose op ->
  isClosed (exec env processDest sessionKey MessageIDSize op (m, h)).1
  = isClosed m
  /\ onClose (exec env processDest sessionKey MessageIDSize op (m, h)).1
     = onClose m.
Proof.
  intros Hn.
  destruct op as [events | now i msg | order dests data enc hold
                 | clientID dests data enc hold | order msg response
                 | remoteAddr cfg | pick | sessionOrder clientOrder | ];
    unfold exec, stateOf; simpl; try (destruct Hn; fail).
  - destruct (router _ _ _ _ _) as [[m' | t | ] h'] eqn:E; simpl; auto.
    apply router_flags in E. exact E.
  - destruct (routerHandle _ _ _ _ _ _ _) as [[m' | t | ] h'] eqn:E; simpl;
      auto.
    apply routerHandle_flags in E. exact E.
  - destruct (Send _ _ _ _ _ _ _ _ _ _) as [[a | t | ] h']; simpl; auto.
  - destruct (SendWithClient _ _ _ _ _ _ _ _ _ _) as [[a | t | ] h']; simpl;
      auto.
  - destruct (invokeReply _ _ _ _ _ _ _ _) as [[a | t | ] h']; simpl; auto.
  - destruct (DialWithConfig _ _ _ _ _ _) as [[[m' r] | t | ] h'] eqn:E;
      simpl; auto.
    apply DialWithConfig_flags in E. exact E.
  - unfold AcceptSession, bind.
    destruct (acceptLoop _ _ _ _ _ _) as [[[q r] | t | ] h']; simpl; auto.
  - auto.
Qed.

End KeepFacts.

Section KeepRuns.

Variable env : Env.
Variable processDest : list string -> Z -> list string.
Variable sessionKey : string -> bytes -> string.
Variable MessageIDSize : Z.

Lemma keeps_any dial m m' : keeps dial m m' -> keeps true m m'.
Proof.
  unfold keeps. intros (A & B & C & D).
  split; [exact A | ]. split; [exact B | ]. split; [discriminate | exact D].
Qed.

Lemma execs_keeps ops m h :
  keeps true m (execs env processDest sessionKey MessageIDSize ops (m, h)).1.
Proof.
  apply (execs_preserves env processDest sessionKey MessageIDSize
           (λ _, True) (keeps true m)).
  - intros op m1 h1 _ H. eapply keeps_trans; [exact H | ].
    eapply keeps_any. apply exec_keeps.
  - apply Forall_true. auto.
  - apply keeps_refl.
Qed.

Lemma execs_keeps_table ops m h :
  Forall notDial ops ->
  keeps false m (execs env processDest sessionKey MessageIDSize ops (m, h)).1.
Proof.
  intros Hall.
  apply (execs_preserves env processDest sessionKey MessageIDSize
           notDial (keeps false m)).
  - intros op m1 h1 Hop H. eapply keeps_trans; [exact H | ].
    pose proof (exec_keeps env processDest sessionKey MessageIDSize op m1 h1)
      as K.
    destruct op; simpl in K; try exact K. destruct Hop.
  - exact Hall.
  - apply keeps_refl.
Qed.

End KeepRuns.

(** X5: the fields of a MultiClient that are set at construction, its
    configuration, offset, subclients, default subclient and address, are
    changed by no operation. *)
Theorem fixed_fields_never_change (env : Env)
    (processDest : list string -> Z -> list string)
    (sessionKey : string -> bytes -> string) (MessageIDSize : Z)
    (ops : list Op) (m : MultiClient) (h : History) :
  sameFixed m (execs env processDest sessionKey MessageIDSize ops (m, h)).1.
Proof. apply execs_keeps. Qed.

(** X6: no operation removes a session from the session table, not even
    [Close]: a key of the table stays one. *)
Theorem sessions_never_removed (env : Env)
    (processDest : list string -> Z -> list string)
    (sessionKey : string -> bytes -> string) (MessageIDSize : Z)
    (ops : list Op) (m : MultiClient) (h : History) :
  dom (sessions m)
  ⊆ dom (sessions
           (execs env processDest sessionKey MessageIDSize ops (m, h)).1).
Proof. apply execs_keeps. Qed.

(** X7: only a dial can replace a session of the table.  Under the router,
    [Send], [Reply], [Accept] and [Close] a key of the table keeps its
    session: an inbound segment never makes a second session for a key
    that has one. *)
Theorem inbound_never_replaces (env : Env)
    (processDest : list string -> Z -> list string)
    (sessionKey : string -> bytes -> string) (MessageIDSize : Z)
    (ops : list Op) (m : MultiClient) (h : History)
    (k : string) (s : Session) :
  Forall notDial ops ->
  sessions m !! k = Some s ->
  sessions (execs env processDest sessionKey MessageIDSize ops (m, h)).1 !! k
  = Some s.
Proof.
  intros Hall Hk.
  destruct (execs_keeps_table env processDest sessionKey MessageIDSize ops m h
              Hall) as (_ & _ & Hsub & _).
  eapply lookup_weaken; [exact Hk | apply Hsub; reflexivity].
Qed.

Lemma inbound_never_replaces_witness :
  (Forall notDial [OpHandle 11 0 Sample.segment; OpAccept (λ _, true)]
   /\ sessions Sample.closedThenSegment.1
        !! Sample.sessionKey "bob.pk" [Byte.x07] = Some 3)
  /\ sessions
       (execs Sample.quietEnv Sample.processDest Sample.sessionKey 8
          [OpHandle 11 0 Sample.segment; OpAccept (λ _, true)]
          (Sample.closedThenSegment.1, Sample.closedThenSegment.2)).1
       !! Sample.sessionKey "bob.pk" [Byte.x07] = Some 3.
Proof.
  assert (Hall : Forall notDial
                   [OpHandle 11 0 Sample.segment; OpAccept (λ _, true)])
    by (repeat constructor).
  split; [split; [exact Hall | reflexivity] | ].
  apply (inbound_never_replaces Sample.quietEnv Sample.processDest
           Sample.sessionKey 8 _ Sample.closedThenSegment.1
           Sample.closedThenSegment.2 (Sample.sessionKey "bob.pk" [Byte.x07])
           3 Hall eq_refl).
Defined.

(** X8: the accept queue never holds more than 128 sessions, whatever
    operations run. *)
Theorem accept_queue_bounded (env : Env)
    (processDest : list string -> Z -> list string)
    (sessionKey : string -> bytes -> string) (MessageIDSize : Z)
    (ops : list Op) (m : MultiClient) (h : History) :
  (length (acceptSession m) <= 128)%nat ->
  (length (acceptSession
             (execs env processDest sessionKey MessageIDSize ops (m, h)).1)
   <= 128)%nat.
Proof. apply execs_keeps. Qed.

Lemma accept_queue_bounded_witness :
  (length (acceptSession Sample.multiclient) <= 128)%nat
  /\ (length (acceptSession
                (execs Sample.quietEnv Sample.processDest Sample.sessionKey 8
                   [OpHandle 11 0 Sample.segment]
                   (Sample.multiclient, [])).1) <= 128)%nat.
Proof.
  assert (H0 : (length (acceptSession Sample.multiclient) <= 128)%nat)
    by (simpl; lia).
  split; [exact H0 | ].
  apply (accept_queue_bounded Sample.quietEnv Sample.processDest
           Sample.sessionKey 8 [OpHandle 11 0 Sample.segment]
           Sample.multiclient [] H0).
Defined.

(** X9: [IsClosed] changes only by [Close]: no other operation sets or
    clears the closed flag or touches the shutdown channel. *)
Theorem closed_only_by_Close (env : Env)
    (processDest : list string -> Z -> list string)
    (sessionKey : string -> bytes -> string) (MessageIDSize : Z)
    (ops : list Op) (m : MultiClient) (h : History) :
  Forall notClose ops ->
  IsClosed (execs env processDest sessionKey MessageIDSize ops (m, h)).1
  = IsClosed m
  /\ onClose (execs env processDest sessionKey MessageIDSize ops (m, h)).1
     = onClose m.
Proof.
  intros Hall.
  apply (execs_preserves env processDest sessionKey MessageIDSize notClose
           (λ m', IsClosed m' = IsClosed m /\ onClose m' = onClose m)).
  - intros op m1 h1 Hop [H1 H2].
    destruct (exec_notClose_flags env processDest sessionKey MessageIDSize
                op m1 h1 Hop) as [F1 F2].
    unfold IsClosed in *. split; congruence.
  - exact Hall.
  - auto.
Qed.

Lemma closed_only_by_Close_witness :
  Forall notClose
    [OpHandle 11 0 Sample.segment; OpDial "bob.pk" None; OpAccept (λ _, true)]
  /\ IsClosed
       (execs Sample.quietEnv Sample.processDest Sample.sessionKey 8
          [OpHandle 11 0 Sample.segment; OpDial "bob.pk" None;
           OpAccept (λ _, true)] (Sample.multiclient, [])).1
     = IsClosed Sample.multiclient.
Proof.
  assert (Hall : Forall notClose
                   [OpHandle 11 0 Sample.segment; OpDial "bob.pk" None;
                    OpAccept (λ _, true)]) by (repeat constructor).
  split; [exact Hall | ].
  apply (closed_only_by_Close Sample.quietEnv Sample.processDest
           Sample.sessionKey 8 _ Sample.multiclient [] Hall).
Defined.

(* --------------------------------------------------------------------- *)
(** ** Accept                                                             *)
(* --------------------------------------------------------------------- *)

Section AcceptFacts.

Variable env : Env.

Lemma acceptLoop_refused pick k s rest h err :
  env _ h (SessionAccept s) = Some err ->
  acceptLoop env pick k (s :: rest) false h
  = acceptLoop env pick (S k) rest false
      ((h ++ [Ev (SessionAccept s) (Some err)])
       ++ [Ev (LogPrintln [LogError err]) ()]).
Proof.
  intros E. simpl. unfold bind at 1, call at 1. rewrite E.
  unfold bind at 1, call at 1. destruct (env unit _ _). reflexivity.
Qed.

Lemma acceptLoop_accepted pick k s rest h :
  env _ h (SessionAccept s) = None ->
  acceptLoop env pick k (s :: rest) false h
  = (Done (rest, inr s), h ++ [Ev (SessionAccept s) None]).
Proof.
  intros E. simpl. unfold bind at 1, call at 1. rewrite E. reflexivity.
Qed.

Lemma acceptLoop_open pick queue :
  forall k h,
    (exists failed s rest outcomes evs,
        queue = failed ++ s :: rest
        /\ acceptLoop env pick k queue false h
           = (Done (rest, inr s), h ++ evs)
        /\ omap acceptOf evs = outcomes ++ [(s, None)]
        /\ outcomes.*1 = failed
        /\ Forall (λ x, is_Some x.2) outcomes)
    \/ (exists outcomes evs,
           acceptLoop env pick k queue false h = (Blocked, h ++ evs)
           /\ omap acceptOf evs = outcomes
           /\ outcomes.*1 = queue
           /\ Forall (λ x, is_Some x.2) outcomes).
Proof.
  induction queue as [ | s rest IH]; intros k h.
  - right. exists [], []. simpl. unfold block. rewrite app_nil_r. auto.
  - destruct (env _ h (SessionAccept s)) as [err | ] eqn:Ee.
    + rewrite (acceptLoop_refused pick k s rest h err Ee).
      destruct (IH (S k) ((h ++ [Ev (SessionAccept s) (Some err)])
                          ++ [Ev (LogPrintln [LogError err]) ()]))
        as [(failed & s' & rest' & outcomes & evs & -> & E & Ho & Hf & Hall)
           | (outcomes & evs & E & Ho & Hf & Hall)].
      * left. exists (s :: failed), s', rest', ((s, Some err) :: outcomes),
          (Ev (SessionAccept s) (Some err)
             :: Ev (LogPrintln [LogError err]) () :: evs).
        rewrite E, <- !app_assoc. split; [reflexivity | ].
        split; [reflexivity | ].
        change (omap acceptOf
                  (Ev (SessionAccept s) (Some err)
                     :: Ev (LogPrintln [LogError err]) () :: evs))
          with ((s, Some err) :: omap acceptOf evs).
        rewrite Ho, fmap_cons, Hf.
        split; [reflexivity | ]. split; [reflexivity | ].
        constructor; [simpl; eauto | exact Hall].
      * right. exists ((s, Some err) :: outcomes),
          (Ev (SessionAccept s) (Some err)
             :: Ev (LogPrintln [LogError err]) () :: evs).
        rewrite E, <- !app_assoc. split; [reflexivity | ].
        change (omap acceptOf
                  (Ev (SessionAccept s) (Some err)
                     :: Ev (LogPrintln [LogError err]) () :: evs))
          with ((s, Some err) :: omap acceptOf evs).
        rewrite Ho, fmap_cons, Hf. split; [reflexivity | ].
        split; [reflexivity | ]. constructor; [simpl; eauto | exact Hall].
    + left. exists [], s, rest, [], [Ev (SessionAccept s) None].
      rewrite (acceptLoop_accepted pick k s rest h Ee). simpl. auto.
Qed.

End AcceptFacts.

(** X10: while the MultiClient is open, [AcceptSession] hands out the
    queued sessions in the order they were queued: it returns the first
    queued session whose handshake [Accept] succeeds and leaves the
    sessions behind it in the queue; the sessions before it, whose
    handshake failed, are taken off the queue and not returned.  When no
    queued session accepts, the queue is emptied and the call blocks. *)
Theorem AcceptSession_in_order (env : Env) (pick : nat -> bool)
    (m : MultiClient) (h : History) :
  onClose m = false ->
  (exists failed s rest outcomes evs,
      acceptSession m = failed ++ s :: rest
      /\ AcceptSession env pick m h
         = (Done (setAcceptSession rest m, inr s), h ++ evs)
      /\ omap acceptOf evs = outcomes ++ [(s, None)]
      /\ outcomes.*1 = failed
      /\ Forall (λ x, is_Some x.2) outcomes)
  \/ (exists outcomes evs,
         AcceptSession env pick m h = (Blocked, h ++ evs)
         /\ omap acceptOf evs = outcomes
         /\ outcomes.*1 = acceptSession m
         /\ Forall (λ x, is_Some x.2) outcomes).
Proof.
  intros Ho. unfold AcceptSession, bind. rewrite Ho.
  destruct (acceptLoop_open env pick (acceptSession m) 0%nat h)
    as [(failed & s & rest & outcomes & evs & Hq & E & H1 & H2 & H3)
       | (outcomes & evs & E & H1 & H2 & H3)]; rewrite E.
  - left. exists failed, s, rest, outcomes, evs. unfold ret. simpl. auto.
  - right. exists outcomes, evs. auto.
Qed.

Lemma AcceptSession_in_order_witness :
  onClose
    (execs Sample.quietEnv Sample.processDest Sample.sessionKey 8
       [OpHandle 11 0 Sample.segment] (Sample.multiclient, [])).1 = false
  /\ (AcceptSession Sample.quietEnv (λ _, false)
        (execs Sample.quietEnv Sample.processDest Sample.sessionKey 8
           [OpHandle 11 0 Sample.segment] (Sample.multiclient, [])).1 []).1
     = Done (setAcceptSession []
               (execs Sample.quietEnv Sample.processDest Sample.sessionKey 8
                  [OpHandle 11 0 Sample.segment] (Sample.multiclient, [])).1,
             inr 0).
Proof.
  split; [reflexivity | ].
  destruct (AcceptSession_in_order Sample.quietEnv (λ _, false)
              (execs Sample.quietEnv Sample.processDest Sample.sessionKey 8
                 [OpHandle 11 0 Sample.segment] (Sample.multiclient, [])).1
              [] eq_refl)
    as [(failed & s & rest & outcomes & evs & Hq & E & _)
       | (outcomes & evs & E & _)].
  - reflexivity.
  - vm_compute in E. discriminate E.
Defined.

(* --------------------------------------------------------------------- *)
(** ** Close, in detail                                                   *)
(* --------------------------------------------------------------------- *)

Section CloseEvents.

Variable env : Env.

Lemma closeSessions_events ss :
  forall h,
  exists evs,
    closeSessions env ss h = (Done tt, h ++ evs)
    /\ omap closedSessionOf evs = ss
    /\ omap closedClientOf evs = [].
Proof.
  induction ss as [ | s rest IH]; intros h; simpl.
  - exists []. unfold ret. rewrite app_nil_r. auto.
  - unfold bind at 1, call at 1.
    destruct (env _ h (SessionClose s)) as [err | ].
    + unfold bind at 1, call at 1. destruct (env unit _ _).
      destruct (IH ((h ++ [Ev (SessionClose s) (Some err)])
                    ++ [Ev (LogPrintln [LogError err]) ()]))
        as (evs & E & H1 & H2).
      exists (Ev (SessionClose s) (Some err)
                :: Ev (LogPrintln [LogError err]) () :: evs).
      rewrite E, <- !app_assoc.
      change (omap closedSessionOf
                (Ev (SessionClose s) (Some err)
                   :: Ev (LogPrintln [LogError err]) () :: evs))
        with (s :: omap closedSessionOf evs).
      change (omap closedClientOf
                (Ev (SessionClose s) (Some err)
                   :: Ev (LogPrintln [LogError err]) () :: evs))
        with (omap closedClientOf evs).
      rewrite H1, H2. auto.
    + destruct (IH (h ++ [Ev (SessionClose s) None])) as (evs & E & H1 & H2).
      exists (Ev (SessionClose s) None :: evs).
      rewrite E, <- !app_assoc.
      change (omap closedSessionOf (Ev (SessionClose s) None :: evs))
        with (s :: omap closedSessionOf evs).
      change (omap closedClientOf (Ev (SessionClose s) None :: evs))
        with (omap closedClientOf evs).
      rewrite H1, H2. auto.
Qed.

Lemma closeClients_events cs :
  forall h,
  exists evs,
    closeClients env cs h = (Done tt, h ++ evs)
    /\ omap closedClientOf evs = cs
    /\ omap closedSessionOf evs = [].
Proof.
  induction cs as [ | c rest IH]; intros h; simpl.
  - exists []. unfold ret. rewrite app_nil_r. auto.
  - unfold bind at 1, call at 1. destruct (env unit _ _).
    destruct (IH (h ++ [Ev (ClientClose c) ()])) as (evs & E & H1 & H2).
    exists (Ev (ClientClose c) () :: evs).
    rewrite E, <- !app_assoc.
    change (omap closedClientOf (Ev (ClientClose c) () :: evs))
      with (c :: omap closedClientOf evs).
    change (omap closedSessionOf (Ev (ClientClose c) () :: evs))
      with (omap closedSessionOf evs).
    rewrite H1, H2. auto.
Qed.

End CloseEvents.

(** Ranging over all the keys of a map reaches all its values. *)
Lemma omap_lookup_range `{Countable K} {V} (m : gmap K V) (order : list K) :
  order ≡ₚ (map_to_list m).*1 ->
  omap (λ k, m !! k) order ≡ₚ (map_to_list m).*2.
Proof.
  intros ->.
  assert (Hall : Forall (λ kv, m !! kv.1 = Some kv.2) (map_to_list m)).
  { apply Forall_forall. intros [k v] Hin.
    apply elem_of_map_to_list in Hin. exact Hin. }
  induction Hall as [ | [k v] l Hkv _ IH]; simpl; [reflexivity | ].
  simpl in Hkv. rewrite Hkv. simpl. f_equiv. exact IH.
Qed.

(** X11: a [Close] of an open MultiClient closes every session of the
    table and then every subclient, each once, and returns [nil]; a
    session whose [Close] fails does not stop it. *)
Theorem Close_closes_everything (env : Env) (sessionOrder : list string)
    (clientOrder : list Z) (m : MultiClient) (h : History) :
  isClosed m = false ->
  onClose m = false ->
  sessionOrder ≡ₚ (map_to_list (sessions m)).*1 ->
  RangeOrder (Clients m) clientOrder ->
  exists evs1 evs2,
    Close env sessionOrder clientOrder m h
    = (Done (setClosed m, None), h ++ evs1 ++ evs2)
    /\ omap closedSessionOf evs1 ≡ₚ (map_to_list (sessions m)).*2
    /\ omap closedClientOf evs1 = []
    /\ omap closedClientOf evs2 ≡ₚ (map_to_list (Clients m)).*2
    /\ omap closedSessionOf evs2 = [].
Proof.
  intros Hc Ho Hso Hco. unfold Close. rewrite Hc.
  destruct (closeSessions_events env
              (omap (λ k, sessions m !! k) sessionOrder) h)
    as (evs1 & E1 & H11 & H12).
  destruct (closeClients_events env
              (omap (λ k, Clients m !! k) clientOrder) (h ++ evs1))
    as (evs2 & E2 & H21 & H22).
  exists evs1, evs2. unfold bind. rewrite E1, E2, Ho. unfold ret.
  rewrite <- app_assoc. split; [reflexivity | ].
  rewrite H11, H12, H21, H22.
  split; [apply omap_lookup_range; exact Hso | ].
  split; [reflexivity | ].
  split; [apply omap_lookup_range; exact Hco | reflexivity].
Qed.

Lemma Close_closes_everything_witness :
  (isClosed Sample.multiclient = false
   /\ onClose Sample.multiclient = false
   /\ [] ≡ₚ (map_to_list (sessions Sample.multiclient)).*1
   /\ RangeOrder (Clients Sample.multiclient) [-1; 1; 0])
  /\ exists evs1 evs2,
      Close Sample.quietEnv [] [-1; 1; 0] Sample.multiclient []
      = (Done (setClosed Sample.multiclient, None), [] ++ evs1 ++ evs2)
      /\ omap closedSessionOf evs1
         ≡ₚ (map_to_list (sessions Sample.multiclient)).*2
      /\ omap closedClientOf evs1 = []
      /\ omap closedClientOf evs2
         ≡ₚ (map_to_list (Clients Sample.multiclient)).*2
      /\ omap closedSessionOf evs2 = [].
Proof.
  assert (H1 : [] ≡ₚ (map_to_list (sessions Sample.multiclient)).*1)
    by (vm_compute; reflexivity).
  assert (H2 : RangeOrder (Clients Sample.multiclient) [-1; 1; 0])
    by (vm_compute; reflexivity).
  split; [repeat split; assumption | ].
  exact (Close_closes_everything Sample.quietEnv [] [-1; 1; 0]
           Sample.multiclient [] eq_refl eq_refl H1 H2).
Defined.

(* --------------------------------------------------------------------- *)
(** ** The router, further                                                *)
(* --------------------------------------------------------------------- *)

Section RouterMore.

Variable env : Env.
Variable sessionKey : string -> bytes -> string.


End RouterMore.



(** X13: the deduplication ends with the time to live of the cache.  With
    a positive default expiration [d], a copy of an application message
    that arrives later than [d] after the first one was recorded is sent
    on [OnMessage] again. *)
Theorem redelivered_after_expiry (env : Env)
    (sessionKey : string -> bytes -> string)
    (t0 now i0 i1 : Z) (msg0 msg1 : Message) (m : MultiClient) (h : History) :
  onClose m = false ->
  IsSession msg0 = false ->
  IsSession msg1 = false ->
  Pid msg1 = Pid msg0 ->
  GoCache.Get t0 (string_of_list_byte (Pid msg0)) (msgCache m) = false ->
  0 < GoCache.defaultExpiration (msgCache m) ->
  0 < t0 + GoCache.defaultExpiration (msgCache m) ->
  t0 + GoCache.defaultExpiration (msgCache m) < now ->
  exists m',
    router env sessionKey [Inbound t0 i0 msg0; Inbound now i1 msg1] m h
    = (Done m', h)
    /\ OnMessage m' = OnMessage m ++ [published msg0; published msg1].
Proof.
  intros Hc Hs0 Hs1 Hp HG Hd He Hn. simpl. rewrite Hc. unfold bind at 1.
  rewrite (routerHandle_app env sessionKey t0 i0 msg0 m h Hs0), HG.
  simpl. rewrite Hc. unfold bind at 1.
  rewrite (routerHandle_app env sessionKey now i1 msg1 _ h Hs1). rewrite Hp.
  assert (HG' : GoCache.Get now (string_of_list_byte (Pid msg0))
                  (msgCache
                     (setOnMessage (OnMessage m ++ [published msg0])
                        (setMsgCache
                           (GoCache.Set_ t0 (string_of_list_byte (Pid msg0))
                              (msgCache m)) m))) = false).
  { simpl. unfold GoCache.Get, GoCache.Set_. simpl.
    rewrite lookup_insert_eq.
    assert (Hd' : (0 <? GoCache.defaultExpiration (msgCache m)) = true)
      by (apply Z.ltb_lt; exact Hd).
    rewrite Hd'. unfold GoCache.expired.
    assert (H1 : (0 <? t0 + GoCache.defaultExpiration (msgCache m)) = true)
      by (apply Z.ltb_lt; exact He).
    assert (H2 : (t0 + GoCache.defaultExpiration (msgCache m) <? now) = true)
      by (apply Z.ltb_lt; exact Hn).
    rewrite H1, H2. reflexivity. }
  rewrite HG'. unfold ret. simpl. eexists. split; [reflexivity | ].
  simpl. rewrite <- app_assoc. reflexivity.
Qed.

Lemma redelivered_after_expiry_witness :
  exists m',
    router Sample.quietEnv Sample.sessionKey
      [Inbound 10 1 Sample.message; Inbound 500 0 Sample.message]
      Sample.multiclient []
    = (Done m', [])
    /\ OnMessage m'
       = OnMessage Sample.multiclient
         ++ [published Sample.message; published Sample.message].
Proof.
  apply (redelivered_after_expiry Sample.quietEnv Sample.sessionKey
           10 500 1 0 Sample.message Sample.message Sample.multiclient []);
    reflexivity.
Defined.

(** X14: session segments pass by the deduplication.  Whatever segment
    the router handles, of whatever identifier, the message cache and
    [OnMessage] are as before, so that an application message which the
    cache does not hold is sent on [OnMessage] after it, also when it
    carries the identifier of the segment. *)
Theorem segment_leaves_cache (env : Env)
    (sessionKey : string -> bytes -> string)
    (t i now j : Z) (seg msg : Message) (m : MultiClient) (h : History) :
  onClose m = false ->
  IsSession seg = true ->
  IsSession msg = false ->
  GoCache.Get now (string_of_list_byte (Pid msg)) (msgCache m) = false ->
  exists m1 m' h',
    routerHandle env sessionKey t i seg m h = (Done m1, h')
    /\ msgCache m1 = msgCache m
    /\ router env sessionKey [Inbound t i seg; Inbound now j msg] m h
       = (Done m', h')
    /\ OnMessage m' = OnMessage m ++ [published msg].
Proof.
  intros Hc Hs Ha HG.
  destruct (routerHandle_session env sessionKey t i seg m h Hs)
    as (m1 & h' & E & F1 & F2 & F3 & F4).
  exists m1. eexists. exists h'. split; [exact E | ]. split; [exact F2 | ].
  simpl. rewrite Hc. unfold bind at 1. rewrite E.
  rewrite F3, Hc. unfold bind at 1.
  rewrite (routerHandle_app env sessionKey now j msg m1 h' Ha), F2, HG.
  unfold ret. split; [reflexivity | ]. simpl. rewrite F1. reflexivity.
Qed.

Lemma segment_leaves_cache_witness :
  exists m1 m' h',
    routerHandle Sample.quietEnv Sample.sessionKey 10 1
      Sample.segment Sample.multiclient [] = (Done m1, h')
    /\ msgCache m1 = msgCache Sample.multiclient
    /\ router Sample.quietEnv Sample.sessionKey
         [Inbound 10 1 Sample.segment;
          Inbound 11 0 (setSrc "__1__.bob.pk"
                          {| Src := ""; Data := []; Encrypted := true;
                             Pid := [Byte.x07]; IsSession := false;
                             Reply := None |})]
         Sample.multiclient []
       = (Done m', h')
    /\ OnMessage m'
       = OnMessage Sample.multiclient
         ++ [published (setSrc "__1__.bob.pk"
                          {| Src := ""; Data := []; Encrypted := true;
                             Pid := [Byte.x07]; IsSession := false;
                             Reply := None |})].
Proof.
  apply (segment_leaves_cache Sample.quietEnv Sample.sessionKey
           10 1 11 0 Sample.segment
           (setSrc "__1__.bob.pk"
              {| Src := ""; Data := []; Encrypted := true;
                 Pid := [Byte.x07]; IsSession := false; Reply := None |})
           Sample.multiclient []); reflexivity.
Defined.

(** X15: a segment of a session that is in the table is fed to that
    session with the tag of the subclient it arrived through, [i - offset]
    for case [i] of the select, as the local client id.  When the session
    returns an error the router logs it, once, unless the error is
    [ncp.SessionClosed], which it passes over in silence; the MultiClient
    is unchanged either way. *)
Theorem segment_error_logged (env : Env)
    (sessionKey : string -> bytes -> string)
    (now i : Z) (msg : Message) (m : MultiClient) (h : History) (s : Session) :
  IsSession msg = true ->
  sessions m !! sessionKey (removeIdentifier (Src msg)).1 (Pid msg) = Some s ->
  exists e,
    routerHandle env sessionKey now i msg m h
    = (Done m,
       h ++ Ev (SessionReceiveWith s (addIdentifier "" (i - offset m))
                  (removeIdentifier (Src msg)).2 (Data msg)) e
         :: match e with
            | None | Some NcpSessionClosed => []
            | Some err => [Ev (LogPrintln [LogError err]) ()]
            end).
Proof.
  intros Hs Hk. unfold routerHandle. rewrite Hs.
  destruct (handleSessionMsg_known env sessionKey
              (addIdentifier "" (i - offset m)) (Src msg) (Pid msg) (Data msg)
              m h s Hk) as (e & E).
  exists e. unfold bind at 1. rewrite E. simpl.
  destruct e as [err | ]; [ | reflexivity].
  unfold bind, call, ret.
  destruct err; simpl; try destruct (env unit _ _);
    rewrite <- ?app_assoc; reflexivity.
Qed.

Lemma segment_error_logged_witness :
  exists e,
    routerHandle Sample.quietEnv Sample.sessionKey 12 2 Sample.segment
      Sample.closedThenSegment.1 Sample.closedThenSegment.2
    = (Done Sample.closedThenSegment.1,
       Sample.closedThenSegment.2
         ++ Ev (SessionReceiveWith 3
                  (addIdentifier "" (2 - offset Sample.closedThenSegment.1))
                  (removeIdentifier (Src Sample.segment)).2
                  (Data Sample.segment)) e
         :: match e with
            | None | Some NcpSessionClosed => []
            | Some err => [Ev (LogPrintln [LogError err]) ()]
            end).
Proof.
  apply (segment_error_logged Sample.quietEnv Sample.sessionKey 12 2
           Sample.segment Sample.closedThenSegment.1
           Sample.closedThenSegment.2 3); reflexivity.
Defined.

(** X16: the local client ids that [newSession] hands to
    [ncp.NewSession] are the tags of the subclients in the map, one for
    each, in ascending order of the strings: they do not depend on the
    order in which the [range] over [Clients] yields the subclients. *)
Theorem newSession_clientIDs (env : Env) (order : list Z)
    (remoteAddr : string) (sessionID : bytes) (cfg : SessionConfig)
    (m : MultiClient) (h : History) :
  RangeOrder (Clients m) order ->
  exists ids r,
    newSession env remoteAddr sessionID cfg m h
    = (Done r,
       h ++ [Ev (NcpNewSession (Address m) remoteAddr sessionID ids cfg) r])
    /\ ids = merge_sort String.le ((λ id, addIdentifier "" id) <$> order)
    /\ Sorted String.le ids
    /\ ids ≡ₚ (λ id, addIdentifier "" id) <$> order.
Proof.
  intros HR. unfold RangeOrder in HR.
  exists (merge_sort String.le
            ((λ id, addIdentifier "" id) <$> (map_to_list (Clients m)).*1)).
  eexists. split; [reflexivity | ].
  split; [ | split].
  - apply (Sorted_unique String.le).
    + apply Sorted_merge_sort. apply _.
    + apply Sorted_merge_sort. apply _.
    + rewrite !merge_sort_Permutation. rewrite HR. reflexivity.
  - apply Sorted_merge_sort. apply _.
  - rewrite merge_sort_Permutation, HR. reflexivity.
Qed.

Lemma newSession_clientIDs_witness :
  RangeOrder (Clients Sample.multiclient) [0; -1; 1]
  /\ exists ids r,
      newSession Sample.quietEnv "bob.pk" [Byte.x07] [] Sample.multiclient []
      = (Done r,
         [] ++ [Ev (NcpNewSession (Address Sample.multiclient) "bob.pk"
                      [Byte.x07] ids []) r])
      /\ ids = merge_sort String.le
                 ((λ id, addIdentifier "" id) <$> [0; -1; 1])
      /\ Sorted String.le ids
      /\ ids ≡ₚ (λ id, addIdentifier "" id) <$> [0; -1; 1].
Proof.
  assert (HR : RangeOrder (Clients Sample.multiclient) [0; -1; 1]).
  { vm_compute. exact (Permutation_cons_append [-1; 1] 0). }
  split; [exact HR | ].
  exact (newSession_clientIDs Sample.quietEnv [0; -1; 1] "bob.pk" [Byte.x07]
           [] Sample.multiclient [] HR).
Defined.

(* --------------------------------------------------------------------- *)
(** ** Send, further                                                      *)
(* --------------------------------------------------------------------- *)

(** A map whose keys are the integers of an interval has its size. *)
Lemma size_range {V} (M : gmap Z V) (lo n : Z) :
  (forall k, is_Some (M !! k) <-> lo <= k < n) ->
  size M = Z.to_nat (n - lo).
Proof.
  intros H.
  assert (Hd : dom M = list_to_set (seqZ lo (n - lo)) :> gset Z).
  { apply set_eq. intros k.
    rewrite elem_of_dom, H, elem_of_list_to_set, elem_of_seqZ. lia. }
  rewrite <- (size_dom (D := gset Z)), Hd, size_list_to_set, length_seqZ;
    [reflexivity | apply NoDup_seqZ].
Qed.

(** Two computations that continue alike are alike. *)
Lemma bind_ext {A B} (x : M A) (f g : A -> M B) (h : History) :
  (forall a h1, f a h1 = g a h1) -> bind x f h = bind x g h.
Proof.
  intros H. unfold bind. destruct (x h) as [[a | t | ] h1]; auto.
Qed.

Section SendMore.

Variable env : Env.
Variable processDest : list string -> Z -> list string.

Lemma SendLoop_trace dests payload encrypted hold m :
  forall order slots h,
    Forall (λ k, is_Some (Clients m !! k)
                 /\ 0 <= k + offset m < Z.of_nat (length slots)) order ->
    (exists slots',
        SendLoop env processDest order dests payload encrypted hold m slots h
        = (Done (inr slots'),
           h ++ (order ≫= λ k,
                   SendEvents processDest m dests payload encrypted hold
                     k None))
        /\ length slots' = length slots
        /\ (forall k c, k ∈ order -> Clients m !! k = Some c ->
              slots' !! Z.to_nat (k + offset m) = Some (Some c))
        /\ (forall j,
              (forall k, k ∈ order -> Z.to_nat (k + offset m) <> j) ->
              slots' !! j = slots !! j))
    \/ exists pre k post err,
        order = pre ++ k :: post
        /\ SendLoop env processDest order dests payload encrypted hold m
             slots h
           = (Done (inl err),
              h ++ (pre ≫= λ k',
                      SendEvents processDest m dests payload encrypted hold
                        k' None)
                ++ SendEvents processDest m dests payload encrypted hold
                     k (Some err)).
Proof.
  induction order as [ | k rest IH]; intros slots h Hall.
  - left. exists slots. simpl. unfold ret. rewrite app_nil_r.
    split; [reflexivity | ]. split; [reflexivity | ].
    split; [ | reflexivity]. intros k c Hk. apply elem_of_nil in Hk. destruct Hk.
  - apply Forall_cons in Hall as [[[c Hc] Hb] Hrest].
    assert (Estep :
      SendLoop env processDest (k :: rest) dests payload encrypted hold m
        slots h
      = match env _ (h ++ [Ev (ClientSetResponseChannel c
                                 (string_of_list_byte (MessageId payload))) ()])
                (ClientSend c (processDest dests k) (Some payload)
                   encrypted hold) with
        | Some err =>
            (Done (inl err),
             h ++ SendEvents processDest m dests payload encrypted hold
                    k (Some err))
        | None =>
            SendLoop env processDest rest dests payload encrypted hold m
              (<[Z.to_nat (k + offset m) := Some c]> slots)
              (h ++ SendEvents processDest m dests payload encrypted hold
                      k None)
        end).
    { simpl.
      replace ((k + offset m <? 0) || (Z.of_nat (length slots) <=? k + offset m))
        with false
        by (symmetry; apply orb_false_intro;
            [apply Z.ltb_ge | apply Z.leb_gt]; lia).
      rewrite Hc. unfold SendEvents. rewrite Hc.
      unfold bind at 1, call at 1. destruct (env unit h _).
      unfold bind at 1, sendWithClient. rewrite Hc. unfold call at 1. simpl.
      destruct (env _ _ (ClientSend _ _ _ _ _)); rewrite <- app_assoc;
        reflexivity. }
    rewrite Estep. clear Estep.
    destruct (env _ _ (ClientSend c _ _ _ _)) as [err | ].
    + right. exists [], k, rest, err. split; reflexivity.
    + destruct (IH (<[Z.to_nat (k + offset m) := Some c]> slots)
                  (h ++ SendEvents processDest m dests payload encrypted hold
                          k None))
        as [(slots' & E & Hl & Hset & Hkeep)
           | (pre & k' & post & err & -> & E)].
      { eapply Forall_impl; [exact Hrest | ]. intros k' Hk'. simpl in Hk'.
        rewrite length_insert. exact Hk'. }
      * left. exists slots'. rewrite E. split.
        { rewrite bind_cons, <- app_assoc. reflexivity. }
        split; [rewrite Hl, length_insert; reflexivity | ]. split.
        -- intros k' c' Hk' Hc'.
           destruct (decide (k' ∈ rest)) as [Hin | Hnin]; [eauto | ].
           apply elem_of_cons in Hk' as [-> | Hin]; [ | contradiction].
           rewrite Hkeep.
           ++ rewrite list_lookup_insert_eq by lia. congruence.
           ++ intros k2 Hk2 Heq. apply Hnin.
              assert (Hb2 := proj1 (Forall_forall _ _) Hrest k2 Hk2).
              simpl in Hb2. replace k with k2 by lia. exact Hk2.
        -- intros j Hj. rewrite Hkeep.
           ++ apply list_lookup_insert_ne. apply Hj. apply elem_of_cons. auto.
           ++ intros k2 Hk2. apply Hj. apply elem_of_cons. auto.
      * right. exists (k :: pre), k', post, err. split; [reflexivity | ].
        rewrite E, bind_cons, <- !app_assoc. reflexivity.
Qed.

Lemma fullyConstructed_bounds m order :
  fullyConstructed m ->
  RangeOrder (Clients m) order ->
  Forall (λ k, is_Some (Clients m !! k)
               /\ 0 <= k + offset m
                  < Z.of_nat (length (replicate (size (Clients m))
                                        (None : option Client)))) order.
Proof.
  intros [n Hn] HR. pose proof (RangeOrder_present _ _ HR) as Hp.
  eapply Forall_impl; [exact Hp | ]. intros k Hk. simpl in Hk.
  split; [exact Hk | ].
  rewrite length_replicate, (size_range _ (- offset m) n Hn).
  apply Hn in Hk. lia.
Qed.

(** The fan-out reads nothing of the MultiClient but [Clients] and
    [offset]. *)
Lemma sendWithClient_ext clientID dests payload encrypted hold m m' :
  Clients m' = Clients m ->
  sendWithClient env processDest clientID dests payload encrypted hold m'
  = sendWithClient env processDest clientID dests payload encrypted hold m.
Proof. intros HC. unfold sendWithClient. rewrite HC. reflexivity. Qed.

Lemma send_ext order dests payload encrypted hold m m' :
  Clients m' = Clients m ->
  send env processDest order dests payload encrypted hold m'
  = send env processDest order dests payload encrypted hold m.
Proof.
  intros HC. induction order as [ | k rest IH]; simpl; [reflexivity | ].
  rewrite (sendWithClient_ext k dests payload encrypted hold m m' HC), IH.
  reflexivity.
Qed.

Lemma SendLoop_ext order dests payload encrypted hold m m' :
  Clients m' = Clients m ->
  offset m' = offset m ->
  forall slots,
    SendLoop env processDest order dests payload encrypted hold m' slots
    = SendLoop env processDest order dests payload encrypted hold m slots.
Proof.
  intros HC HO. induction order as [ | k rest IH]; intros slots; simpl;
    [reflexivity | ].
  rewrite HC, HO.
  rewrite (sendWithClient_ext k dests (Some payload) encrypted hold m m' HC).
  destruct (_ || _); [reflexivity | ].
  destruct (Clients m !! k); [ | reflexivity].
  rewrite IH. reflexivity.
Qed.

End SendMore.

(** X17: on a MultiClient all of whose subclients were constructed, [Send]
    does not panic.  It draws one random message id and builds one BINARY
    payload with it; in the order of its [range] it stores a response
    channel with each subclient under that id and then sends the payload
    through the subclient.  The first send that fails ends the call with
    its error: no later subclient is used and no response is awaited.
    Otherwise the response is awaited, under the same id, on one channel
    for each subclient, the channel of subclient [k] in slot [k + offset];
    a response has its source untagged, and a closed channel gives the
    error [error reading response channel]. *)
Theorem Send_outcomes (env : Env)
    (processDest : list string -> Z -> list string) (MessageIDSize : Z)
    (order : list Z) (dests : list string) (data : bytes) (encrypted : bool)
    (hold : list Z) (m : MultiClient) (h : History) :
  fullyConstructed m ->
  RangeOrder (Clients m) order ->
  (exists err,
      Send env processDest MessageIDSize order dests data encrypted hold m h
      = (Done (inl err), h ++ [Ev (RandomBytes MessageIDSize) (inl err)]))
  \/ exists id,
      let payload := {| Type_ := BINARY; MessageId := id; Data_ := data;
                        ReplyToId := []; NoReply := false |} in
      let h1 := h ++ [Ev (RandomBytes MessageIDSize) (inr id)] in
      (exists pre k post err,
          order = pre ++ k :: post
          /\ Send env processDest MessageIDSize order dests data encrypted
               hold m h
             = (Done (inl err),
                h1 ++ (pre ≫= λ k',
                         SendEvents processDest m dests payload encrypted
                           hold k' None)
                   ++ SendEvents processDest m dests payload encrypted hold
                        k (Some err)))
      \/ exists slots v,
          Send env processDest MessageIDSize order dests data encrypted
            hold m h
          = (match v with
             | None => Blocked
             | Some (Some msg) =>
                 Done (inr (setSrc (removeIdentifier (Src msg)).1 msg))
             | Some None =>
                 Done (inl (ErrorsNew "error reading response channel"))
             end,
             (h1 ++ (order ≫= λ k,
                       SendEvents processDest m dests payload encrypted
                         hold k None))
               ++ [Ev (AwaitResponse (string_of_list_byte id) slots) v])
          /\ length slots = size (Clients m)
          /\ forall k c, Clients m !! k = Some c ->
               slots !! Z.to_nat (k + offset m) = Some (Some c).
Proof.
  intros Hf HR.
  pose proof (fullyConstructed_bounds m order Hf HR) as Hb.
  assert (E :
    Send env processDest MessageIDSize order dests data encrypted hold m h
    = match env _ h (RandomBytes MessageIDSize) with
      | inl err =>
          (Done (inl err), h ++ [Ev (RandomBytes MessageIDSize) (inl err)])
      | inr id =>
          match SendLoop env processDest order dests
                  {| Type_ := BINARY; MessageId := id; Data_ := data;
                     ReplyToId := []; NoReply := false |}
                  encrypted hold m (replicate (size (Clients m)) None)
                  (h ++ [Ev (RandomBytes MessageIDSize) (inr id)]) with
          | (Done (inl err), h') => (Done (inl err), h')
          | (Done (inr slots), h') =>
              (match env _ h' (AwaitResponse (string_of_list_byte id) slots) with
               | None => Blocked
               | Some (Some msg) =>
                   Done (inr (setSrc (removeIdentifier (Src msg)).1 msg))
               | Some None =>
                   Done (inl (ErrorsNew "error reading response channel"))
               end,
               h' ++ [Ev (AwaitResponse (string_of_list_byte id) slots)
                        (env _ h' (AwaitResponse (string_of_list_byte id)
                                     slots))])
          | (Panic t, h') => (Panic t, h')
          | (Blocked, h') => (Blocked, h')
          end
      end).
  { unfold Send, newBinaryPayload_2, newBinaryPayload, bind, call, ret, block.
    simpl. destruct (env _ h (RandomBytes MessageIDSize)) as [err | id];
      simpl; [reflexivity | ].
    destruct (SendLoop _ _ _ _ _ _ _ _ _ _) as [[[err | slots] | t | ] h'];
      simpl; try reflexivity.
    destruct (env _ h' (AwaitResponse _ _)) as [[msg | ] | ]; reflexivity. }
  rewrite E. clear E.
  destruct (env _ h (RandomBytes MessageIDSize)) as [err | id];
    [left; eauto | ].
  right. exists id. simpl.
  destruct (SendLoop_trace env processDest dests
              {| Type_ := BINARY; MessageId := id; Data_ := data;
                 ReplyToId := []; NoReply := false |}
              encrypted hold m order (replicate (size (Clients m)) None)
              (h ++ [Ev (RandomBytes MessageIDSize) (inr id)]) Hb)
    as [(slots & E & Hl & Hset & _) | (pre & k & post & err & Ho & E)];
    rewrite E.
  - right. exists slots. eexists. split; [reflexivity | ].
    split; [rewrite Hl; apply length_replicate | ].
    intros k c Hk. apply (Hset k c); [ | exact Hk].
    unfold RangeOrder in HR. rewrite HR.
    apply list_elem_of_fmap. exists (k, c). split; [reflexivity | ].
    apply elem_of_map_to_list. exact Hk.
  - left. exists pre, k, post, err. split; [exact Ho | reflexivity].
Qed.

Lemma Send_outcomes_witness :
  (fullyConstructed Sample.multiclient
   /\ RangeOrder (Clients Sample.multiclient) [-1; 1; 0])
  /\ (Send Sample.quietEnv Sample.processDest 8 [-1; 1; 0] ["bob.pk"]
        [Byte.x68; Byte.x69] true [] Sample.multiclient []).1
     = Done (inr {| Src := "bob.pk"; Data := []; Encrypted := true; Pid := [];
                    IsSession := false; Reply := None |}).
Proof.
  assert (Hf : fullyConstructed Sample.multiclient).
  { exists 2. intros k. unfold Sample.multiclient. simpl.
    assert (Hk : k = -1 \/ k = 0 \/ k = 1 \/ k < -1 \/ 2 <= k) by lia.
    destruct Hk as [-> | [-> | [-> | Hk]]];
      try (split; [lia | intros _; eexists; reflexivity]).
    split; [ | lia]. intros [x Hx].
    rewrite !lookup_insert_ne in Hx by lia.
    rewrite lookup_singleton_ne in Hx by lia. discriminate Hx. }
  assert (HR : RangeOrder (Clients Sample.multiclient) [-1; 1; 0])
    by (vm_compute; reflexivity).
  split; [split; assumption | ].
  destruct (Send_outcomes Sample.quietEnv Sample.processDest 8 [-1; 1; 0]
              ["bob.pk"] [Byte.x68; Byte.x69] true [] Sample.multiclient []
              Hf HR) as [(err & E) | (id & _)].
  - vm_compute in E. discriminate E.
  - reflexivity.
Defined.

(** X18: [SendWithClient] with a client id that is not in the map does
    not return an error: once the payload is built it dereferences the nil
    subclient and panics, before anything is sent.  Only a failure to
    draw the message id makes it return, with that error. *)
Theorem SendWithClient_unknown_client (env : Env)
    (processDest : list string -> Z -> list string) (MessageIDSize : Z)
    (clientID : Z) (dests : list string) (data : bytes) (encrypted : bool)
    (hold : list Z) (m : MultiClient) (h : History) :
  Clients m !! clientID = None ->
  exists r,
    SendWithClient env processDest MessageIDSize clientID dests data
      encrypted hold m h
    = (match r with
       | inl err => Done (inl err)
       | inr _ => Panic "invalid memory address or nil pointer dereference"
       end,
       h ++ [Ev (RandomBytes MessageIDSize) r]).
Proof.
  intros Hk. exists (env _ h (RandomBytes MessageIDSize)).
  unfold SendWithClient, newBinaryPayload_2, newBinaryPayload, bind, call,
    ret, panic. simpl.
  destruct (env _ h (RandomBytes MessageIDSize)) as [err | id]; simpl;
    [reflexivity | ].
  rewrite Hk. reflexivity.
Qed.

Lemma SendWithClient_unknown_client_witness :
  Clients Sample.multiclient !! 5 = None
  /\ (SendWithClient Sample.quietEnv Sample.processDest 8 5 ["bob.pk"] []
        true [] Sample.multiclient []).1
     = Panic "invalid memory address or nil pointer dereference".
Proof.
  split; [reflexivity | ].
  destruct (SendWithClient_unknown_client Sample.quietEnv Sample.processDest
              8 5 ["bob.pk"] [] true [] Sample.multiclient [] eq_refl)
    as (r & E).
  apply (f_equal fst) in E.
  destruct r as [err | id]; [vm_compute in E; discriminate E | exact E].
Defined.

(** X19: the fan-out looks at nothing but the subclients: whatever
    operations have run on a MultiClient, [Close] among them, [Send],
    [SendWithClient] and the Reply closure do on it what they do on the
    MultiClient as it was constructed.  In particular a [Send] on a closed
    MultiClient is not refused by the MultiClient: it goes to the
    subclients. *)
Theorem sending_ignores_Close (env : Env)
    (processDest : list string -> Z -> list string)
    (sessionKey : string -> bytes -> string) (MessageIDSize : Z)
    (ops : list Op) (m : MultiClient) (h : History) :
  let m' := (execs env processDest sessionKey MessageIDSize ops (m, h)).1 in
  (forall order dests data encrypted hold h',
      Send env processDest MessageIDSize order dests data encrypted hold m' h'
      = Send env processDest MessageIDSize order dests data encrypted hold
          m h')
  /\ (forall clientID dests data encrypted hold h',
        SendWithClient env processDest MessageIDSize clientID dests data
          encrypted hold m' h'
        = SendWithClient env processDest MessageIDSize clientID dests data
            encrypted hold m h')
  /\ (forall order msg response h',
        invokeReply env processDest MessageIDSize order msg response m' h'
        = invokeReply env processDest MessageIDSize order msg response m h').
Proof.
  intros m'.
  destruct (execs_keeps env processDest sessionKey MessageIDSize ops m h)
    as [(_ & HO & HC & _) _].
  fold m' in HO, HC. split; [ | split].
  - intros. unfold Send. rewrite HC. apply bind_ext.
    intros [err | p] h1; [reflexivity | ].
    rewrite (SendLoop_ext env processDest order dests p encrypted hold m m'
               HC HO).
    reflexivity.
  - intros. unfold SendWithClient. rewrite HC. apply bind_ext.
    intros [err | p] h1; [reflexivity | ].
    destruct (Clients m !! clientID); [ | reflexivity].
    rewrite (sendWithClient_ext env processDest clientID dests (Some p)
               encrypted hold m m' HC).
    reflexivity.
  - intros. unfold invokeReply. apply bind_ext. intros r h1.
    apply bind_ext. intros payload h2.
    rewrite (send_ext env processDest order [Src msg] payload (Encrypted msg)
               [] m m' HC).
    reflexivity.
Qed.

Section SendBounds.

Variable env : Env.
Variable processDest : list string -> Z -> list string.

(** A loop of [Send] that ran to its end indexed the slice within its
    bounds in every round. *)
Lemma SendLoop_Done_bounds dests payload encrypted hold m :
  forall order slots h slots' h',
    SendLoop env processDest order dests payload encrypted hold m slots h
    = (Done (inr slots'), h') ->
    Forall (λ k, 0 <= k + offset m < Z.of_nat (length slots)) order.
Proof.
  induction order as [ | k rest IH]; intros slots h slots' h' E;
    [constructor | ].
  simpl in E.
  destruct ((k + offset m <? 0) || (Z.of_nat (length slots) <=? k + offset m))
    eqn:Hb; [discriminate E | ].
  destruct (Clients m !! k) as [c | ] eqn:Hc; [ | discriminate E].
  apply bind_Done in E as (u & h1 & _ & E).
  apply bind_Done in E as (e & h2 & _ & E).
  destruct e as [err | ]; [discriminate E | ].
  apply IH in E. rewrite length_insert in E.
  apply orb_false_elim in Hb as [H1 H2].
  apply Z.ltb_ge in H1. apply Z.leb_gt in H2.
  constructor; [lia | exact E].
Qed.

End SendBounds.

(** X20: [Send] returns a response only on a MultiClient all of whose
    subclients were constructed.  When an index below a constructed one is
    missing, the slice of response channels, which has one slot for each
    subclient present, is too short for the slot [k + offset] of the last
    subclient [k]: a [Send] then ends in an error of a subclient or in a
    panic, in whatever order its [range] runs. *)
Theorem Send_returns_only_when_complete (env : Env)
    (processDest : list string -> Z -> list string) (MessageIDSize : Z)
    (order : list Z) (dests : list string) (data : bytes) (encrypted : bool)
    (hold : list Z) (m : MultiClient) (h : History)
    (msg : Message) (h' : History) :
  RangeOrder (Clients m) order ->
  Send env processDest MessageIDSize order dests data encrypted hold m h
  = (Done (inr msg), h') ->
  fullyConstructed m.
Proof.
  intros HR E. unfold Send in E.
  apply bind_Done in E as (r & h1 & _ & E).
  destruct r as [err | payload]; [discriminate E | ].
  apply bind_Done in E as (r2 & h2 & E2 & E3).
  destruct r2 as [err | slots]; [discriminate E3 | clear E3].
  apply SendLoop_Done_bounds in E2. rewrite length_replicate in E2.
  assert (Hlow : forall k, is_Some (Clients m !! k) ->
            - offset m <= k < Z.of_nat (size (Clients m)) - offset m).
  { intros k [c Hk].
    assert (Hin : k ∈ order).
    { unfold RangeOrder in HR. rewrite HR. apply list_elem_of_fmap.
      exists (k, c). split; [reflexivity | ].
      apply elem_of_map_to_list. exact Hk. }
    pose proof (proj1 (Forall_forall _ _) E2 k Hin) as Hb. simpl in Hb. lia. }
  exists (Z.of_nat (size (Clients m)) - offset m). intros k.
  split; [apply Hlow | ]. intros Hk.
  assert (Hsub : dom (Clients m)
                 ⊆ (list_to_set (seqZ (- offset m)
                                   (Z.of_nat (size (Clients m)))) : gset Z)).
  { intros j Hj. apply elem_of_dom in Hj. apply Hlow in Hj.
    apply elem_of_list_to_set, elem_of_seqZ. lia. }
  apply set_subseteq_size_eq in Hsub.
  - apply elem_of_dom. rewrite Hsub.
    apply elem_of_list_to_set, elem_of_seqZ. lia.
  - rewrite size_list_to_set by apply NoDup_seqZ.
    rewrite length_seqZ, size_dom. lia.
Qed.

Lemma Send_returns_only_when_complete_witness :
  (RangeOrder (Clients Sample.multiclient) [-1; 1; 0]
   /\ Send Sample.quietEnv Sample.processDest 8 [-1; 1; 0] ["bob.pk"]
        [Byte.x68; Byte.x69] true [] Sample.multiclient []
      = (Done (inr {| Src := "bob.pk"; Data := []; Encrypted := true;
                      Pid := []; IsSession := false; Reply := None |}),
         (Send Sample.quietEnv Sample.processDest 8 [-1; 1; 0] ["bob.pk"]
            [Byte.x68; Byte.x69] true [] Sample.multiclient []).2))
  /\ fullyConstructed Sample.multiclient.
Proof.
  assert (HR : RangeOrder (Clients Sample.multiclient) [-1; 1; 0])
    by (vm_compute; reflexivity).
  assert (E : Send Sample.quietEnv Sample.processDest 8 [-1; 1; 0] ["bob.pk"]
                [Byte.x68; Byte.x69] true [] Sample.multiclient []
              = (Done (inr {| Src := "bob.pk"; Data := []; Encrypted := true;
                              Pid := []; IsSession := false; Reply := None |}),
                 (Send Sample.quietEnv Sample.processDest 8 [-1; 1; 0]
                    ["bob.pk"] [Byte.x68; Byte.x69] true []
                    Sample.multiclient []).2))
    by (vm_compute; reflexivity).
  split; [split; assumption | ].
  exact (Send_returns_only_when_complete Sample.quietEnv Sample.processDest 8
           [-1; 1; 0] ["bob.pk"] [Byte.x68; Byte.x69] true []
           Sample.multiclient [] _ _ HR E).
Defined.

(** Whether a construction of index [i] succeeded is decided by the
    record. *)
Lemma constructed_dec (l : list (Z * (error + Client))) (i : Z) :
  (exists c, (i, inr c) ∈ l) \/ (forall c, (i, inr c) ∉ l).
Proof.
  induction l as [ | [j r] l IH].
  - right. intros c H. apply elem_of_nil in H. exact H.
  - destruct IH as [[c Hc] | Hn].
    + left. exists c. apply elem_of_cons. auto.
    + destruct (decide (j = i)) as [-> | Hne].
      * destruct r as [err | c].
        -- right. intros c H. apply elem_of_cons in H as [H | H];
             [discriminate H | exact (Hn c H)].
        -- left. exists c. apply elem_of_cons. auto.
      * right. intros c H. apply elem_of_cons in H as [H | H];
          [congruence | exact (Hn c H)].
Qed.

(** X21: in a MultiClient returned by [NewMultiClient], [DefaultClient] is
    the entry of the lowest index, [-offset], of the [Clients] map: the
    original client when there is one, else subclient 0.  It is a
    subclient exactly when the construction of that index succeeded; when
    it failed and another succeeded, [NewMultiClient] returns no error and
    [DefaultClient] is nil. *)
Theorem DefaultClient_lowest_index (env : Env)
    (MergedClientConfig : list ClientConfig -> error + ClientConfig)
    (MakeAddressString : bytes -> string -> string)
    (schedule : list Z) (account : bytes) (baseIdentifier : string)
    (numSubClients : Z) (originalClient : bool) (configs : list ClientConfig)
    (h : History) (m : MultiClient) (h' : History) :
  schedule ≡ₚ clientIndices numSubClients (if originalClient then 1 else 0) ->
  NewMultiClient env MergedClientConfig MakeAddressString schedule account
    baseIdentifier numSubClients originalClient configs h
  = (Done (inr m), h') ->
  exists evs,
    h' = h ++ evs
    /\ offset m = (if originalClient then 1 else 0)
    /\ DefaultClient m = Clients m !! (- offset m)
    /\ forall c, DefaultClient m = Some c
                 <-> (- offset m, inr c) ∈ constructions evs.
Proof.
  intros Hsched E. unfold NewMultiClient in E.
  destruct (MergedClientConfig configs) as [err | cfg]; [discriminate E | ].
  assert (Hnd : NoDup schedule) by (rewrite Hsched; apply NoDup_seqZ).
  destruct (createClients_spec env baseIdentifier schedule Hnd ∅ false h)
    as (clients & success & evs & Ec & _ & _ & Hin & Hout).
  unfold bind in E. rewrite Ec in E. simpl in E.
  destruct success; simpl in E; [ | discriminate E].
  destruct (MsgChanLen cfg <? 0); [discriminate E | ].
  injection E as <- <-. exists evs. simpl.
  split; [reflexivity | ]. split; [reflexivity | ].
  split; [destruct originalClient; reflexivity | ].
  assert (Hiff : forall i c,
            clients !! i = Some c <-> (i, inr c) ∈ constructions evs).
  { intros i c. split; [ | apply Hin]. intros Hc.
    destruct (constructed_dec (constructions evs) i) as [[c' Hc'] | Hn].
    - pose proof (Hin i c' Hc') as Hc2. congruence.
    - rewrite (Hout i Hn), lookup_empty in Hc. discriminate Hc. }
  intros c. destruct originalClient; apply Hiff.
Qed.

Lemma DefaultClient_lowest_index_witness :
  DefaultClient
    {| config := Sample.clientConfig; offset := 0;
       Clients := {[ 1 := 101 ]}; DefaultClient := None;
       Address := "alice.pk"; OnMessage := []; acceptSession := [];
       onClose := false; sessions := ∅; isClosed := false;
       msgCache := GoCache.New 300 300 |} = None
  /\ exists evs,
      (NewMultiClient
         (Sample.env (λ i, (i =? 0) || (i =? 2)) (λ _, false) false)
         Sample.MergedClientConfig Sample.MakeAddressString [0; 1; 2] []
         "alice" 3 false [] []).2 = [] ++ evs
      /\ forall c, None = Some c <-> (- 0, inr c) ∈ constructions evs.
Proof.
  split; [reflexivity | ].
  destruct (DefaultClient_lowest_index
              (Sample.env (λ i, (i =? 0) || (i =? 2)) (λ _, false) false)
              Sample.MergedClientConfig Sample.MakeAddressString [0; 1; 2] []
              "alice" 3 false [] []
              {| config := Sample.clientConfig; offset := 0;
                 Clients := {[ 1 := 101 ]}; DefaultClient := None;
                 Address := "alice.pk"; OnMessage := []; acceptSession := [];
                 onClose := false; sessions := ∅; isClosed := false;
                 msgCache := GoCache.New 300 300 |}
              (NewMultiClient
                 (Sample.env (λ i, (i =? 0) || (i =? 2)) (λ _, false) false)
                 Sample.MergedClientConfig Sample.MakeAddressString [0; 1; 2]
                 [] "alice" 3 false [] []).2)
    as (evs & E & _ & _ & Hiff).
  - reflexivity.
  - vm_compute. reflexivity.
  - exists evs. split; [exact E | exact Hiff].
Defined.

(* --------------------------------------------------------------------- *)
(** ** message.go                                                         *)
(* --------------------------------------------------------------------- *)

(** X22: [decrypt] of a message shorter than the overhead of the box does
    not return the error [decrypt message failed]: the length it gives to
    [make] is negative and it panics, before the box is opened. *)
Theorem decrypt_short_message_panics (Overhead : Z)
    (open : bytes -> bytes -> bytes -> option bytes)
    (message nonce sharedKey : bytes) :
  Z.of_nat (length message) < Overhead ->
  decrypt Overhead open message nonce sharedKey
  = Panic "makeslice: len out of range".
Proof.
  intros H. unfold decrypt, makeBytes.
  replace (Z.of_nat (length message) - Overhead <? 0) with true
    by (symmetry; apply Z.ltb_lt; lia).
  reflexivity.
Qed.

Lemma decrypt_short_message_panics_witness :
  Z.of_nat (length [Byte.x01; Byte.x02]) < 16
  /\ decrypt 16 (λ _ _ _, None) [Byte.x01; Byte.x02] [] []
     = Panic "makeslice: len out of range".
Proof.
  split; [vm_compute; reflexivity | ].
  apply (decrypt_short_message_panics 16 (λ _ _ _, None)
           [Byte.x01; Byte.x02] [] []).
  vm_compute. reflexivity.
Defined.

Lemma appendInPlace_fits (n : nat) (data : bytes) :
  length data = n -> appendInPlace (replicate n Byte.x00) data = data.
Proof.
  intros H. unfold appendInPlace. rewrite length_replicate.
  replace (length data <=? n)%nat with true
    by (symmetry; apply Nat.leb_le; lia).
  rewrite drop_ge by (rewrite length_replicate; lia).
  apply app_nil_r.
Qed.

(** X23: [decrypt] undoes [encrypt].  For a box that seals a message
    into [Overhead] more bytes and opens what it sealed, [encrypt] returns
    the sealed message with the nonce it drew, and [decrypt] of the two
    under the same key returns the message. *)
Theorem decrypt_encrypt (Overhead : Z)
    (seal : bytes -> bytes -> bytes -> bytes)
    (open : bytes -> bytes -> bytes -> option bytes)
    (message nonce sharedKey : bytes) :
  0 <= Overhead ->
  (forall msg n k,
      length (seal msg n k) = (length msg + Z.to_nat Overhead)%nat) ->
  (forall msg n k, open (seal msg n k) n k = Some msg) ->
  encrypt Overhead seal (inr nonce) message sharedKey
  = Done (inr (seal message nonce sharedKey, nonce))
  /\ decrypt Overhead open (seal message nonce sharedKey) nonce sharedKey
     = Done (inr message).
Proof.
  intros Ho Hlen Hopen. split.
  - unfold encrypt, makeBytes.
    replace (Z.of_nat (length message) + Overhead <? 0) with false
      by (symmetry; apply Z.ltb_ge; lia).
    rewrite appendInPlace_fits; [reflexivity | ]. rewrite Hlen. lia.
  - unfold decrypt, makeBytes. rewrite Hlen, Hopen.
    replace (Z.of_nat (length message + Z.to_nat Overhead) - Overhead <? 0)
      with false by (symmetry; apply Z.ltb_ge; lia).
    rewrite appendInPlace_fits; [reflexivity | ]. lia.
Qed.

Lemma decrypt_encrypt_witness :
  encrypt 1 (λ msg _ _, Byte.xff :: msg) (inr [Byte.x09])
    [Byte.x68; Byte.x69] []
  = Done (inr (Byte.xff :: [Byte.x68; Byte.x69], [Byte.x09]))
  /\ decrypt 1 (λ box _ _, match box with [] => None | _ :: msg => Some msg end)
       (Byte.xff :: [Byte.x68; Byte.x69]) [Byte.x09] []
     = Done (inr [Byte.x68; Byte.x69]).
Proof.
  apply (decrypt_encrypt 1 (λ msg _ _, Byte.xff :: msg)
           (λ box _ _, match box with [] => None | _ :: msg => Some msg end)
           [Byte.x68; Byte.x69] [Byte.x09] []).
  - lia.
  - intros msg n k. simpl. lia.
  - intros msg n k. reflexivity.
Defined.

(** X24: a reply to a message that has an identifier draws no identifier
    of its own.  [newReplyPayload] with a non-empty [replyToId] calls
    nothing; the payload it returns is BINARY for bytes, TEXT for a
    string and ACK for nil, has an empty [MessageId], the given
    [ReplyToId] and [NoReply] unset; the only errors are
    [ErrInvalidPayloadType], for data of another type, and the error of
    marshalling the text. *)
Theorem newReplyPayload_shape (env : Env) (MessageIDSize : Z)
    (protoMarshalText : string -> error + bytes)
    (ErrInvalidPayloadType : error)
    (data : PayloadData) (replyToId : bytes) (h : History) :
  replyToId <> [] ->
  exists r,
    newReplyPayload env MessageIDSize protoMarshalText ErrInvalidPayloadType
      data replyToId h = (Done r, h)
    /\ match r with
       | inr p =>
           MessageId p = [] /\ ReplyToId p = replyToId /\ NoReply p = false
           /\ match data with
              | DataBytes v => Type_ p = BINARY /\ Data_ p = v
              | DataString v =>
                  Type_ p = TEXT /\ protoMarshalText v = inr (Data_ p)
              | DataNil => Type_ p = ACK /\ Data_ p = []
              | DataOther => False
              end
       | inl err =>
           match data with
           | DataString v => protoMarshalText v = inl err
           | DataOther => err = ErrInvalidPayloadType
           | _ => False
           end
       end.
Proof.
  intros Hne. destruct replyToId as [ | b rest]; [congruence | ].
  destruct data as [v | v | | ];
    unfold newReplyPayload, newBinaryPayload, newTextPayload, newAckPayload,
      bind, ret; simpl.
  - eexists. split; [reflexivity | ]. simpl. auto.
  - destruct (protoMarshalText v) as [err | d] eqn:Em;
      (eexists; split; [reflexivity | ]); simpl; auto.
  - eexists. split; [reflexivity | ]. simpl. auto.
  - eexists. split; [reflexivity | ]. simpl. auto.
Qed.

Lemma newReplyPayload_shape_witness :
  exists r,
    newReplyPayload Sample.quietEnv 8 (λ t, inr (list_byte_of_string t))
      (ErrorsNew "invalid payload type") DataNil [Byte.x01] []
    = (Done r, [])
    /\ match r with
       | inr p =>
           MessageId p = [] /\ ReplyToId p = [Byte.x01] /\ NoReply p = false
           /\ Type_ p = ACK /\ Data_ p = []
       | inl err => False
       end.
Proof.
  apply (newReplyPayload_shape Sample.quietEnv 8
           (λ t, inr (list_byte_of_string t))
           (ErrorsNew "invalid payload type") DataNil [Byte.x01] []).
  discriminate.
Defined.

(** X25: [newMessagePayload] makes a payload that replies to nothing,
    with the given [NoReply]; it carries the given message id and calls
    nothing when an id is given, and otherwise carries the one
    identifier it drew.  Data that is neither bytes nor a string, nil
    included, gives [ErrInvalidPayloadType] with nothing called; a text
    that does not marshal gives its error after the identifier was
    drawn. *)
Theorem newMessagePayload_id (env : Env) (MessageIDSize : Z)
    (protoMarshalText : string -> error + bytes)
    (ErrInvalidPayloadType : error)
    (data : PayloadData) (messageId : bytes) (noReply : bool) (h : History) :
  exists r,
    newMessagePayload env MessageIDSize protoMarshalText
      ErrInvalidPayloadType data messageId noReply h
    = (Done r,
       h ++ match data, messageId with
            | (DataBytes _ | DataString _), [] =>
                [Ev (RandomBytes MessageIDSize)
                    (env _ h (RandomBytes MessageIDSize))]
            | _, _ => []
            end)
    /\ match r with
       | inr p =>
           ReplyToId p = [] /\ NoReply p = noReply
           /\ (match messageId with
               | [] => env _ h (RandomBytes MessageIDSize) = inr (MessageId p)
               | _ => MessageId p = messageId
               end)
           /\ match data with
              | DataBytes v => Type_ p = BINARY /\ Data_ p = v
              | DataString v =>
                  Type_ p = TEXT /\ protoMarshalText v = inr (Data_ p)
              | _ => False
              end
       | inl err =>
           match data with
           | DataBytes _ =>
               messageId = []
               /\ env _ h (RandomBytes MessageIDSize) = inl err
           | DataString v =>
               (messageId = []
                /\ env _ h (RandomBytes MessageIDSize) = inl err)
               \/ protoMarshalText v = inl err
           | _ => err = ErrInvalidPayloadType
           end
       end.
Proof.
  destruct data as [v | v | | ];
    unfold newMessagePayload, newBinaryPayload, newTextPayload, bind, call,
      ret;
    destruct messageId as [ | b rest]; simpl;
    try (destruct (env _ h (RandomBytes MessageIDSize)) as [err | id] eqn:Er;
         simpl);
    try (destruct (protoMarshalText v) as [err' | d] eqn:Em; simpl);
    (eexists; split; [rewrite ?app_nil_r; reflexivity | ]);
    simpl; auto 10.
Qed.

(* --------------------------------------------------------------------- *)
(** ** The write callback of a session                                    *)
(* --------------------------------------------------------------------- *)

(** X26: the write callback of a session, for a local client id that
    names a subclient, makes its calls on that subclient only and sends
    the buffer once, encrypted, to the one destination
    [addIdentifierPrefix remoteAddr remoteClientID], in a BINARY payload
    marked as a session payload with the session id as its identifier.
    With a positive write timeout it first sets the write deadline to
    [now + writeTimeout], and does not send when that fails; after a send
    that succeeded it clears the deadline; after a send that failed it
    returns the error and leaves the deadline set.  Without a timeout the
    send is its only call. *)
Theorem sessionWrite_deadline (wenv : WriteEnv)
    (addIdentifierPrefix : string -> string -> string)
    (clients : gmap string Client) (remoteAddr : string) (sessionID : bytes)
    (now : Z) (localClientID remoteClientID : string) (buf : bytes)
    (writeTimeout : Z) (wh : WriteHistory) (c : Client) :
  clients !! localClientID = Some c ->
  let seg := SendSegment c [addIdentifierPrefix remoteAddr remoteClientID]
               {| segType := BINARY; segPid := sessionID; segData := buf;
                  segIsSession := true |} true 0 in
  let arm := SetWriteDeadline c (Some (now + writeTimeout)) in
  let run := sessionWrite wenv addIdentifierPrefix clients remoteAddr
               sessionID now localClientID remoteClientID buf writeTimeout
               wh in
  if 0 <? writeTimeout
  then (exists err, run = (Done (Some err), wh ++ [(arm, Some err)]))
       \/ (exists err,
             run = (Done (Some err), wh ++ [(arm, None); (seg, Some err)]))
       \/ (exists e,
             run = (Done e,
                    wh ++ [(arm, None); (seg, None);
                           (SetWriteDeadline c None, e)]))
  else exists e, run = (Done e, wh ++ [(seg, e)]).
Proof.
  intros Hc seg arm run. subst run. unfold sessionWrite. rewrite Hc.
  fold seg. fold arm. unfold writeCall.
  destruct (0 <? writeTimeout).
  - destruct (wenv wh arm) as [err | ]; [left; eauto | ].
    destruct (wenv (wh ++ [(arm, None)]) seg) as [err | ].
    + right. left. exists err. rewrite <- app_assoc. reflexivity.
    + right. right.
      exists (wenv ((wh ++ [(arm, None)]) ++ [(seg, None)])
                (SetWriteDeadline c None)).
      destruct (wenv _ (SetWriteDeadline c None)); rewrite <- !app_assoc;
        reflexivity.
  - exists (wenv wh seg). destruct (wenv wh seg); reflexivity.
Qed.

Lemma sessionWrite_deadline_witness :
  ({[ "__0__." := 100 ]} : gmap string Client) !! "__0__." = Some 100
  /\ ((exists err,
         sessionWrite
           (λ _ call, match call with
                      | SendSegment _ _ _ _ _ => Some (ExternalError 3)
                      | _ => None
                      end)
           (λ addr id, id +:+ "." +:+ addr) {[ "__0__." := 100 ]} "bob.pk"
           [Byte.x07] 1000 "__0__." "__1__" [Byte.x61] 50 []
         = (Done (Some err),
            [] ++ [(SetWriteDeadline 100 (Some (1000 + 50)), Some err)]))
      \/ (exists err,
            sessionWrite
              (λ _ call, match call with
                         | SendSegment _ _ _ _ _ => Some (ExternalError 3)
                         | _ => None
                         end)
              (λ addr id, id +:+ "." +:+ addr) {[ "__0__." := 100 ]} "bob.pk"
              [Byte.x07] 1000 "__0__." "__1__" [Byte.x61] 50 []
            = (Done (Some err),
               [] ++ [(SetWriteDeadline 100 (Some (1000 + 50)), None);
                      (SendSegment 100 ["__1__" +:+ "." +:+ "bob.pk"]
                         {| segType := BINARY; segPid := [Byte.x07];
                            segData := [Byte.x61]; segIsSession := true |}
                         true 0,
                       Some err)]))
      \/ (exists e,
            sessionWrite
              (λ _ call, match call with
                         | SendSegment _ _ _ _ _ => Some (ExternalError 3)
                         | _ => None
                         end)
              (λ addr id, id +:+ "." +:+ addr) {[ "__0__." := 100 ]} "bob.pk"
              [Byte.x07] 1000 "__0__." "__1__" [Byte.x61] 50 []
            = (Done e,
               [] ++ [(SetWriteDeadline 100 (Some (1000 + 50)), None);
                      (SendSegment 100 ["__1__" +:+ "." +:+ "bob.pk"]
                         {| segType := BINARY; segPid := [Byte.x07];
                            segData := [Byte.x61]; segIsSession := true |}
                         true 0,
                       None);
                      (SetWriteDeadline 100 None, e)]))).
Proof.
  split; [reflexivity | ].
  exact (sessionWrite_deadline
           (λ _ call, match call with
                      | SendSegment _ _ _ _ _ => Some (ExternalError 3)
                      | _ => None
                      end)
           (λ addr id, id +:+ "." +:+ addr) {[ "__0__." := 100 ]}
           "bob.pk" [Byte.x07] 1000 "__0__." "__1__" [Byte.x61] 50 []
           100 eq_refl).
Defined.

(** Texts with a common end. *)
Lemma length_append (s t : string) :
  String.length (s +:+ t) = (String.length s + String.length t)%nat.
Proof.
  induction s as [ | a s IH]; [reflexivity | ].
  change (String a s +:+ t) with (String a (s +:+ t)). simpl.
  rewrite IH. reflexivity.
Qed.

Lemma append_inj_r (t : string) :
  forall s1 s2, s1 +:+ t = s2 +:+ t -> s1 = s2.
Proof.
  induction s1 as [ | a s1 IH]; intros [ | b s2] H.
  - reflexivity.
  - apply (f_equal String.length) in H. rewrite !length_append in H.
    simpl in H. lia.
  - apply (f_equal String.length) in H. rewrite !length_append in H.
    simpl in H. lia.
  - change (String a (s1 +:+ t) = String b (s2 +:+ t)) in H.
    injection H as -> H. f_equal. apply IH. exact H.
Qed.

(** [Itoa], and with it the tag of a subclient, tells the indices
    apart. *)
Lemma Itoa_inj (a b : Z) : Itoa a = Itoa b -> a = b.
Proof.
  assert (Hnn : forall n, Z.to_int n <> Decimal.Pos Decimal.Nil
                          /\ Z.to_int n <> Decimal.Neg Decimal.Nil).
  { intros n.
    assert (E : Z.to_int n = Decimal.norm (Z.to_int n))
      by (rewrite <- DecimalZ.to_of, DecimalZ.of_to; reflexivity).
    split; intros H; rewrite H in E; discriminate E. }
  intros H. unfold Itoa in H.
  apply (f_equal NilZero.int_of_string) in H.
  rewrite !NilZero.isi in H by apply Hnn.
  injection H as H. apply DecimalZ.to_int_inj. exact H.
Qed.

Lemma addIdentifier_empty_inj (a b : Z) :
  addIdentifier "" a = addIdentifier "" b -> a = b.
Proof.
  unfold addIdentifier.
  destruct (Z.eqb_spec a (-1)) as [-> | Ha], (Z.eqb_spec b (-1)) as [-> | Hb];
    intros H.
  - reflexivity.
  - change ("" = String "_" (String "_" (Itoa b +:+ "__."))) in H.
    discriminate H.
  - change (String "_" (String "_" (Itoa a +:+ "__.")) = "") in H.
    discriminate H.
  - change (String "_" (String "_" (Itoa a +:+ "__."))
            = String "_" (String "_" (Itoa b +:+ "__."))) in H.
    injection H as H. apply append_inj_r in H. apply Itoa_inj. exact H.
Qed.

(** The map the write callback captures holds, under the tag of each
    subclient visited, that subclient. *)
Lemma sessionClients_lookup (m : MultiClient) (order : list Z) (j : Z) :
  sessionClients order m !! addIdentifier "" j
  = if bool_decide (j ∈ order) then Clients m !! j else None.
Proof.
  induction order as [ | x l IH] using rev_ind.
  - reflexivity.
  - unfold sessionClients in *. rewrite foldl_app. simpl.
    destruct (decide (j = x)) as [-> | Hne].
    + rewrite bool_decide_eq_true_2 by (apply elem_of_app; right; left).
      destruct (Clients m !! x) as [cl | ] eqn:Hx.
      * apply lookup_insert_eq.
      * rewrite IH. destruct (bool_decide (x ∈ l)); reflexivity.
    + assert (Hk : addIdentifier "" x <> addIdentifier "" j).
      { intros H. apply addIdentifier_empty_inj in H. congruence. }
      assert (Hb : bool_decide (j ∈ l ++ [x]) = bool_decide (j ∈ l)).
      { apply bool_decide_ext. rewrite elem_of_app, list_elem_of_singleton.
        tauto. }
      rewrite Hb.
      destruct (Clients m !! x) as [cl | ];
        [rewrite lookup_insert_ne by exact Hk | ]; exact IH.
Qed.

(** X27: the write callback of a session that [newSession] makes reaches
    the subclient that its local client id names.  For the tag of a
    subclient [k] of the MultiClient, in whatever order the [range] of
    [newSession] filled the map of the callback, the callback does not
    panic and makes every call, at least one, on subclient [k]. *)
Theorem session_write_through_named_subclient (wenv : WriteEnv)
    (addIdentifierPrefix : string -> string -> string)
    (order : list Z) (m : MultiClient) (remoteAddr : string)
    (sessionID : bytes) (now k : Z) (remoteClientID : string) (buf : bytes)
    (writeTimeout : Z) (wh : WriteHistory) (c : Client) :
  RangeOrder (Clients m) order ->
  Clients m !! k = Some c ->
  exists res calls,
    sessionWrite wenv addIdentifierPrefix (sessionClients order m) remoteAddr
      sessionID now (addIdentifier "" k) remoteClientID buf writeTimeout wh
    = (Done res, wh ++ calls)
    /\ calls <> []
    /\ Forall (λ x, writeClient x.1 = c) calls.
Proof.
  intros HR Hk.
  assert (Hin : k ∈ order).
  { unfold RangeOrder in HR. rewrite HR. apply list_elem_of_fmap.
    exists (k, c). split; [reflexivity | ].
    apply elem_of_map_to_list. exact Hk. }
  assert (Hl : sessionClients order m !! addIdentifier "" k = Some c).
  { rewrite sessionClients_lookup, bool_decide_eq_true_2 by exact Hin.
    exact Hk. }
  unfold sessionWrite, writeCall. rewrite Hl.
  destruct (0 <? writeTimeout).
  - destruct (wenv wh _) as [err | ].
    { do 2 eexists. split; [reflexivity | ]. split; [discriminate | ].
      repeat constructor. }
    destruct (wenv (wh ++ _) (SendSegment _ _ _ _ _)) as [err | ].
    { do 2 eexists. split; [rewrite <- app_assoc; reflexivity | ].
      split; [discriminate | ]. repeat constructor. }
    destruct (wenv _ (SetWriteDeadline c None)) as [err | ];
      (do 2 eexists; split; [rewrite <- !app_assoc; reflexivity | ];
       split; [discriminate | ]; repeat constructor).
  - destruct (wenv wh _) as [err | ];
      (do 2 eexists; split; [reflexivity | ];
       split; [discriminate | ]; repeat constructor).
Qed.

Lemma session_write_through_named_subclient_witness :
  (RangeOrder (Clients Sample.multiclient) [0; -1; 1]
   /\ Clients Sample.multiclient !! 1 = Some 101)
  /\ exists res calls,
      sessionWrite (λ _ _, None) (λ addr id, id +:+ "." +:+ addr)
        (sessionClients [0; -1; 1] Sample.multiclient) "bob.pk" [Byte.x07]
        1000 (addIdentifier "" 1) "__0__" [Byte.x61] 0 []
      = (Done res, [] ++ calls)
      /\ calls <> []
      /\ Forall (λ x, writeClient x.1 = 101) calls.
Proof.
  assert (HR : RangeOrder (Clients Sample.multiclient) [0; -1; 1]).
  { vm_compute. exact (Permutation_cons_append [-1; 1] 0). }
  split; [split; [exact HR | reflexivity] | ].
  exact (session_write_through_named_subclient (λ _ _, None)
           (λ addr id, id +:+ "." +:+ addr) [0; -1; 1] Sample.multiclient
           "bob.pk" [Byte.x07] 1000 1 "__0__" [Byte.x61] 0 [] 101 HR eq_refl).
Defined.

(* --------------------------------------------------------------------- *)
(** ** The pattern of a tag                                               *)
(* --------------------------------------------------------------------- *)

Module TagPattern.
Import Regexp.

Lemma Lang_Class_inv p s :
  Lang (Class p) s -> exists c, s = String c EmptyString /\ p c = true.
Proof. intros H. inversion H; subst. eauto. Qed.

Lemma Lang_Cat_inv r1 r2 s :
  Lang (Cat r1 r2) s ->
  exists s1 s2, s = s1 +:+ s2 /\ Lang r1 s1 /\ Lang r2 s2.
Proof. intros H. inversion H; subst. eauto. Qed.

Lemma Lang_Lit_inv c s : Lang (Lit c) s -> s = String c EmptyString.
Proof.
  intros H. apply Lang_Class_inv in H as (c' & -> & Hc).
  apply Ascii.eqb_eq in Hc. subst. reflexivity.
Qed.

Lemma all_digits_append s t :
  all_digits (s +:+ t) = all_digits s && all_digits t.
Proof.
  induction s as [ | c s IH]; [reflexivity | ].
  change (String c s +:+ t) with (String c (s +:+ t)). simpl.
  rewrite IH. apply andb_assoc.
Qed.

Lemma Lang_Star_Digit s : Lang (Star Digit) s -> all_digits s = true.
Proof.
  intros H. remember (Star Digit) as r eqn:Er.
  induction H as [ | | | | | r' | r' s1 s2 H1 _ _ IH2]; try discriminate Er.
  - reflexivity.
  - injection Er as ->. rewrite all_digits_append, (IH2 eq_refl).
    apply Lang_Class_inv in H1 as (c & -> & Hc). simpl. rewrite Hc.
    reflexivity.
Qed.

End TagPattern.

(** X28: [identifierRe] matches the texts [__ds__] with [ds] one or more
    decimal digits, and nothing else: not the empty tag [____], not a
    negative number, not a tag with text before or after it. *)
Theorem identifierRe_language (s : string) :
  Regexp.MatchString identifierRe s = true
  <-> exists ds,
        ds <> EmptyString /\ all_digits ds = true
        /\ s = "__" +:+ ds +:+ "__".
Proof.
  split.
  - intros H. apply RegexpFacts.MatchString_Lang in H. unfold identifierRe in H.
    apply TagPattern.Lang_Cat_inv in H as (a1 & t1 & -> & Ha1 & H).
    apply TagPattern.Lang_Lit_inv in Ha1 as ->.
    apply TagPattern.Lang_Cat_inv in H as (a2 & t2 & -> & Ha2 & H).
    apply TagPattern.Lang_Lit_inv in Ha2 as ->.
    apply TagPattern.Lang_Cat_inv in H as (ds & t3 & -> & Hds & H).
    apply TagPattern.Lang_Cat_inv in H as (a3 & a4 & -> & Ha3 & Ha4).
    apply TagPattern.Lang_Lit_inv in Ha3 as ->.
    apply TagPattern.Lang_Lit_inv in Ha4 as ->.
    unfold Regexp.Plus in Hds.
    apply TagPattern.Lang_Cat_inv in Hds as (d & rest & -> & Hd & Hrest).
    apply TagPattern.Lang_Class_inv in Hd as (c & -> & Hc).
    apply TagPattern.Lang_Star_Digit in Hrest.
    exists (String c rest). split; [discriminate | ].
    split; [simpl; rewrite Hc, Hrest; reflexivity | reflexivity].
  - intros (ds & Hne & Hd & ->). apply Codec.tag_matches; assumption.
Qed.
